(** * io_import_wad2: a shallow embedding of the WAD2 / BSP texture importer

    The development follows [ImportQuakeWad.execute] and
    [ImportQuakeWad.make_noodles_post] of [io_import_wad2.py]:

    - Python exceptions are an error monad ([result]); nothing in [execute]
      catches them except the [try] around [bpy.path.relpath];
    - the open file is a [reader] (contents and position) with [read] and
      [seek]; [struct.unpack] is an interpreter of format strings;
    - [bpy.data] (materials, images, container objects) and the local
      dictionary [anim_seqs] are explicit state, kept as association lists in
      creation order;
    - the nested pixel loop is a fold over the (row, column) pairs in the
      order the two [for] statements visit them.

    Blender itself is outside the add-on.  What the model keeps of it is
    stated where it is used: datablocks are stored under the name they are
    created with, [asset_data] is absent until [asset_mark] is called, and
    the shader node graph is reduced to the images it links. *)

From Stdlib Require Import ZArith List String Ascii Bool Lia Permutation Sorted.
From Stdlib.Strings Require Byte.
Local Open Scope string_scope.
Import ListNotations.
Local Open Scope list_scope.
Local Open Scope Z_scope.

Abbreviation byte := Byte.byte.

(** ** Exceptions *)

Inductive exn : Type :=
| StructError          (* struct.error: buffer of the wrong size *)
| IndexError           (* string / list / bytes index out of range *)
| KeyError             (* missing dictionary key *)
| TypeError
| ValueError           (* read length must be non-negative or -1 *)
| OSError              (* open of a missing file, seek to a negative offset *)
| UnicodeDecodeError   (* bytes.decode('ascii') on a byte above 127 *)
| AttributeError       (* attribute access on None *)
| OverflowError.       (* an int that does not fit a C ssize_t *)

Inductive result (A : Type) : Type :=
| Ok (a : A)
| Raise (e : exn).
Arguments Ok {A} a.
Arguments Raise {A} e.

Definition bind {A B} (m : result A) (k : A -> result B) : result B :=
  match m with
  | Ok a => k a
  | Raise e => Raise e
  end.

Declare Scope py_scope.
Delimit Scope py_scope with py.
Notation "x <- m ;; k" := (bind m (fun x => k))
  (at level 61, m at next level, right associativity) : py_scope.
Notation "' p <- m ;; k" := (bind m (fun x => match x with p => k end))
  (at level 61, p pattern, m at next level, right associativity) : py_scope.
Local Open Scope py_scope.

Definition is_ok {A} (m : result A) : bool :=
  match m with Ok _ => true | Raise _ => false end.

(** ** Sequences: indexing and slicing as Python does them *)

Section Sequences.
Context {A : Type}.

Definition len (l : list A) : Z := Z.of_nat (List.length l).

  (** [l[i]] for [0 <= i]; the code never indexes a list or a bytes object
      with a negative number except through [item_neg] below. *)
Definition item (l : list A) (i : Z) : result A :=
    if i <? 0 then Raise IndexError
    else match nth_error l (Z.to_nat i) with
         | Some x => Ok x
         | None => Raise IndexError
         end.

  (** [l[-k]] for [0 < k]. *)
Definition item_neg (l : list A) (k : Z) : result A :=
    if len l <? k then Raise IndexError else item l (len l - k).

  (** [l[i:j]] for [0 <= i]. *)
Definition slice (l : list A) (i j : Z) : list A :=
    firstn (Z.to_nat (j - i)) (skipn (Z.to_nat i) l).

  (** [l[:k]], where a negative [k] counts from the end. *)
Definition slice_to (l : list A) (k : Z) : list A :=
    if k <? 0 then firstn (Z.to_nat (len l + k)) l else firstn (Z.to_nat k) l.

  (** [l[k:]], where a negative [k] counts from the end. *)
Definition slice_from (l : list A) (k : Z) : list A :=
    if k <? 0 then skipn (Z.to_nat (len l + k)) l else skipn (Z.to_nat k) l.

  (** [[x]*n], for a list [x]. *)
Fixpoint repeat_list (x : list A) (n : nat) : list A :=
    match n with
    | O => []
    | S n' => x ++ repeat_list x n'
    end.
End Sequences.

(** [range(n)]: empty for [n <= 0]. *)
Definition range (n : Z) : list Z := map Z.of_nat (seq 0 (Z.to_nat n)).

(** ** The open file *)

Record reader : Type := { r_data : list byte; r_pos : Z }.

Definition open_bytes (data : list byte) : reader :=
  {| r_data := data; r_pos := 0 |}.

(** [wad.seek(k)]: a negative offset is refused, any other is accepted, also
    past the end of the file. *)
Definition seek (wad : reader) (k : Z) : result reader :=
  if k <? 0 then Raise OSError
  else Ok {| r_data := r_data wad; r_pos := k |}.

(** [wad.read(n)]: up to [n] bytes from the position; fewer at the end of the
    file, all that is left for [n = -1].  The length is converted to a C
    ssize_t first, which fails outside of 64 bits. *)
Definition read (wad : reader) (n : Z) : result (list byte * reader) :=
  if (n <? - 2 ^ 63) || (2 ^ 63 <=? n) then Raise OverflowError
  else if n <? -1 then Raise ValueError
  else
    let rest := skipn (Z.to_nat (r_pos wad)) (r_data wad) in
    let got := if n =? -1 then rest else firstn (Z.to_nat n) rest in
    Ok (got, {| r_data := r_data wad; r_pos := r_pos wad + len got |}).

(** ** struct.unpack *)

Inductive field : Type :=
| Fl            (* l: signed 32-bit *)
| FL            (* L: unsigned 32-bit *)
| Fh            (* h: signed 16-bit *)
| FB            (* B: unsigned byte *)
| Fc            (* c: bytes of length 1 *)
| Fs (n : nat). (* ns: bytes of length n *)

(** A Python value as it occurs in an unpacked tuple or a directory entry. *)
Inductive pyval : Type :=
| VInt (z : Z)
| VBytes (bs : list byte).

Definition field_size (f : field) : nat :=
  match f with
  | Fl | FL => 4
  | Fh => 2
  | FB | Fc => 1
  | Fs n => n
  end.

Definition calcsize (fmt : list field) : nat :=
  fold_right (fun f acc => (field_size f + acc)%nat) O fmt.

Definition byte_val (b : byte) : Z := Z.of_N (Byte.to_N b).

(** Little-endian, as every format of the add-on starts with [<]. *)
Definition le_unsigned (bs : list byte) : Z :=
  fold_right (fun b acc => byte_val b + 256 * acc) 0 bs.

Definition le_signed (bits : Z) (bs : list byte) : Z :=
  let u := le_unsigned bs in
  if u <? 2 ^ (bits - 1) then u else u - 2 ^ bits.

Definition unpack_field (f : field) (bs : list byte) : pyval :=
  match f with
  | Fl => VInt (le_signed 32 bs)
  | FL => VInt (le_unsigned bs)
  | Fh => VInt (le_signed 16 bs)
  | FB => VInt (le_unsigned bs)
  | Fc => VBytes bs
  | Fs _ => VBytes bs
  end.

Fixpoint unpack_fields (fmt : list field) (bs : list byte) : list pyval :=
  match fmt with
  | [] => []
  | f :: fmt' =>
      unpack_field f (firstn (field_size f) bs)
        :: unpack_fields fmt' (skipn (field_size f) bs)
  end.

(** [struct.unpack(fmt, data)] raises unless [data] has exactly
    [calcsize(fmt)] bytes. *)
Definition unpack (fmt : list field) (bs : list byte) : result (list pyval) :=
  if Nat.eqb (List.length bs) (calcsize fmt) then Ok (unpack_fields fmt bs)
  else Raise StructError.

Definition fmt_2l : list field := [Fl; Fl].                        (* '<2l' *)
Definition fmt_l : list field := [Fl].                             (* '<l' *)
Definition fmt_direntry : list field := [Fl; Fl; Fl; Fc; Fc; Fh; Fs 16].
                                                             (* '<3lcch16s' *)
Definition fmt_30l : list field := repeat Fl 30.                   (* '<30l' *)
Definition fmt_miptex : list field := [Fs 16; FL; FL; FL; FL; FL; FL].
                                                                (* '<16s6L' *)
Definition fmt_768B : list field := repeat FB 768.                 (* '<768B' *)

Definition as_int (v : pyval) : result Z :=
  match v with VInt z => Ok z | VBytes _ => Raise TypeError end.

Definition as_bytes (v : pyval) : result (list byte) :=
  match v with VBytes bs => Ok bs | VInt _ => Raise AttributeError end.

Fixpoint as_ints (vs : list pyval) : result (list Z) :=
  match vs with
  | [] => Ok []
  | v :: vs' => z <- as_int v ;; zs <- as_ints vs' ;; Ok (z :: zs)
  end.

Definition pyval_eqb (a b : pyval) : bool :=
  match a, b with
  | VInt x, VInt y => x =? y
  | VBytes x, VBytes y =>
      if list_eq_dec Byte.byte_eq_dec x y then true else false
  | _, _ => false
  end.

(** ** Strings *)

Definition chars (s : string) : list ascii := list_ascii_of_string s.
Definition str (l : list ascii) : string := string_of_list_ascii l.

Definition is_nul (b : byte) : bool := Byte.eqb b Byte.x00.

Fixpoint until_nul (bs : list byte) : list byte :=
  match bs with
  | [] => []
  | b :: bs' => if is_nul b then [] else b :: until_nul bs'
  end.

(** [bs.decode('ascii')] *)
Definition decode_ascii (bs : list byte) : result string :=
  if forallb (fun b => byte_val b <? 128) bs
  then Ok (string_of_list_byte bs)
  else Raise UnicodeDecodeError.

(** [field.split(b'\00')[0].decode('ascii')] *)
Definition c_name (bs : list byte) : result string :=
  decode_ascii (until_nul bs).

(** The lowercase of one character.  A character of a string stands for
    the code point of that number, so the strings are those of code points
    below 256: besides A-Z, the capitals among them are 192-214 and 216-222,
    and the lowercase of each is 32 further on. *)
Definition lower_ascii (c : ascii) : ascii :=
  let n := nat_of_ascii c in
  if (Nat.leb 65 n && Nat.leb n 90)
     || (Nat.leb 192 n && Nat.leb n 222 && negb (Nat.eqb n 215))
  then ascii_of_nat (n + 32) else c.

(** [s.lower()] *)
Definition lower (s : string) : string := str (map lower_ascii (chars s)).

(** [s[i]] *)
Definition char_at (s : string) (i : Z) : result ascii := item (chars s) i.

Definition startswith (s p : string) : bool := String.prefix p s.

Definition endswith (s p : string) : bool :=
  String.prefix (str (rev (chars p))) (str (rev (chars s))).

(** [c in s] for a one-character string [c]. *)
Definition char_in (c : ascii) (s : string) : bool :=
  existsb (Ascii.eqb c) (chars s).

(** [s.replace(a, b)] for one-character strings [a] and [b]. *)
Definition replace_char (a b : ascii) (s : string) : string :=
  str (map (fun c => if Ascii.eqb c a then b else c) (chars s)).

Fixpoint rfind_from (c : ascii) (l : list ascii) (i : Z) (found : Z) : Z :=
  match l with
  | [] => found
  | x :: l' => rfind_from c l' (i + 1) (if Ascii.eqb x c then i else found)
  end.

(** [s.rfind(c)]: the last index of [c], or [-1]. *)
Definition rfind (s : string) (c : ascii) : Z := rfind_from c (chars s) 0 (-1).

Definition str_slice_to (s : string) (k : Z) : string := str (slice_to (chars s) k).
Definition str_slice_from (s : string) (k : Z) : string := str (slice_from (chars s) k).

Fixpoint lstrip (set : string) (l : list ascii) : list ascii :=
  match l with
  | [] => []
  | c :: l' => if char_in c set then lstrip set l' else l
  end.

(** [s.strip(set)] *)
Definition strip (set : string) (s : string) : string :=
  str (rev (lstrip set (rev (lstrip set (chars s))))).

Fixpoint split_chars (sep : ascii) (l : list ascii) (cur : list ascii)
  : list string :=
  match l with
  | [] => [str (rev cur)]
  | c :: l' =>
      if Ascii.eqb c sep then str (rev cur) :: split_chars sep l' []
      else split_chars sep l' (c :: cur)
  end.

(** [s.split(sep)] for a one-character separator. *)
Definition split (s : string) (sep : ascii) : list string :=
  split_chars sep (chars s) [].

(** ** Colours

    A channel of a pixel buffer is one of the three kinds of Python number
    the add-on puts there: a palette component divided by 255 (a float), the
    literal [0] or [1] of the black filler, or the boolean [alpha]. *)

Inductive chan : Type :=
| Div255 (rgb : Z)    (* rgb/255 *)
| PyInt (n : Z)
| PyBool (b : bool).

(** The number a channel stands for, times 255. *)
Definition chan_x255 (c : chan) : Z :=
  match c with
  | Div255 rgb => rgb
  | PyInt n => 255 * n
  | PyBool b => if b then 255 else 0
  end.

Definition quake1palette : list Z :=
  [0; 0; 0; 15; 15; 15; 31; 31; 31; 47; 47; 47; 63; 63; 63; 75; 75; 75; 91; 91; 91; 107; 107; 107;
   123; 123; 123; 139; 139; 139; 155; 155; 155; 171; 171; 171; 187; 187; 187; 203; 203; 203; 219; 219; 219; 235; 235; 235;
   15; 11; 7; 23; 15; 11; 31; 23; 11; 39; 27; 15; 47; 35; 19; 55; 43; 23; 63; 47; 23; 75; 55; 27;
   83; 59; 27; 91; 67; 31; 99; 75; 31; 107; 83; 31; 115; 87; 31; 123; 95; 35; 131; 103; 35; 143; 111; 35;
   11; 11; 15; 19; 19; 27; 27; 27; 39; 39; 39; 51; 47; 47; 63; 55; 55; 75; 63; 63; 87; 71; 71; 103;
   79; 79; 115; 91; 91; 127; 99; 99; 139; 107; 107; 151; 115; 115; 163; 123; 123; 175; 131; 131; 187; 139; 139; 203;
   0; 0; 0; 7; 7; 0; 11; 11; 0; 19; 19; 0; 27; 27; 0; 35; 35; 0; 43; 43; 7; 47; 47; 7;
   55; 55; 7; 63; 63; 7; 71; 71; 7; 75; 75; 11; 83; 83; 11; 91; 91; 11; 99; 99; 11; 107; 107; 15;
   7; 0; 0; 15; 0; 0; 23; 0; 0; 31; 0; 0; 39; 0; 0; 47; 0; 0; 55; 0; 0; 63; 0; 0;
   71; 0; 0; 79; 0; 0; 87; 0; 0; 95; 0; 0; 103; 0; 0; 111; 0; 0; 119; 0; 0; 127; 0; 0;
   19; 19; 0; 27; 27; 0; 35; 35; 0; 47; 43; 0; 55; 47; 0; 67; 55; 0; 75; 59; 7; 87; 67; 7;
   95; 71; 7; 107; 75; 11; 119; 83; 15; 131; 87; 19; 139; 91; 19; 151; 95; 27; 163; 99; 31; 175; 103; 35;
   35; 19; 7; 47; 23; 11; 59; 31; 15; 75; 35; 19; 87; 43; 23; 99; 47; 31; 115; 55; 35; 127; 59; 43;
   143; 67; 51; 159; 79; 51; 175; 99; 47; 191; 119; 47; 207; 143; 43; 223; 171; 39; 239; 203; 31; 255; 243; 27;
   11; 7; 0; 27; 19; 0; 43; 35; 15; 55; 43; 19; 71; 51; 27; 83; 55; 35; 99; 63; 43; 111; 71; 51;
   127; 83; 63; 139; 95; 71; 155; 107; 83; 167; 123; 95; 183; 135; 107; 195; 147; 123; 211; 163; 139; 227; 179; 151;
   171; 139; 163; 159; 127; 151; 147; 115; 135; 139; 103; 123; 127; 91; 111; 119; 83; 99; 107; 75; 87; 95; 63; 75;
   87; 55; 67; 75; 47; 55; 67; 39; 47; 55; 31; 35; 43; 23; 27; 35; 19; 19; 23; 11; 11; 15; 7; 7;
   187; 115; 159; 175; 107; 143; 163; 95; 131; 151; 87; 119; 139; 79; 107; 127; 75; 95; 115; 67; 83; 107; 59; 75;
   95; 51; 63; 83; 43; 55; 71; 35; 43; 59; 31; 35; 47; 23; 27; 35; 19; 19; 23; 11; 11; 15; 7; 7;
   219; 195; 187; 203; 179; 167; 191; 163; 155; 175; 151; 139; 163; 135; 123; 151; 123; 111; 135; 111; 95; 123; 99; 83;
   107; 87; 71; 95; 75; 59; 83; 63; 51; 67; 51; 39; 55; 43; 31; 39; 31; 23; 27; 19; 15; 15; 11; 7;
   111; 131; 123; 103; 123; 111; 95; 115; 103; 87; 107; 95; 79; 99; 87; 71; 91; 79; 63; 83; 71; 55; 75; 63;
   47; 67; 55; 43; 59; 47; 35; 51; 39; 31; 43; 31; 23; 35; 23; 15; 27; 19; 11; 19; 11; 7; 11; 7;
   255; 243; 27; 239; 223; 23; 219; 203; 19; 203; 183; 15; 187; 167; 15; 171; 151; 11; 155; 131; 7; 139; 115; 7;
   123; 99; 7; 107; 83; 0; 91; 71; 0; 75; 55; 0; 59; 43; 0; 43; 31; 0; 27; 15; 0; 11; 7; 0;
   0; 0; 255; 11; 11; 239; 19; 19; 223; 27; 27; 207; 35; 35; 191; 43; 43; 175; 47; 47; 159; 47; 47; 143;
   47; 47; 127; 47; 47; 111; 47; 47; 95; 43; 43; 79; 35; 35; 63; 27; 27; 47; 19; 19; 31; 11; 11; 15;
   43; 0; 0; 59; 0; 0; 75; 7; 0; 95; 7; 0; 111; 15; 0; 127; 23; 7; 147; 31; 7; 163; 39; 11;
   183; 51; 15; 195; 75; 27; 207; 99; 43; 219; 127; 59; 227; 151; 79; 231; 171; 95; 239; 191; 119; 247; 211; 139;
   167; 123; 59; 183; 155; 55; 199; 195; 55; 231; 227; 87; 127; 191; 255; 171; 231; 255; 215; 255; 255; 103; 0; 0;
   139; 0; 0; 179; 0; 0; 215; 0; 0; 255; 0; 0; 255; 243; 147; 255; 247; 199; 255; 255; 255; 159; 91; 83].

(** [pal_float = [rgb/255 for rgb in quake1palette]] *)
Definition pal_float : list chan := map Div255 quake1palette.

(** [[0,0,0,1]] *)
Definition black : list chan := [PyInt 0; PyInt 0; PyInt 0; PyInt 1].

(** Truth value of a list: non-empty. *)
Definition truthy {A} (l : list A) : bool :=
  match l with [] => false | _ :: _ => true end.

Fixpoint foldM {A S : Type} (f : S -> A -> result S) (l : list A) (s : S)
  : result S :=
  match l with
  | [] => Ok s
  | x :: l' => s' <- f s x ;; foldM f l' s'
  end.

(** ** Indexed pixels to RGBA and emission (lines 238-257) *)

Record pixbufs : Type := { pix_rgba : list chan; pix_emit : list chan }.

Section Convert.
Variable option_luma : bool.
Variable name : string.
Variable palette : list chan.
Variable size : Z * Z.
Variable pixels : list byte.

  (** [alpha = pixel != 255 or name[0] != '{'] *)
Definition pixel_alpha (pixel : Z) : result bool :=
    if negb (pixel =? 255) then Ok true
    else c <- char_at name 0 ;; Ok (negb (Ascii.eqb c "{")).

  (** [notfb = pixel < 224 or name.startswith(('sky','*'))] *)
Definition pixel_notfb (pixel : Z) : bool :=
    (pixel <? 224) || (startswith name "sky" || startswith name "*").

  (** The body of the inner loop. *)
Definition convert_pixel (row : Z) (bufs : pixbufs) (clm : Z)
    : result pixbufs :=
    px <- item pixels (row * fst size + clm) ;;
    let pixel := byte_val px in
    let color := slice palette (pixel * 3) (pixel * 3 + 3) in
    alpha <- pixel_alpha pixel ;;
    let notfb := pixel_notfb pixel in
    if notfb || negb alpha then
      Ok {| pix_rgba := pix_rgba bufs ++ (color ++ [PyBool alpha]);
            pix_emit := if truthy (pix_emit bufs)
                        then pix_emit bufs ++ black
                        else pix_emit bufs |}
    else
      let rgba :=
        if option_luma then pix_rgba bufs ++ black
        else pix_rgba bufs ++ (color ++ [PyBool alpha]) in
      let emit :=
        if negb (truthy (pix_emit bufs)) then
          let initsize := (snd size - row - 1) * fst size + clm in
          repeat_list black (Z.to_nat initsize)
        else pix_emit bufs in
      Ok {| pix_rgba := rgba; pix_emit := emit ++ (color ++ [PyBool alpha]) |}.

Definition convert_row (bufs : pixbufs) (row : Z) : result pixbufs :=
    foldM (convert_pixel row) (range (fst size)) bufs.

  (** [for row in reversed(range(size[1])): for clm in range(size[0]): ...] *)
Definition convert : result pixbufs :=
    foldM convert_row (rev (range (snd size)))
          {| pix_rgba := []; pix_emit := [] |}.
End Convert.

(** ** The world outside the add-on *)

(** A file on disk: its bytes, and the colour depth Blender's image loader
    reports for it ([0] when it cannot read it as an image). *)
Record file : Type := { f_bytes : list byte; f_depth : Z }.

Record env : Type := {
  fs : list (string * file);                    (* path -> file *)
  relpath : string -> string -> option string;  (* bpy.path.relpath; None: raised *)
  app_version : Z * Z * Z                       (* bpy.app.version *)
}.

Fixpoint assoc {V} (k : string) (l : list (string * V)) : option V :=
  match l with
  | [] => None
  | (k', v) :: l' => if String.eqb k k' then Some v else assoc k l'
  end.

(** [d[k] = v] on a dictionary kept in insertion order. *)
Fixpoint assoc_set {V} (k : string) (v : V) (l : list (string * V))
  : list (string * V) :=
  match l with
  | [] => [(k, v)]
  | (k', v') :: l' =>
      if String.eqb k k' then (k, v) :: l' else (k', v') :: assoc_set k v l'
  end.

Definition isfile (e : env) (path : string) : bool :=
  match assoc path (fs e) with Some _ => true | None => false end.

Definition version_gt (a b : Z * Z * Z) : bool :=
  let '(a1, a2, a3) := a in
  let '(b1, b2, b3) := b in
  (b1 <? a1) || ((a1 =? b1) && ((b2 <? a2) || ((a2 =? b2) && (b3 <? a3)))).

(** The operator's properties and the add-on preferences. *)
Record options : Type := {
  files : list string;
  directory : string;
  option_assets : bool;
  option_cont : bool;
  option_rel : bool;
  option_luma : bool;
  option_turb : bool;
  option_scroll : bool;
  option_seq : bool;
  option_lerp : bool;
  prefs_basepath : string;
  prefs_emit_suffix : string
}.

(** [prefs.emit_suffix if prefs.emit_suffix else '_luma'] *)
Definition emit_suffix (o : options) : string :=
  if String.eqb (prefs_emit_suffix o) "" then "_luma" else prefs_emit_suffix o.

(** ** bpy.data

    Datablocks are kept in creation order under the name they were created
    with; an image also carries the identity of the Python object, which
    [bpy.data.images.remove] needs. *)

Inductive image_source : Type :=
| Loaded (path : string)                        (* bpy.data.images.load *)
| Generated (w h : Z) (pixels : list chan).     (* images.new + img.pixels *)

Record image : Type := {
  img_id : nat;
  img_name : string;
  img_source : image_source
}.

(** A material, with its node graph reduced to the images it links: the
    Base Color image, the emission image if any, and - once
    [make_noodles_post] has run on it - the chain of frame images.
    [mat_tags] is [asset_data.tags], absent until [asset_mark]. *)
Record material : Type := {
  mat_name : string;
  mat_image : image;
  mat_emission : option image;
  mat_tags : option (list string);
  mat_frames : option (list image);
  mat_emit_frames : list (option image)
}.

(** A container object ([bpy.data.objects]) and the materials appended to
    its data. *)
Record container : Type := { ob_name : string; ob_materials : list string }.

Record bdata : Type := {
  materials : list material;
  images : list image;
  objects : list container;
  next_id : nat;
  warnings : list string   (* self.report({'WARNING'}, ...) *)
}.

Definition empty_bdata : bdata :=
  {| materials := []; images := []; objects := []; next_id := O;
     warnings := [] |}.

(** The state [execute] works on: [bpy.data], the dictionary [anim_seqs],
    and the local variable [palette], which like every Python local lives
    for the whole call and not for one loop iteration. *)
Record state : Type := {
  bpy : bdata;
  anim_seqs : list (string * list image);
  palette : list chan
}.

Definition with_bpy (s : state) (b : bdata) : state :=
  {| bpy := b; anim_seqs := anim_seqs s; palette := palette s |}.

Definition with_palette (s : state) (p : list chan) : state :=
  {| bpy := bpy s; anim_seqs := anim_seqs s; palette := p |}.

Definition with_anim_seqs (s : state) (a : list (string * list image)) : state :=
  {| bpy := bpy s; anim_seqs := a; palette := palette s |}.

Definition find_material (name : string) (b : bdata) : option material :=
  find (fun m => String.eqb (mat_name m) name) (materials b).

(** [name in bpy.data.materials] *)
Definition material_exists (name : string) (b : bdata) : bool :=
  existsb (fun m => String.eqb (mat_name m) name) (materials b).

Definition report (msg : string) (b : bdata) : bdata :=
  {| materials := materials b; images := images b; objects := objects b;
     next_id := next_id b; warnings := warnings b ++ [msg] |}.

(** [bpy.data.images.load] / [bpy.data.images.new]: a new datablock. *)
Definition add_image (nm : string) (src : image_source) (b : bdata)
  : image * bdata :=
  let img := {| img_id := next_id b; img_name := nm; img_source := src |} in
  (img, {| materials := materials b; images := images b ++ [img];
           objects := objects b; next_id := S (next_id b);
           warnings := warnings b |}).

(** [bpy.data.images.remove(img)] *)
Definition remove_image (img : image) (b : bdata) : bdata :=
  {| materials := materials b;
     images := filter (fun i => negb (Nat.eqb (img_id i) (img_id img))) (images b);
     objects := objects b; next_id := next_id b; warnings := warnings b |}.

(** The datablock [img] after an assignment to one of its attributes. *)
Definition update_image (img : image) (b : bdata) : bdata :=
  {| materials := materials b;
     images := map (fun i => if Nat.eqb (img_id i) (img_id img) then img else i)
                   (images b);
     objects := objects b; next_id := next_id b; warnings := warnings b |}.

Definition rename_image (img : image) (nm : string) : image :=
  {| img_id := img_id img; img_name := nm; img_source := img_source img |}.

Definition set_materials (ms : list material) (b : bdata) : bdata :=
  {| materials := ms; images := images b; objects := objects b;
     next_id := next_id b; warnings := warnings b |}.

Definition set_objects (obs : list container) (b : bdata) : bdata :=
  {| materials := materials b; images := images b; objects := obs;
     next_id := next_id b; warnings := warnings b |}.

(** [cont_name in bpy.data.objects] *)
Definition object_exists (nm : string) (b : bdata) : bool :=
  existsb (fun ob => String.eqb (ob_name ob) nm) (objects b).

(** Lines 136-144: take the container called [cont_name], or create it. *)
Definition add_container (cont_name : string) (b : bdata) : bdata :=
  if object_exists cont_name b then b
  else set_objects (objects b ++ [{| ob_name := cont_name; ob_materials := [] |}]) b.

Fixpoint append_to_first (cont_name mat : string) (obs : list container)
  : list container :=
  match obs with
  | [] => []
  | ob :: obs' =>
      if String.eqb (ob_name ob) cont_name
      then {| ob_name := ob_name ob; ob_materials := ob_materials ob ++ [mat] |}
             :: obs'
      else ob :: append_to_first cont_name mat obs'
  end.

(** [ob.data.materials.append(mat)], [ob] being the container of the file. *)
Definition container_append (cont_name mat : string) (b : bdata) : bdata :=
  set_objects (append_to_first cont_name mat (objects b)) b.

Definition add_tag (tag : string) (m : material) : result material :=
  match mat_tags m with
  | None => Raise AttributeError
  | Some tags =>
      Ok {| mat_name := mat_name m; mat_image := mat_image m;
            mat_emission := mat_emission m; mat_tags := Some (tags ++ [tag]);
            mat_frames := mat_frames m; mat_emit_frames := mat_emit_frames m |}
  end.

Fixpoint tag_first (name tag : string) (ms : list material)
  : result (list material) :=
  match ms with
  | [] => Raise KeyError
  | m :: ms' =>
      if String.eqb (mat_name m) name
      then m' <- add_tag tag m ;; Ok (m' :: ms')
      else ms'' <- tag_first name tag ms' ;; Ok (m :: ms'')
  end.

(** [bpy.data.materials[name].asset_data.tags.new(cont_name)] *)
Definition tag_material (name tag : string) (b : bdata) : result bdata :=
  ms <- tag_first name tag (materials b) ;; Ok (set_materials ms b).

(** ** Decoding one directory entry (lines 148-190) *)

Inductive lump : Type :=
| LooseImage (name : string)
| Indexed (name : string) (size : Z * Z) (pixels : list byte)
| Unrecognized (name : string).

Definition lump_name (l : lump) : string :=
  match l with
  | LooseImage n | Indexed n _ _ | Unrecognized n => n
  end.

Definition byte_of_nat (n : nat) : byte :=
  match Byte.of_nat n with Some b => b | None => Byte.x00 end.

(** [bytearray(range(256))] *)
Definition all_indices : list byte := map byte_of_nat (seq 0 256).

Definition int_at (t : list pyval) (i : Z) : result Z :=
  v <- item t i ;; as_int v.

Definition name_at (t : list pyval) (i : Z) : result string :=
  v <- item t i ;; bs <- as_bytes v ;; c_name bs.

Definition type_D : pyval := VBytes [Byte.x44].   (* b'D' *)
Definition type_B : pyval := VBytes [Byte.x42].   (* b'B' *)
Definition type_at : pyval := VBytes [Byte.x40].  (* b'@' *)

(** Lines 153-165: the name of a loose image. *)
Definition loose_name (o : options) (e : env) (file_name : string) (b : bdata)
  : string * bdata :=
  let '(name, b) :=
    if negb (option_rel o) then (file_name, b)
    else
      let fullpath := (directory o ++ file_name)%string in
      match relpath e fullpath (prefs_basepath o) with
      | Some rp => (replace_char "\" "/" (strip "/\" rp), b)
      | None =>
          (file_name,
           report ("Could not build relative path for " ++ fullpath)%string b)
      end in
  (replace_char "#" "*" (str_slice_to name (rfind name ".")), b).

Definition decode_entry (o : options) (e : env) (file_name : string)
    (loose_texture : bool) (wad : reader) (s : state) (wadentry : list pyval)
  : result (reader * state * lump) :=
  off <- int_at wadentry 0 ;;
  wad <- seek wad off ;;
  type <- item wadentry 3 ;;
  name <- name_at wadentry 6 ;;
  let s := with_palette s pal_float in
  if loose_texture then
    let '(name, b) := loose_name o e file_name (bpy s) in
    Ok (wad, with_bpy s b, LooseImage name)
  else if String.eqb name "CONCHARS" then
    '(pixels, wad) <- read wad (128 * 128) ;;
    Ok (wad, s, Indexed name (128, 128) pixels)
  else if String.eqb name "CONBACK" then
    '(pixels, wad) <- read wad (320 * 200) ;;
    Ok (wad, s, Indexed name (320, 200) pixels)
  else if pyval_eqb type type_D then               (* miptexture *)
    '(raw, wad) <- read wad (Z.of_nat (calcsize fmt_miptex)) ;;
    miptex <- unpack fmt_miptex raw ;;
    name <- name_at miptex 0 ;;
    w <- int_at miptex 1 ;;
    h <- int_at miptex 2 ;;
    mip0 <- int_at miptex 3 ;;
    wad <- seek wad (off + mip0) ;;
    '(pixels, wad) <- read wad (w * h) ;;
    Ok (wad, s, Indexed name (w, h) pixels)
  else if pyval_eqb type type_B then               (* statusbar *)
    '(raw, wad) <- read wad 8 ;;
    size <- unpack fmt_2l raw ;;
    w <- int_at size 0 ;;
    h <- int_at size 1 ;;
    '(pixels, wad) <- read wad (w * h) ;;
    Ok (wad, s, Indexed name (w, h) pixels)
  else if pyval_eqb type type_at then              (* palette *)
    '(raw, wad) <- read wad 768 ;;
    newpal <- unpack fmt_768B raw ;;
    rgbs <- as_ints newpal ;;
    Ok (wad, with_palette s (map Div255 rgbs), Indexed name (16, 16) all_indices)
  else
    Ok (wad, with_bpy s (report ("Unrecognized lump " ++ name)%string (bpy s)),
        Unrecognized name).

(** ** Duplicates, sequence frames, glow images (lines 193-217) *)

(** [name[0] == '+' and name[1] not in '0a'] *)
Definition is_frame_name (name : string) : result bool :=
  c0 <- char_at name 0 ;;
  if Ascii.eqb c0 "+" then
    c1 <- char_at name 1 ;; Ok (negb (char_in c1 "0a"))
  else Ok false.

(** Lines 203-204. *)
Definition seq_name_of (name : string) : result string :=
  c1 <- char_at name 1 ;;
  let seq_name := if char_in c1 "0123456789" then "+0" else "+a" in
  Ok (seq_name ++ str_slice_from name 2)%string.

(** Lines 205-210: is a frame of this name in the sequence already? *)
Definition already_stashed (name seq_name : string) (s : state) : bool :=
  match assoc seq_name (anim_seqs s) with
  | Some frames =>
      existsb (fun existing => String.eqb (img_name existing) name) frames
  | None => false
  end.

(** [bpy.data.images.remove(img24)], which line 213 guards by
    [loose_texture]. *)
Definition remove_loaded (img24 : option image) (b : bdata) : bdata :=
  match img24 with
  | Some img => remove_image img b
  | None => b
  end.

Definition is_some {A} (x : option A) : bool :=
  match x with Some _ => true | None => false end.

(** What the checks of lines 195-217 decide for a lump. *)
Inductive verdict : Type :=
| Skip (s : state)     (* [continue] *)
| Build (s : state).

Definition screen_entry (o : options) (cont_name : string)
    (img24 : option image) (s : state) (name : string) : result verdict :=
  if material_exists name (bpy s) then
    let b := if option_cont o then container_append cont_name name (bpy s)
             else bpy s in
    b <- tag_material name cont_name b ;;
    Ok (Skip (with_bpy s b))
  else
    frame <- is_frame_name name ;;
    stashed <-
      (if frame then
         if negb (option_seq o) then Ok (Some s)
         else
           seq_name <- seq_name_of name ;;
           if already_stashed name seq_name s
           then Ok (Some (with_bpy s (remove_loaded img24 (bpy s))))
           else Ok None
       else Ok None) ;;
    match stashed with
    | Some s' => Ok (Skip s')
    | None =>
        if is_some img24 && endswith name (emit_suffix o)
        then Ok (Skip (with_bpy s (remove_loaded img24 (bpy s))))
        else Ok (Build s)
    end.

(** ** Building the images (lines 219-264) *)

(** [bpy.data.images.load(path)]: the datablock is named after the file. *)
Definition load_image (file_name path : string) (b : bdata) : image * bdata :=
  add_image file_name (Loaded path) b.

Definition depth_of (e : env) (path : string) : Z :=
  match assoc path (fs e) with Some f => f_depth f | None => 0 end.

(** The images of one lump: [img], and [emit] when [pix_emit] is true. *)
Definition build_images (o : options) (e : env) (file_name : string)
    (img24 : option image) (s : state) (l : lump) (name : string)
  : result (state * image * option image) :=
  let ename := (name ++ emit_suffix o)%string in
  match img24, l with
  | Some img24, _ =>
      let img := rename_image img24 name in
      let b := update_image img (bpy s) in
      let dot := rfind file_name "." in
      let luma_file := (str_slice_to file_name dot ++ emit_suffix o
                          ++ str_slice_from file_name dot)%string in
      let luma_path := (directory o ++ luma_file)%string in
      if isfile e luma_path then
        let '(emit, b) := load_image luma_file luma_path b in
        if depth_of e luma_path =? 0
        then Ok (with_bpy s (remove_image emit b), img, None)
        else
          let emit := rename_image emit ename in
          Ok (with_bpy s (update_image emit b), img, Some emit)
      else Ok (with_bpy s b, img, None)
  | None, Indexed _ size pixels =>
      bufs <- convert (option_luma o) name (palette s) size pixels ;;
      let '(img, b) :=
        add_image name (Generated (fst size) (snd size) (pix_rgba bufs))
                  (bpy s) in
      if truthy (pix_emit bufs) then
        let '(emit, b) :=
          add_image ename (Generated (fst size) (snd size) (pix_emit bufs)) b in
        Ok (with_bpy s b, img, Some emit)
      else Ok (with_bpy s b, img, None)
  | None, _ => Raise TypeError
  end.

(** ** Stashing frames, creating materials (lines 266-367) *)

(** [anim_seqs[key].append(img)] *)
Definition anim_append (key : string) (img : image)
    (a : list (string * list image)) : result (list (string * list image)) :=
  match assoc key a with
  | Some frames => Ok (assoc_set key (frames ++ [img]) a)
  | None => Raise KeyError
  end.

(** Lines 268-275. *)
Definition stash_frame (o : options) (seq_name : string) (img : image)
    (emit : option image) (s : state) : result state :=
  let ekey := (seq_name ++ emit_suffix o)%string in
  match assoc seq_name (anim_seqs s) with
  | Some _ =>
      a <- anim_append seq_name img (anim_seqs s) ;;
      a <- match emit with
           | Some em => anim_append ekey em a
           | None => Ok a
           end ;;
      Ok (with_anim_seqs s a)
  | None =>
      let a := assoc_set seq_name [img] (anim_seqs s) in
      let a := match emit with
               | Some em => assoc_set ekey [em] a
               | None => a
               end in
      Ok (with_anim_seqs s a)
  end.

(** Lines 279-367: [bpy.data.materials.new(name)], the links to [img] and
    [emit], and the asset mark with the container tag. *)
Definition new_material (o : options) (e : env) (cont_name name : string)
    (img : image) (emit : option image) (b : bdata) : bdata :=
  let tags :=
    if option_assets o && version_gt (app_version e) (3, 0, 0)
    then Some [cont_name] else None in
  let mat := {| mat_name := name; mat_image := img; mat_emission := emit;
                mat_tags := tags; mat_frames := None;
                mat_emit_frames := [] |} in
  let b := set_materials (materials b ++ [mat]) b in
  if option_cont o then container_append cont_name name b else b.

(** The body of [for wadentry in wadentries]. *)
Definition process_entry (o : options) (e : env) (file_name cont_name : string)
    (img24 : option image) (ws : reader * state) (wadentry : list pyval)
  : result (reader * state) :=
  let '(wad, s) := ws in
  '(wad, s, l) <- decode_entry o e file_name (is_some img24) wad s wadentry ;;
  match l with
  | Unrecognized _ => Ok (wad, s)
  | _ =>
      let name := lower (lump_name l) in
      v <- screen_entry o cont_name img24 s name ;;
      match v with
      | Skip s => Ok (wad, s)
      | Build s =>
          '(s, img, emit) <- build_images o e file_name img24 s l name ;;
          frame <- is_frame_name name ;;
          if frame then
            seq_name <- seq_name_of name ;;
            s <- stash_frame o seq_name img emit s ;;
            Ok (wad, s)
          else
            Ok (wad, with_bpy s (new_material o e cont_name name img emit (bpy s)))
      end
  end.

(** ** One file (lines 96-146) *)

Definition sig_WAD2 : list byte := [Byte.x57; Byte.x41; Byte.x44; Byte.x32].
Definition sig_BSP2 : list byte := [Byte.x42; Byte.x53; Byte.x50; Byte.x32].
(** [struct.pack('<L', 29)] *)
Definition sig_29 : list byte := [Byte.x1d; Byte.x00; Byte.x00; Byte.x00].

Definition bytes_eqb (a b : list byte) : bool :=
  if list_eq_dec Byte.byte_eq_dec a b then true else false.

(** [for i in range(numentries): wadentries.append(struct.unpack(fmt, wad.read(fmtsize)))] *)
Fixpoint read_direntries (n : nat) (wad : reader)
  : result (list (list pyval) * reader) :=
  match n with
  | O => Ok ([], wad)
  | S n' =>
      '(raw, wad) <- read wad (Z.of_nat (calcsize fmt_direntry)) ;;
      entry <- unpack fmt_direntry raw ;;
      '(rest, wad) <- read_direntries n' wad ;;
      Ok (entry :: rest, wad)
  end.

(** The BSP texture directory: one entry per offset. *)
Fixpoint read_bsp_offsets (n : nat) (diroffset : Z) (wad : reader)
  : result (list (list pyval) * reader) :=
  match n with
  | O => Ok ([], wad)
  | S n' =>
      '(raw, wad) <- read wad 4 ;;
      t <- unpack fmt_l raw ;;
      rel <- int_at t 0 ;;
      let offset := rel + diroffset in
      '(rest, wad) <- read_bsp_offsets n' diroffset wad ;;
      Ok ([VInt offset; VInt 0; VInt 0; type_D; VInt 0; VInt 0; VBytes []]
            :: rest, wad)
  end.

(** What lines 102-127 find in a file. *)
Inductive container_kind : Type :=
| Archive (wadentries : list (list pyval))
| LooseTexture (img24 : image) (wadentries : list (list pyval))
| Skipped.

Definition read_directory (o : options) (e : env) (file_name : string)
    (f : file) (wad : reader) (s : state)
  : result (reader * state * container_kind) :=
  '(sig, wad) <- read wad 4 ;;
  if bytes_eqb sig sig_WAD2 then
    '(raw, wad) <- read wad (2 * 4) ;;
    hdr <- unpack fmt_2l raw ;;
    numentries <- int_at hdr 0 ;;
    diroffset <- int_at hdr 1 ;;
    wad <- seek wad diroffset ;;
    '(wadentries, wad) <- read_direntries (Z.to_nat numentries) wad ;;
    Ok (wad, s, Archive wadentries)
  else if bytes_eqb sig sig_BSP2 || bytes_eqb sig sig_29 then
    '(raw, wad) <- read wad (30 * 4) ;;
    header <- unpack fmt_30l raw ;;
    diroffset <- int_at header 4 ;;
    wad <- seek wad diroffset ;;
    '(raw, wad) <- read wad 4 ;;
    t <- unpack fmt_l raw ;;
    numentries <- int_at t 0 ;;
    '(wadentries, wad) <- read_bsp_offsets (Z.to_nat numentries) diroffset wad ;;
    Ok (wad, s, Archive wadentries)
  else
    let path := (directory o ++ file_name)%string in
    let '(img24, b) := load_image file_name path (bpy s) in
    if f_depth f =? 0 then
      let b := report ("Skipped " ++ file_name)%string b in
      Ok (wad, with_bpy s (remove_image img24 b), Skipped)
    else
      Ok (wad, with_bpy s b,
          LooseTexture img24
            [[VInt 0; VInt 0; VInt 0; VInt 0; VInt 0; VInt 0; VBytes []]]).

(** The body of [for file in self.files]. *)
Definition process_file (o : options) (e : env) (s : state)
    (file_name : string) : result state :=
  match assoc (directory o ++ file_name)%string (fs e) with
  | None => Raise OSError
  | Some f =>
      '(wad, s, kind) <-
        read_directory o e file_name f (open_bytes (f_bytes f)) s ;;
      match kind with
      | Skipped => Ok s
      | _ =>
          let '(img24, wadentries) :=
            match kind with
            | LooseTexture img wadentries => (Some img, wadentries)
            | Archive wadentries => (None, wadentries)
            | Skipped => (None, [])
            end in
          cont_name <-
            (if is_some img24 then item_neg (split (directory o) "\") 2
             else Ok file_name) ;;
          let s := if option_cont o
                   then with_bpy s (add_container cont_name (bpy s)) else s in
          '(_, s) <- foldM (process_entry o e file_name cont_name img24)
                           wadentries (wad, s) ;;
          Ok s
      end
  end.

(** ** Assembling the sequences (make_noodles_post, lines 392-478) *)

(** [sorted(frames, key=lambda frame: frame.name)]: Python's sort is stable
    and compares strings by code point. *)
Fixpoint insert_by_name (x : image) (l : list image) : list image :=
  match l with
  | [] => [x]
  | y :: l' =>
      if String.leb (img_name x) (img_name y) then x :: l
      else y :: insert_by_name x l'
  end.

Definition sorted_by_name (l : list image) : list image :=
  fold_right insert_by_name [] l.

(** The frame chain of one sequence: the images linked to the new mix nodes
    in the order of [enumerate(sorted(...))], and for each the emission image
    linked beside it ([None] where the node gets the default black). *)
Definition chain_frames (o : options) (a : list (string * list image))
    (seq_name : string) (frames : list image) (m : material) : material :=
  let ename := (seq_name ++ emit_suffix o)%string in
  let has_emit_frames := is_some (mat_emission m) || is_some (assoc ename a) in
  let chain := sorted_by_name frames in
  let emit_of (img : image) : option image :=
    match assoc ename a with
    | None => None
    | Some emits =>
        find (fun emit =>
                String.eqb (img_name emit) (img_name img ++ emit_suffix o)%string)
             emits
    end in
  {| mat_name := mat_name m; mat_image := mat_image m;
     mat_emission := mat_emission m; mat_tags := mat_tags m;
     mat_frames := Some chain;
     mat_emit_frames := if has_emit_frames then map emit_of chain else [] |}.

(** The material called [seq_name] gets its chain, unless a previous import
    has set it up already ([frm0.type == 'MIX_RGB']). *)
Fixpoint chain_first (o : options) (a : list (string * list image))
    (seq_name : string) (frames : list image) (ms : list material)
  : list material :=
  match ms with
  | [] => []
  | m :: ms' =>
      if String.eqb (mat_name m) seq_name then
        match mat_frames m with
        | Some _ => m :: ms'
        | None => chain_frames o a seq_name frames m :: ms'
        end
      else m :: chain_first o a seq_name frames ms'
  end.

Definition make_noodles_post (o : options) (a : list (string * list image))
    (b : bdata) : bdata :=
  fold_left
    (fun b kv => set_materials (chain_first o a (fst kv) (snd kv) (materials b)) b)
    a b.

(** ** execute *)

Definition initial_state (b : bdata) : state :=
  {| bpy := b; anim_seqs := []; palette := [] |}.

Definition import_files (o : options) (e : env) (s : state) : result state :=
  foldM (process_file o e) (files o) s.

Definition execute (o : options) (e : env) (b : bdata) : result bdata :=
  s <- import_files o e (initial_state b) ;;
  if option_seq o then Ok (make_noodles_post o (anim_seqs s) (bpy s))
  else Ok (bpy s).

(** ** Well-formed archives, for the examples *)

Module Build.

Definition byte_of_Z (z : Z) : byte := byte_of_nat (Z.to_nat (z mod 256)).

  (** [struct.pack('<l', z)] / [struct.pack('<L', z)] *)
Definition le32 (z : Z) : list byte :=
    let u := z mod 2 ^ 32 in
    [byte_of_Z u; byte_of_Z (u / 256); byte_of_Z (u / 65536);
     byte_of_Z (u / 16777216)].

  (** A name in its 16-byte field, NUL padded. *)
Definition name16 (s : string) : list byte :=
    firstn 16 (list_byte_of_string s ++ repeat Byte.x00 16).

  (** A miptexture lump: header, then the full-size indices. *)
Definition miptex (name : string) (w h : Z) (pixels : list byte) : list byte :=
    name16 name ++ le32 w ++ le32 h ++ le32 40 ++ le32 0 ++ le32 0 ++ le32 0
      ++ pixels.

  (** A status-bar picture lump. *)
Definition statusbar (w h : Z) (pixels : list byte) : list byte :=
    le32 w ++ le32 h ++ pixels.

Definition direntry (offset size : Z) (type : byte) (name : string)
    : list byte :=
    le32 offset ++ le32 size ++ le32 size ++ [type; Byte.x00; Byte.x00; Byte.x00]
      ++ name16 name.

Fixpoint directory_of (offset : Z) (lumps : list (byte * string * list byte))
    : list byte :=
    match lumps with
    | [] => []
    | (type, name, payload) :: rest =>
        direntry offset (len payload) type name
          ++ directory_of (offset + len payload) rest
    end.

  (** A WAD2 file: header, the lumps one after the other, the directory. *)
Definition wad2 (lumps : list (byte * string * list byte)) : list byte :=
    let payloads := List.concat (map snd lumps) in
    sig_WAD2 ++ le32 (len lumps) ++ le32 (12 + len payloads)
      ++ payloads ++ directory_of 12 lumps.

Definition tex (name : string) (w h : Z) (pixels : list byte)
    : byte * string * list byte :=
    (Byte.x44, name, miptex name w h pixels).

Definition on_disk (bytes : list byte) : file :=
    {| f_bytes := bytes; f_depth := 0 |}.

Definition picture (depth : Z) : file :=
    {| f_bytes := [Byte.x89; Byte.x50; Byte.x4e; Byte.x47]; f_depth := depth |}.

  (** The operator as the file browser leaves it: every option at its
      default. *)
Definition defaults (dir : string) (fls : list string) : options :=
    {| files := fls; directory := dir;
       option_assets := true; option_cont := true; option_rel := false;
       option_luma := false; option_turb := true; option_scroll := true;
       option_seq := true; option_lerp := false;
       prefs_basepath := ""; prefs_emit_suffix := "_luma" |}.

Definition disk (files : list (string * file)) : env :=
    {| fs := files; relpath := fun _ _ => None; app_version := (4, 0, 0) |}.

End Build.
Import Build.

(** * Properties *)

(** ** The pixel classifier *)

(** The classification in the words of the specification, per index value
    [v] of a texture called [name]. *)

Definition is_transparent_index (name : string) (v : Z) : bool :=
  (v =? 255) && startswith name "{".

Definition is_fullbright (name : string) (v : Z) : bool :=
  (224 <=? v) && negb (startswith name "sky" || startswith name "*").

(** Fullbright and not transparent: the pixel goes to the emission buffer. *)
Definition glows (name : string) (v : Z) : bool :=
  is_fullbright name v && negb (is_transparent_index name v).

Definition palette_color (palette : list chan) (v : Z) : list chan :=
  slice palette (v * 3) (v * 3 + 3).

(** The quadruple the colour buffer is expected to hold for index [v]. *)
Definition rgba_quad (luma : bool) (name : string) (palette : list chan) (v : Z)
  : list chan :=
  if glows name v then
    if luma then black else palette_color palette v ++ [PyBool true]
  else palette_color palette v ++ [PyBool (negb (is_transparent_index name v))].

(** The quadruple an emission buffer is expected to hold for index [v]. *)
Definition emit_quad (name : string) (palette : list chan) (v : Z) : list chan :=
  if glows name v then palette_color palette v ++ [PyBool true] else black.

(** The index stored at offset [i] of the lump's pixel bytes. *)
Definition px_at (pixels : list byte) (i : Z) : Z :=
  byte_val (nth (Z.to_nat i) pixels Byte.x00).

(** The indices in the order the loops visit them: output row [i] is source
    row [h - 1 - i]. *)
Definition visited_row (w : Z) (pixels : list byte) (row : Z) : list Z :=
  map (fun clm => px_at pixels (row * w + clm)) (range w).

Definition visited (w h : Z) (pixels : list byte) : list Z :=
  flat_map (fun i => visited_row w pixels (h - 1 - i)) (range h).

(** The quadruple number [p] of a buffer. *)
Definition quad_at (buf : list chan) (p : Z) : list chan :=
  slice buf (4 * p) (4 * p + 4).

Lemma byte_val_range (b : byte) : 0 <= byte_val b < 256.
Proof.
  unfold byte_val. pose proof (Byte.to_N_bounded b) as Hb.
  split; [apply N2Z.is_nonneg | lia].
Qed.

Lemma item_px_at (pixels : list byte) (i : Z) (px : byte) :
  item pixels i = Ok px -> px_at pixels i = byte_val px.
Proof.
  unfold item, px_at. destruct (i <? 0); [discriminate |].
  destruct (nth_error pixels (Z.to_nat i)) eqn:E; [| discriminate].
  intros H. injection H as ->.
  now rewrite (nth_error_nth _ _ _ E).
Qed.

Lemma startswith_first (name : string) (c d : ascii) :
  char_at name 0 = Ok c ->
  startswith name (String d EmptyString) = Ascii.eqb c d.
Proof.
  unfold char_at, item, startswith. destruct name as [| a rest]; simpl.
  - discriminate.
  - intros H. injection H as ->.
    destruct (ascii_dec d c) as [-> | Hne].
    + rewrite Ascii.eqb_refl. now destruct rest.
    + symmetry. apply Ascii.eqb_neq. congruence.
Qed.

Lemma pixel_alpha_spec (name : string) (v : Z) (alpha : bool) :
  pixel_alpha name v = Ok alpha -> alpha = negb (is_transparent_index name v).
Proof.
  unfold pixel_alpha, is_transparent_index.
  destruct (v =? 255); simpl.
  - destruct (char_at name 0) as [c |] eqn:E; simpl; [| discriminate].
    intros H. injection H as <-.
    now rewrite (startswith_first name c "{" E).
  - intros H. now injection H as <-.
Qed.

Lemma pixel_notfb_spec (name : string) (v : Z) :
  pixel_notfb name v = negb (is_fullbright name v).
Proof.
  unfold pixel_notfb, is_fullbright.
  rewrite negb_andb, negb_involutive. f_equal.
  destruct (Z.ltb_spec v 224), (Z.leb_spec 224 v); simpl; auto; lia.
Qed.

Lemma palette_color_length (palette : list chan) (v : Z) :
  List.length palette = 768%nat -> 0 <= v < 256 ->
  List.length (palette_color palette v) = 3%nat.
Proof.
  intros Hp Hv. unfold palette_color, slice.
  rewrite length_firstn, length_skipn, Hp. lia.
Qed.

Lemma rgba_quad_length luma name palette v :
  List.length palette = 768%nat -> 0 <= v < 256 ->
  List.length (rgba_quad luma name palette v) = 4%nat.
Proof.
  intros Hp Hv. unfold rgba_quad.
  destruct (glows name v); [destruct luma |]; try reflexivity;
    rewrite length_app, palette_color_length by assumption; reflexivity.
Qed.

Lemma emit_quad_length name palette v :
  List.length palette = 768%nat -> 0 <= v < 256 ->
  List.length (emit_quad name palette v) = 4%nat.
Proof.
  intros Hp Hv. unfold emit_quad.
  destruct (glows name v); try reflexivity.
  rewrite length_app, palette_color_length by assumption; reflexivity.
Qed.

Lemma truthy_nonempty {A} (l : list A) : truthy l = true <-> l <> [].
Proof. destruct l; simpl; split; congruence. Qed.

Lemma truthy_app_r {A} (l q : list A) : q <> [] -> truthy (l ++ q) = true.
Proof. intros Hq. apply truthy_nonempty. destruct l, q; simpl; congruence. Qed.

(** Before the first glowing pixel the expected emission is all filler. *)
Lemma emit_quad_filler name palette (vs : list Z) :
  forallb (fun v => negb (glows name v)) vs = true ->
  flat_map (emit_quad name palette) vs = repeat_list black (List.length vs).
Proof.
  induction vs as [| v vs IH]; simpl; [reflexivity |].
  intros H. apply andb_prop in H as [Hv Hvs].
  unfold emit_quad at 1. apply negb_true_iff in Hv. rewrite Hv.
  now rewrite IH.
Qed.

Section ConvertInvariant.
Variable luma : bool.
Variable name : string.
Variable palette : list chan.
Variables w h : Z.
Variable pixels : list byte.

  (** The buffers after the indices [vs] have been visited: the colour
      buffer holds their quadruples; the emission buffer is still empty if
      none of them glows, and holds one quadruple each otherwise. *)
Definition buffers_of (vs : list Z) (bufs : pixbufs) : Prop :=
    pix_rgba bufs = flat_map (rgba_quad luma name palette) vs /\
    ((pix_emit bufs = [] /\
      forallb (fun v => negb (glows name v)) vs = true) \/
     (pix_emit bufs <> [] /\
      pix_emit bufs = flat_map (emit_quad name palette) vs /\
      existsb (glows name) vs = true)).

Lemma buffers_of_nil : buffers_of [] {| pix_rgba := []; pix_emit := [] |}.
  Proof. split; [reflexivity | left; split; reflexivity]. Qed.

Lemma convert_pixel_inv (vs : list Z) (bufs bufs' : pixbufs) (row clm : Z) :
    buffers_of vs bufs ->
    len vs = (h - row - 1) * w + clm ->
    convert_pixel luma name palette (w, h) pixels row bufs clm = Ok bufs' ->
    buffers_of (vs ++ [px_at pixels (row * w + clm)]) bufs'.
  Proof.
    intros [Hrgba Hemit] Hlen. unfold convert_pixel. simpl fst; simpl snd.
    destruct (item pixels (row * w + clm)) as [px |] eqn:Hpx; simpl;
      [| discriminate].
    rewrite (item_px_at _ _ _ Hpx).
    set (v := byte_val px).
    destruct (pixel_alpha name v) as [alpha |] eqn:Halpha; simpl;
      [| discriminate].
    apply pixel_alpha_spec in Halpha.
    rewrite pixel_notfb_spec.
    assert (Hg : negb (is_fullbright name v) || negb alpha = negb (glows name v)).
    { unfold glows. rewrite Halpha, negb_andb. reflexivity. }
    rewrite Hg. fold (palette_color palette v).
    unfold buffers_of. rewrite !flat_map_app. simpl flat_map. rewrite !app_nil_r.
    destruct (glows name v) eqn:Hglow; simpl negb; cbv iota.
    - (* a glowing pixel *)
      assert (Ha : alpha = true).
      { rewrite Halpha. unfold glows in Hglow.
        apply andb_prop in Hglow as [_ Ht]. exact Ht. }
      clear Halpha Hg. subst alpha. intros H. injection H as <-. simpl pix_rgba; simpl pix_emit.
      split.
      + unfold rgba_quad at 2. rewrite Hglow, Hrgba. now destruct luma.
      + right. unfold emit_quad at 2. rewrite Hglow. split; [| split].
        * destruct (palette_color palette v);
            destruct (if negb (truthy (pix_emit bufs)) then _ else _);
            discriminate.
        * destruct Hemit as [[He Hnone] | [He [Heq _]]].
          -- rewrite He. simpl truthy. simpl negb. cbv iota.
             rewrite (emit_quad_filler _ _ _ Hnone).
             do 2 f_equal. unfold len in Hlen. lia.
          -- apply truthy_nonempty in He. rewrite He. simpl negb. cbv iota.
             now rewrite <- Heq.
        * rewrite existsb_app. simpl. rewrite Hglow.
          now rewrite orb_true_r.
    - (* an ordinary or a transparent pixel *)
      intros H. injection H as <-. simpl pix_rgba; simpl pix_emit.
      split.
      + unfold rgba_quad at 2. rewrite Hglow, Hrgba, Halpha. reflexivity.
      + unfold emit_quad at 2. rewrite Hglow.
        destruct Hemit as [[He Hnone] | [He [Heq Hex]]].
        * left. rewrite He. simpl. split; [reflexivity |].
          rewrite forallb_app, Hnone. simpl. now rewrite Hglow.
        * right. apply truthy_nonempty in He as Ht. rewrite Ht.
          split; [| split].
          -- destruct (pix_emit bufs); [congruence | discriminate].
          -- now rewrite <- Heq.
          -- rewrite existsb_app, Hex. reflexivity.
  Qed.

  (** The inner loop, from column [c0] on. *)
Lemma convert_columns_inv (row : Z) (n c0 : nat) :
    forall (vs : list Z) (bufs bufs' : pixbufs),
      buffers_of vs bufs ->
      len vs = (h - row - 1) * w + Z.of_nat c0 ->
      foldM (convert_pixel luma name palette (w, h) pixels row)
            (map Z.of_nat (seq c0 n)) bufs = Ok bufs' ->
      buffers_of
        (vs ++ map (fun clm => px_at pixels (row * w + clm))
                   (map Z.of_nat (seq c0 n)))
        bufs'.
  Proof.
    revert c0. induction n as [| n IH]; intros c0 vs bufs bufs' Hinv Hlen; simpl.
    - intros H. injection H as <-. now rewrite app_nil_r.
    - destruct (convert_pixel luma name palette (w, h) pixels row bufs
                              (Z.of_nat c0)) as [bufs1 |] eqn:Hstep; simpl;
        [| discriminate].
      intros Hrest.
      pose proof (convert_pixel_inv _ _ _ _ _ Hinv Hlen Hstep) as Hinv1.
      assert (Hlen1 : len (vs ++ [px_at pixels (row * w + Z.of_nat c0)])
                      = (h - row - 1) * w + Z.of_nat (S c0)).
      { unfold len in *. rewrite length_app. simpl. lia. }
      pose proof (IH (S c0) _ _ _ Hinv1 Hlen1 Hrest) as Hdone.
      now rewrite <- app_assoc in Hdone.
  Qed.

Lemma visited_row_length (row : Z) :
    0 <= w -> len (visited_row w pixels row) = w.
  Proof.
    intros Hw. unfold len, visited_row, range.
    rewrite !length_map, length_seq. lia.
  Qed.

  (** The outer loop, from output row [k0] on. *)
Lemma convert_rows_inv (n k0 : nat) :
    0 <= w ->
    forall (vs : list Z) (bufs bufs' : pixbufs),
      buffers_of vs bufs ->
      len vs = Z.of_nat k0 * w ->
      foldM (convert_row luma name palette (w, h) pixels)
            (map (fun i => h - 1 - i) (map Z.of_nat (seq k0 n))) bufs
        = Ok bufs' ->
      buffers_of
        (vs ++ flat_map (fun i => visited_row w pixels (h - 1 - i))
                        (map Z.of_nat (seq k0 n)))
        bufs'.
  Proof.
    intros Hw. revert k0.
    induction n as [| n IH]; intros k0 vs bufs bufs' Hinv Hlen; simpl.
    - intros H. injection H as <-. now rewrite app_nil_r.
    - destruct (convert_row luma name palette (w, h) pixels bufs
                            (h - 1 - Z.of_nat k0)) as [bufs1 |] eqn:Hrow;
        simpl; [| discriminate].
      intros Hrest. unfold convert_row in Hrow. simpl fst in Hrow.
      unfold range in Hrow.
      apply (convert_columns_inv _ _ _ _ _ _ Hinv) in Hrow; [| lia].
      fold (range w) in Hrow. fold (visited_row w pixels (h - 1 - Z.of_nat k0)) in Hrow.
      assert (Hlen1 : len (vs ++ visited_row w pixels (h - 1 - Z.of_nat k0))
                      = Z.of_nat (S k0) * w).
      { pose proof (visited_row_length (h - 1 - Z.of_nat k0) Hw) as Hr.
        unfold len in *. rewrite length_app. lia. }
      pose proof (IH (S k0) _ _ _ Hrow Hlen1 Hrest) as Hdone.
      now rewrite <- app_assoc in Hdone.
  Qed.
End ConvertInvariant.

Lemma rev_seq_Z (k : nat) :
  rev (map Z.of_nat (seq 0 k))
  = map (fun i => Z.of_nat k - 1 - i) (map Z.of_nat (seq 0 k)).
Proof.
  induction k as [| k IH]; [reflexivity |].
  rewrite seq_S at 1. rewrite map_app, rev_app_distr. simpl rev. simpl app.
  rewrite IH. rewrite <- (cons_seq k 0).
  rewrite <- seq_shift, !map_map. cbn [map]. f_equal; [lia |].
  rewrite map_map. apply map_ext. intros a. lia.
Qed.

(** [reversed(range(n))] counts down from [n - 1]. *)
Lemma rev_range (n : Z) : rev (range n) = map (fun i => n - 1 - i) (range n).
Proof.
  unfold range. destruct (Z.leb_spec n 0) as [Hn | Hn].
  - replace (Z.to_nat n) with O by lia. reflexivity.
  - rewrite rev_seq_Z. rewrite Z2Nat.id by lia. reflexivity.
Qed.

(** The two loops together: what [convert] returns, when it returns. *)
Lemma convert_buffers luma name palette w h pixels bufs :
  0 <= w ->
  convert luma name palette (w, h) pixels = Ok bufs ->
  buffers_of luma name palette (visited w h pixels) bufs.
Proof.
  intros Hw. unfold convert. simpl snd. rewrite rev_range. unfold range at 1.
  intros H.
  apply (convert_rows_inv luma name palette w h pixels _ 0 Hw [] _ _
           (buffers_of_nil luma name palette)) in H; [| reflexivity].
  exact H.
Qed.

(** ** Buffers as rows of equal-sized pieces *)

Section Chunks.
Context {A B : Type}.
Variable f : A -> list B.
Variable n : nat.

Lemma flat_map_length_const (l : list A) :
    (forall x, In x l -> List.length (f x) = n) ->
    List.length (flat_map f l) = (List.length l * n)%nat.
  Proof.
    induction l as [| x l IH]; intros Hn; simpl; [reflexivity |].
    rewrite length_app, (Hn x (or_introl eq_refl)), IH; [lia |].
    intros y Hy. apply Hn. now right.
  Qed.

  (** Piece number [i] of the concatenation is the image of element [i]. *)
Lemma flat_map_piece (l : list A) :
    (forall x, In x l -> List.length (f x) = n) ->
    forall (i : nat) (x : A),
      nth_error l i = Some x ->
      firstn n (skipn (i * n) (flat_map f l)) = f x.
  Proof.
    induction l as [| y l IH]; intros Hn i x Hi.
    - destruct i; discriminate.
    - simpl flat_map. pose proof (Hn y (or_introl eq_refl)) as Hy.
      destruct i as [| i]; simpl in Hi.
      + injection Hi as <-. simpl skipn.
        rewrite firstn_app, Hy, Nat.sub_diag, firstn_O, app_nil_r.
        rewrite <- Hy. apply firstn_all.
      + rewrite skipn_app, Hy.
        rewrite (skipn_all2 (f y)) by (rewrite Hy; simpl; lia).
        replace (S i * n - n)%nat with (i * n)%nat by (simpl; lia).
        simpl app. apply IH; [| exact Hi].
        intros z Hz. apply Hn. now right.
  Qed.

  (** Element [j] of piece [i]. *)
Lemma flat_map_nth_error (l : list A) :
    (forall x, In x l -> List.length (f x) = n) ->
    forall (i j : nat) (x : A),
      nth_error l i = Some x -> (j < n)%nat ->
      nth_error (flat_map f l) (i * n + j) = nth_error (f x) j.
  Proof.
    induction l as [| y l IH]; intros Hn i j x Hi Hj.
    - destruct i; discriminate.
    - simpl flat_map. pose proof (Hn y (or_introl eq_refl)) as Hy.
      destruct i as [| i]; simpl in Hi.
      + injection Hi as <-. simpl. apply nth_error_app1. lia.
      + rewrite nth_error_app2 by (rewrite Hy; simpl; lia).
        rewrite Hy. replace (S i * n + j - n)%nat with (i * n + j)%nat
          by (simpl; lia).
        apply IH; [| exact Hi | exact Hj].
        intros z Hz. apply Hn. now right.
  Qed.
End Chunks.

Lemma nth_error_range (n : Z) (i : nat) :
  (i < Z.to_nat n)%nat -> nth_error (range n) i = Some (Z.of_nat i).
Proof.
  intros Hi. unfold range.
  rewrite nth_error_map, nth_error_seq.
  apply Nat.ltb_lt in Hi. rewrite Hi. reflexivity.
Qed.

Lemma visited_row_length_nat (w : Z) (pixels : list byte) (row : Z) :
  List.length (visited_row w pixels row) = Z.to_nat w.
Proof. unfold visited_row, range. now rewrite !length_map, length_seq. Qed.

Lemma visited_length (w h : Z) (pixels : list byte) :
  List.length (visited w h pixels) = (Z.to_nat h * Z.to_nat w)%nat.
Proof.
  unfold visited.
  rewrite (flat_map_length_const _ (Z.to_nat w)).
  - unfold range. now rewrite length_map, length_seq.
  - intros x _. apply visited_row_length_nat.
Qed.

Lemma visited_bytes (w h : Z) (pixels : list byte) (v : Z) :
  In v (visited w h pixels) -> 0 <= v < 256.
Proof.
  unfold visited, visited_row. intros H.
  apply in_flat_map in H as [i [_ H]].
  apply in_map_iff in H as [c [<- _]].
  apply byte_val_range.
Qed.

(** The index visited at output row [i], column [c] is the one stored at
    source row [h - 1 - i], column [c]. *)
Lemma visited_at (w h : Z) (pixels : list byte) (i c : Z) :
  0 <= i < h -> 0 <= c < w ->
  nth_error (visited w h pixels) (Z.to_nat (i * w + c))
  = Some (px_at pixels ((h - 1 - i) * w + c)).
Proof.
  intros Hi Hc. unfold visited.
  replace (Z.to_nat (i * w + c))
    with (Z.to_nat i * Z.to_nat w + Z.to_nat c)%nat by nia.
  rewrite (flat_map_nth_error _ (Z.to_nat w) _
             (fun x _ => visited_row_length_nat w pixels _)
             (Z.to_nat i) (Z.to_nat c) (Z.of_nat (Z.to_nat i))).
  - unfold visited_row. rewrite nth_error_map, nth_error_range by lia.
    simpl. rewrite !Z2Nat.id by lia. reflexivity.
  - apply nth_error_range. lia.
  - lia.
Qed.

Lemma quad_at_piece {A} (f : A -> list chan) (vs : list A) (p : Z) (v : A) :
  (forall x, In x vs -> List.length (f x) = 4%nat) ->
  0 <= p -> nth_error vs (Z.to_nat p) = Some v ->
  quad_at (flat_map f vs) p = f v.
Proof.
  intros Hlen Hp Hv. unfold quad_at, slice.
  replace (Z.to_nat (4 * p + 4 - 4 * p)) with 4%nat by lia.
  replace (Z.to_nat (4 * p)) with (Z.to_nat p * 4)%nat by lia.
  now apply flat_map_piece.
Qed.

(** What the two buffers hold for the source pixel at row [r], column [c]. *)
Lemma convert_quads luma name palette w h pixels bufs (r c : Z) :
  List.length palette = 768%nat ->
  convert luma name palette (w, h) pixels = Ok bufs ->
  0 <= r < h -> 0 <= c < w ->
  let p := (h - 1 - r) * w + c in
  let v := px_at pixels (r * w + c) in
  quad_at (pix_rgba bufs) p = rgba_quad luma name palette v /\
  (pix_emit bufs <> [] ->
   quad_at (pix_emit bufs) p = emit_quad name palette v) /\
  (glows name v = true -> pix_emit bufs <> []).
Proof.
  intros Hpal Hconv Hr Hc p v.
  assert (Hw : 0 <= w) by lia.
  destruct (convert_buffers _ _ _ _ _ _ _ Hw Hconv) as [Hrgba Hemit].
  assert (Hat : nth_error (visited w h pixels) (Z.to_nat p) = Some v).
  { unfold p, v. rewrite visited_at by lia. do 2 f_equal. lia. }
  assert (Hp : 0 <= p) by (unfold p; nia).
  split; [| split].
  - rewrite Hrgba. apply quad_at_piece; auto.
    intros x Hx. apply rgba_quad_length; eauto using visited_bytes.
  - intros Hne. destruct Hemit as [[He _] | [_ [He _]]]; [congruence |].
    rewrite He. apply quad_at_piece; auto.
    intros x Hx. apply emit_quad_length; eauto using visited_bytes.
  - intros Hglow. destruct Hemit as [[_ Hnone] | [Hne _]]; [| exact Hne].
    rewrite forallb_forall in Hnone.
    apply nth_error_In in Hat. apply Hnone in Hat.
    rewrite Hglow in Hat. discriminate.
Qed.

Lemma char_at_0 (a : ascii) (rest : string) : char_at (String a rest) 0 = Ok a.
Proof. reflexivity. Qed.

(** ** The conversion is total on a full index buffer *)

Lemma foldM_ok {A S} (f : S -> A -> result S) (l : list A) :
  (forall s x, In x l -> exists s', f s x = Ok s') ->
  forall s, exists s', foldM f l s = Ok s'.
Proof.
  induction l as [| x l IH]; intros Hf s; simpl; [eauto |].
  destruct (Hf s x (or_introl eq_refl)) as [s1 ->]. simpl.
  apply IH. intros s2 y Hy. apply Hf. now right.
Qed.

Lemma in_range (n i : Z) : In i (range n) -> 0 <= i < n.
Proof.
  unfold range. intros H. apply in_map_iff in H as [k [<- Hk]].
  apply in_seq in Hk. lia.
Qed.

Lemma item_ok {A} (l : list A) (i : Z) :
  0 <= i < len l -> exists x, item l i = Ok x.
Proof.
  intros Hi. unfold item. destruct (Z.ltb_spec i 0); [lia |].
  destruct (nth_error l (Z.to_nat i)) eqn:E; [eauto |].
  apply nth_error_None in E. unfold len in Hi. lia.
Qed.

(** With [width * height] index bytes at hand and a name that is not empty,
    the two loops run to their end. *)
Lemma convert_total luma name palette w h pixels :
  0 <= w -> 0 <= h -> w * h <= len pixels -> name <> "" ->
  exists bufs, convert luma name palette (w, h) pixels = Ok bufs.
Proof.
  intros Hw Hh Hlen Hname. unfold convert. apply foldM_ok.
  intros bufs row Hrow. apply in_rev, in_range in Hrow. simpl snd in Hrow.
  unfold convert_row. apply foldM_ok.
  intros bufs1 clm Hclm. apply in_range in Hclm. simpl fst in Hclm.
  unfold convert_pixel. simpl fst.
  destruct (item_ok pixels (row * w + clm)) as [px ->]; [nia |].
  cbn [bind].
  assert (Halpha : exists a, pixel_alpha name (byte_val px) = Ok a).
  { unfold pixel_alpha. destruct (negb (byte_val px =? 255)); [eauto |].
    destruct name as [| c rest]; [congruence |]. rewrite char_at_0.
    cbn [bind]. eauto. }
  destruct Halpha as [a ->]. cbn [bind].
  destruct (pixel_notfb name (byte_val px) || negb a); eauto.
Qed.

(** Channel [k] of quadruple [p] is element [4p + k] of the buffer. *)
Lemma quad_at_channel (buf : list chan) (p : Z) (k : nat) :
  0 <= p -> (k < 4)%nat ->
  nth_error (quad_at buf p) k = nth_error buf (Z.to_nat (4 * p + Z.of_nat k)).
Proof.
  intros Hp Hk. unfold quad_at, slice.
  rewrite nth_error_firstn, nth_error_skipn.
  replace (Z.to_nat (4 * p + 4 - 4 * p)) with 4%nat by lia.
  apply Nat.ltb_lt in Hk. rewrite Hk. f_equal. lia.
Qed.

Lemma item_nth_error {A} (l : list A) (i : Z) (x : A) :
  0 <= i -> nth_error l (Z.to_nat i) = Some x -> item l i = Ok x.
Proof.
  intros Hi Hx. unfold item.
  destruct (Z.ltb_spec i 0); [lia |]. now rewrite Hx.
Qed.

(** The alpha channel of an expected colour quadruple. *)
Lemma rgba_quad_alpha luma name palette v :
  List.length palette = 768%nat -> 0 <= v < 256 ->
  exists alpha,
    nth_error (rgba_quad luma name palette v) 3 = Some alpha /\
    chan_x255 alpha = if is_transparent_index name v then 0 else 255.
Proof.
  intros Hpal Hv.
  pose proof (palette_color_length palette v Hpal Hv) as Hc.
  unfold rgba_quad, glows.
  destruct (palette_color palette v) as [| c0 [| c1 [| c2 [| ? ?]]]];
    try discriminate.
  destruct (is_fullbright name v), (is_transparent_index name v), luma;
    simpl; eexists; split; reflexivity.
Qed.

Lemma px_at_range (pixels : list byte) (i : Z) : 0 <= px_at pixels i < 256.
Proof. apply byte_val_range. Qed.

(** C2 (transparency).  In the colour buffer of a converted texture, the
    alpha channel written for the source pixel at row [r], column [c] is 0
    exactly when the pixel's index is 255 and the texture's name starts with
    an opening brace, and it is 1 otherwise; so index 255 is transparent in
    "{fence" and opaque in "metal1". *)
Theorem alpha_zero_iff_transparent :
  forall luma name palette w h pixels bufs r c,
    List.length palette = 768%nat ->
    convert luma name palette (w, h) pixels = Ok bufs ->
    0 <= r < h -> 0 <= c < w ->
    let v := px_at pixels (r * w + c) in
    exists alpha,
      item (pix_rgba bufs) (4 * ((h - 1 - r) * w + c) + 3) = Ok alpha /\
      (chan_x255 alpha = 0 <-> v = 255 /\ startswith name "{" = true) /\
      (chan_x255 alpha <> 0 -> chan_x255 alpha = 255) /\
      (name = "{fence" -> v = 255 -> chan_x255 alpha = 0) /\
      (name = "metal1" -> v = 255 -> chan_x255 alpha = 255).
Proof.
  intros luma name palette w h pixels bufs r c Hpal Hconv Hr Hc v.
  destruct (convert_quads _ _ _ _ _ _ _ r c Hpal Hconv Hr Hc) as [Hq _].
  fold v in Hq.
  destruct (rgba_quad_alpha luma name palette v Hpal (px_at_range _ _))
    as [alpha [Hnth Hval]].
  assert (Hp : 0 <= (h - 1 - r) * w + c) by nia.
  exists alpha. split; [| split; [| split; [| split]]].
  - apply item_nth_error; [lia |].
    rewrite <- Hq in Hnth.
    rewrite (quad_at_channel _ _ 3 Hp) in Hnth by lia. exact Hnth.
  - rewrite Hval. unfold is_transparent_index.
    destruct (Z.eqb_spec v 255) as [-> | Hne]; simpl.
    + destruct (startswith name "{"); split; intros H;
        try discriminate; try tauto. destruct H; discriminate.
    + split; [discriminate | intros [H _]; contradiction].
  - rewrite Hval. destruct (is_transparent_index name v); [tauto | reflexivity].
  - intros -> Hv. rewrite Hval. unfold is_transparent_index. now rewrite Hv.
  - intros -> Hv. rewrite Hval. unfold is_transparent_index. now rewrite Hv.
Qed.

(** C3 (fullbright).  For a source pixel whose index is at least 224, in a
    texture whose name starts neither with "sky" nor with "*", and which is
    not transparent, the emission buffer holds the palette colour with alpha
    true at the pixel's output position; the colour buffer holds the same
    quadruple there when cut-out-luma is off, and exactly (0,0,0,1) when it
    is on. *)
Theorem fullbright_in_both_buffers :
  forall luma name palette w h pixels bufs r c,
    List.length palette = 768%nat ->
    convert luma name palette (w, h) pixels = Ok bufs ->
    0 <= r < h -> 0 <= c < w ->
    let v := px_at pixels (r * w + c) in
    let p := (h - 1 - r) * w + c in
    224 <= v ->
    startswith name "sky" = false -> startswith name "*" = false ->
    is_transparent_index name v = false ->
    quad_at (pix_emit bufs) p = palette_color palette v ++ [PyBool true] /\
    List.length (palette_color palette v) = 3%nat /\
    (luma = false -> quad_at (pix_rgba bufs) p = quad_at (pix_emit bufs) p) /\
    (luma = true ->
     quad_at (pix_rgba bufs) p = [PyInt 0; PyInt 0; PyInt 0; PyInt 1]).
Proof.
  intros luma name palette w h pixels bufs r c Hpal Hconv Hr Hc v p
         Hv Hsky Hstar Htr.
  destruct (convert_quads _ _ _ _ _ _ _ r c Hpal Hconv Hr Hc)
    as [Hq [He Hne]].
  fold v in Hq, He, Hne. fold p in Hq, He.
  assert (Hglow : glows name v = true).
  { unfold glows, is_fullbright. rewrite Hsky, Hstar, Htr. simpl.
    rewrite !andb_true_r. apply Z.leb_le. exact Hv. }
  specialize (He (Hne Hglow)).
  unfold emit_quad in He. unfold rgba_quad in Hq. rewrite Hglow in He, Hq.
  split; [exact He | split; [| split]].
  - apply palette_color_length; [exact Hpal | apply px_at_range].
  - intros ->. now rewrite Hq, He.
  - intros ->. exact Hq.
Qed.

(** C4 (buffer sizes).  The colour buffer of a converted texture has
    [width * height * 4] channels.  An emission buffer is produced exactly
    when some visited pixel is routed to it (fullbright and not
    transparent); it then has the length of the colour buffer, and holds the
    filler (0,0,0,1) at every position whose pixel is not routed to it, the
    positions before the first such pixel included. *)
Theorem buffers_cover_same_positions :
  forall luma name palette w h pixels bufs,
    List.length palette = 768%nat ->
    0 <= w -> 0 <= h ->
    convert luma name palette (w, h) pixels = Ok bufs ->
    len (pix_rgba bufs) = w * h * 4 /\
    (pix_emit bufs <> [] <-> existsb (glows name) (visited w h pixels) = true) /\
    (pix_emit bufs <> [] -> len (pix_emit bufs) = len (pix_rgba bufs)) /\
    (pix_emit bufs <> [] ->
     forall r c, 0 <= r < h -> 0 <= c < w ->
       glows name (px_at pixels (r * w + c)) = false ->
       quad_at (pix_emit bufs) ((h - 1 - r) * w + c) = black).
Proof.
  intros luma name palette w h pixels bufs Hpal Hw Hh Hconv.
  destruct (convert_buffers _ _ _ _ _ _ _ Hw Hconv) as [Hrgba Hemit].
  assert (Hlr : len (pix_rgba bufs) = w * h * 4).
  { unfold len. rewrite Hrgba, (flat_map_length_const _ 4), visited_length.
    - nia.
    - intros x Hx. apply rgba_quad_length; eauto using visited_bytes. }
  split; [exact Hlr | split; [| split]].
  - destruct Hemit as [[He Hnone] | [Hne [_ Hex]]].
    + split; [congruence |]. intros Hex. exfalso.
      apply existsb_exists in Hex as [x [Hx Hg]].
      rewrite forallb_forall in Hnone. apply Hnone in Hx.
      rewrite Hg in Hx. discriminate.
    + tauto.
  - intros Hne. destruct Hemit as [[He _] | [_ [He _]]]; [congruence |].
    rewrite Hlr. unfold len.
    rewrite He, (flat_map_length_const _ 4), visited_length.
    + nia.
    + intros x Hx. apply emit_quad_length; eauto using visited_bytes.
  - intros Hne r c Hr Hc Hg.
    destruct (convert_quads _ _ _ _ _ _ _ r c Hpal Hconv Hr Hc)
      as [_ [He _]].
    rewrite (He Hne). unfold emit_quad. now rewrite Hg.
Qed.

(** C5 (vertical flip).  The quadruple of the source pixel at row [r]
    (counted from the top) and column [c] is at row [height - 1 - r], column
    [c] of the colour buffer, and of the emission buffer when there is one;
    the bottom source row is therefore output row 0. *)
Theorem rows_vertically_flipped :
  forall luma name palette w h pixels bufs r c,
    List.length palette = 768%nat ->
    convert luma name palette (w, h) pixels = Ok bufs ->
    0 <= r < h -> 0 <= c < w ->
    let v := px_at pixels (r * w + c) in
    let out_row := h - 1 - r in
    quad_at (pix_rgba bufs) (out_row * w + c) = rgba_quad luma name palette v /\
    (pix_emit bufs <> [] ->
     quad_at (pix_emit bufs) (out_row * w + c) = emit_quad name palette v) /\
    (r = h - 1 -> out_row = 0).
Proof.
  intros luma name palette w h pixels bufs r c Hpal Hconv Hr Hc v out_row.
  destruct (convert_quads _ _ _ _ _ _ _ r c Hpal Hconv Hr Hc) as [Hq [He _]].
  split; [exact Hq | split; [exact He |]].
  unfold out_row. lia.
Qed.

(** *** The classifier on a 2x2 texture

    Stored rows, top first: indices 0 and 230, then 255 and 1. *)

Definition sample_pixels : list byte := [Byte.x00; Byte.xe6; Byte.xff; Byte.x01].

Definition sample_bufs (luma : bool) (name : string) : pixbufs :=
  match convert luma name pal_float (2, 2) sample_pixels with
  | Ok bufs => bufs
  | Raise _ => {| pix_rgba := []; pix_emit := [] |}
  end.

Lemma sample_converts (luma : bool) (name : string) :
  name <> "" ->
  convert luma name pal_float (2, 2) sample_pixels = Ok (sample_bufs luma name).
Proof.
  intros Hname. unfold sample_bufs.
  destruct name as [| a rest]; [congruence |].
  destruct (convert luma (String a rest) pal_float (2, 2) sample_pixels)
    as [bufs |] eqn:E; [reflexivity |].
  exfalso. revert E. unfold convert, convert_row, convert_pixel, pixel_alpha.
  simpl. destruct luma; repeat (destruct (_ || _); simpl); discriminate.
Qed.

Lemma alpha_zero_iff_transparent_witness :
  exists alpha,
    item (pix_rgba (sample_bufs false "{fence"))
         (4 * ((2 - 1 - 1) * 2 + 0) + 3) = Ok alpha /\
    chan_x255 alpha = 0.
Proof.
  destruct (alpha_zero_iff_transparent false "{fence" pal_float 2 2
              sample_pixels (sample_bufs false "{fence") 1 0)
    as [alpha [Hitem [_ [_ [Hfence _]]]]].
  - reflexivity.
  - vm_compute. reflexivity.
  - lia.
  - lia.
  - exists alpha. split; [exact Hitem |]. apply Hfence; reflexivity.
Defined.

Lemma fullbright_in_both_buffers_witness :
  quad_at (pix_emit (sample_bufs false "metal1")) ((2 - 1 - 0) * 2 + 1)
  = [Div255 147; Div255 31; Div255 7; PyBool true] /\
  quad_at (pix_rgba (sample_bufs false "metal1")) ((2 - 1 - 0) * 2 + 1)
  = quad_at (pix_emit (sample_bufs false "metal1")) ((2 - 1 - 0) * 2 + 1).
Proof.
  destruct (fullbright_in_both_buffers false "metal1" pal_float 2 2
              sample_pixels (sample_bufs false "metal1") 0 1)
    as [Hemit [_ [Hsame _]]].
  - reflexivity.
  - vm_compute. reflexivity.
  - lia.
  - lia.
  - vm_compute. discriminate.
  - reflexivity.
  - reflexivity.
  - reflexivity.
  - split; [exact Hemit | exact (Hsame eq_refl)].
Defined.

Lemma buffers_cover_same_positions_witness :
  len (pix_rgba (sample_bufs true "metal1")) = 2 * 2 * 4 /\
  len (pix_emit (sample_bufs true "metal1"))
  = len (pix_rgba (sample_bufs true "metal1")).
Proof.
  destruct (buffers_cover_same_positions true "metal1" pal_float 2 2
              sample_pixels (sample_bufs true "metal1"))
    as [Hrgba [_ [Hemit _]]].
  - reflexivity.
  - lia.
  - lia.
  - vm_compute. reflexivity.
  - split; [exact Hrgba | apply Hemit; vm_compute; discriminate].
Defined.

Lemma rows_vertically_flipped_witness :
  quad_at (pix_rgba (sample_bufs false "wall")) ((2 - 1 - 1) * 2 + 1)
  = rgba_quad false "wall" pal_float (px_at sample_pixels (1 * 2 + 1)).
Proof.
  destruct (rows_vertically_flipped false "wall" pal_float 2 2
              sample_pixels (sample_bufs false "wall") 1 1)
    as [Hrgba _].
  - reflexivity.
  - vm_compute. reflexivity.
  - lia.
  - lia.
  - exact Hrgba.
Defined.

(** ** The frame-name check on a one-character name *)

Lemma char_at_1 (a b : ascii) (rest : string) :
  char_at (String a (String b rest)) 1 = Ok b.
Proof. reflexivity. Qed.

Lemma is_frame_name_plus : is_frame_name "+" = Raise IndexError.
Proof. reflexivity. Qed.

(** With two characters or more, or another first character, the check
    returns. *)
Lemma is_frame_name_total (a b : ascii) (rest : string) :
  is_frame_name (String a (String b rest))
  = Ok (Ascii.eqb a "+" && negb (char_in b "0a")).
Proof.
  unfold is_frame_name. rewrite char_at_1, char_at_0. unfold bind.
  destruct (Ascii.eqb a "+"); reflexivity.
Qed.

Lemma is_frame_name_other (a : ascii) :
  a <> "+"%char -> is_frame_name (String a EmptyString) = Ok false.
Proof.
  intros Ha. unfold is_frame_name. rewrite char_at_0. unfold bind.
  apply Ascii.eqb_neq in Ha. now rewrite Ha.
Qed.

(** C10 (the lone plus sign).  The check of line 200 reads [name[1]] as soon
    as [name[0]] is a plus sign: on the one-character name "+" it raises
    IndexError, although "+" is not empty.  A lump that decodes to that name
    (of any recognised kind, in a file of any kind) therefore makes the
    loop body raise, instead of being skipped or turned into a material,
    unless a material called "+" exists already. *)
Theorem lone_plus_raises_index_error :
  forall o e file_name cont_name img24 wad s wadentry wad' s' l,
    decode_entry o e file_name (is_some img24) wad s wadentry
      = Ok (wad', s', l) ->
    (forall n, l <> Unrecognized n) ->
    lower (lump_name l) = "+" ->
    material_exists "+" (bpy s') = false ->
    "+" <> "" /\
    is_frame_name "+" = Raise IndexError /\
    process_entry o e file_name cont_name img24 (wad, s) wadentry
      = Raise IndexError.
Proof.
  intros o e file_name cont_name img24 wad s wadentry wad' s' l
         Hdec Hrec Hname Hmat.
  split; [discriminate | split; [reflexivity |]].
  unfold process_entry. rewrite Hdec. simpl bind.
  destruct l as [n | n sz px | n]; try (exfalso; apply (Hrec n); reflexivity);
    simpl lump_name in *; rewrite Hname; unfold screen_entry;
    rewrite Hmat; reflexivity.
Qed.

Definition plus_wad : list byte := wad2 [tex "+" 1 1 [Byte.x00]].

Definition plus_entry : list pyval :=
  [VInt 12; VInt 41; VInt 41; type_D; VBytes [Byte.x00]; VInt 0;
   VBytes (name16 "+")].

Lemma lone_plus_raises_index_error_witness :
  process_entry (defaults "C:\q\" ["plus.wad"])
                (disk [("C:\q\plus.wad", on_disk plus_wad)])
                "plus.wad" "plus.wad" None
                (open_bytes plus_wad, initial_state empty_bdata) plus_entry
  = Raise IndexError.
Proof.
  pose (o := defaults "C:\q\" ["plus.wad"]).
  pose (e := disk [("C:\q\plus.wad", on_disk plus_wad)]).
  destruct (decode_entry o e "plus.wad" (is_some (@None image)) (open_bytes plus_wad)
              (initial_state empty_bdata) plus_entry)
    as [[[wad' s'] l] | ex] eqn:Hdec; [| vm_compute in Hdec; discriminate].
  refine (proj2 (proj2 (lone_plus_raises_index_error o e "plus.wad" "plus.wad"
                          None (open_bytes plus_wad)
                          (initial_state empty_bdata) plus_entry wad' s' l
                          Hdec _ _ _))).
  - intros n Hl. rewrite Hl in Hdec. vm_compute in Hdec. discriminate.
  - vm_compute in Hdec. injection Hdec as _ _ <-. reflexivity.
  - vm_compute in Hdec. injection Hdec as _ <- _. reflexivity.
Defined.

(** The same through [execute]: a WAD2 file whose only lump is called "+". *)
Example lone_plus_aborts_import :
  execute (defaults "C:\q\" ["plus.wad"])
          (disk [("C:\q\plus.wad", on_disk plus_wad)]) empty_bdata
  = Raise IndexError.
Proof. vm_compute. reflexivity. Qed.

(** ** The scope of a palette lump *)

Lemma pyval_eqb_eq (a b : pyval) : pyval_eqb a b = true -> a = b.
Proof.
  destruct a as [x | x], b as [y | y]; simpl; try discriminate.
  - intros H. apply Z.eqb_eq in H. now subst.
  - destruct (list_eq_dec Byte.byte_eq_dec x y); [now subst | discriminate].
Qed.

Lemma unpack_fields_length (fmt : list field) (bs : list byte) :
  List.length (unpack_fields fmt bs) = List.length fmt.
Proof.
  revert bs. induction fmt as [| f fmt IH]; intros bs; simpl; [reflexivity |].
  now rewrite IH.
Qed.

Lemma unpack_length (fmt : list field) (bs : list byte) (vs : list pyval) :
  unpack fmt bs = Ok vs -> List.length vs = List.length fmt.
Proof.
  unfold unpack. destruct (Nat.eqb _ _); [| discriminate].
  intros H. injection H as <-. apply unpack_fields_length.
Qed.

Lemma as_ints_length (vs : list pyval) (zs : list Z) :
  as_ints vs = Ok zs -> List.length zs = List.length vs.
Proof.
  revert zs. induction vs as [| v vs IH]; intros zs; simpl.
  - intros H. now injection H as <-.
  - destruct (as_int v); simpl; [| discriminate].
    destruct (as_ints vs) as [zs' |]; simpl; [| discriminate].
    intros H. injection H as <-. simpl. now rewrite (IH zs').
Qed.

(** Inversion of a successful step of the error monad. *)
Ltac bind_ok H :=
  match type of H with
  | bind ?m _ = Ok _ =>
      let E := fresh "E" in
      destruct m eqn:E; [cbn [bind] in H | discriminate H]
  end.

Tactic Notation "bind_inv" hyp(H) "as" simple_intropattern(x) ident(E) :=
  match type of H with
  | bind ?m _ = Ok _ =>
      destruct m as [x |] eqn:E; [cbn [bind] in H | discriminate H]
  end.

Ltac split_pairs :=
  repeat match goal with
         | p : (_ * _)%type |- _ => destruct p
         end.

(** The palette a lump is converted with is the default one, except for a
    palette lump, which is converted with the 768 bytes it holds. *)
Lemma decode_entry_palette o e file_name loose wad s wadentry wad' s' l :
  decode_entry o e file_name loose wad s wadentry = Ok (wad', s', l) ->
  palette s' = pal_float \/
  (item wadentry 3 = Ok type_at /\
   exists name rgbs,
     l = Indexed name (16, 16) all_indices /\
     List.length rgbs = 768%nat /\
     palette s' = map Div255 rgbs).
Proof.
  unfold decode_entry. intros H.
  bind_ok H. bind_ok H. bind_ok H. bind_ok H.
  destruct loose.
  { destruct (loose_name o e file_name _) as [nm b].
    injection H as _ <- _. now left. }
  destruct (String.eqb _ "CONCHARS").
  { bind_ok H. split_pairs. injection H as _ <- _. now left. }
  destruct (String.eqb _ "CONBACK").
  { bind_ok H. split_pairs. injection H as _ <- _. now left. }
  destruct (pyval_eqb _ type_D).
  { repeat (bind_ok H; split_pairs). injection H as _ <- _. now left. }
  destruct (pyval_eqb _ type_B).
  { repeat (bind_ok H; split_pairs). injection H as _ <- _. now left. }
  destruct (pyval_eqb _ type_at) eqn:Hat.
  - apply pyval_eqb_eq in Hat. subst.
    repeat (bind_ok H; split_pairs). injection H as _ <- <-. right.
    split; [reflexivity |]. eexists _, _. split; [reflexivity |].
    split; [| reflexivity].
    match goal with
    | Hi : as_ints _ = Ok _, Hu : unpack fmt_768B _ = Ok _ |- _ =>
        rewrite (as_ints_length _ _ Hi), (unpack_length _ _ _ Hu)
    end.
    apply repeat_length.
  - injection H as _ <- _. now left.
Qed.

Lemma screen_entry_build o cont_name img24 s name s2 :
  screen_entry o cont_name img24 s name = Ok (Build s2) -> s2 = s.
Proof.
  unfold screen_entry. destruct (material_exists name (bpy s)).
  - destruct (tag_material _ _ _); simpl; discriminate.
  - destruct (is_frame_name name) as [frame |]; simpl; [| discriminate].
    destruct frame.
    + destruct (negb (option_seq o)); simpl; [discriminate |].
      destruct (seq_name_of name); simpl; [| discriminate].
      destruct (already_stashed _ _ _); simpl; [discriminate |].
      destruct (is_some img24 && _); [discriminate |].
      intros H. now injection H as <-.
    + simpl. destruct (is_some img24 && _); [discriminate |].
      intros H. now injection H as <-.
Qed.

Lemma read_nonneg (wad : reader) (n : Z) :
  0 <= n < 2 ^ 63 ->
  read wad n
  = let got := firstn (Z.to_nat n) (skipn (Z.to_nat (r_pos wad)) (r_data wad)) in
    Ok (got, {| r_data := r_data wad; r_pos := r_pos wad + len got |}).
Proof.
  intros Hn. unfold read.
  destruct (Z.ltb_spec n (- 2 ^ 63)); [lia |].
  destruct (Z.leb_spec (2 ^ 63) n); [lia |]. cbn [orb].
  destruct (Z.ltb_spec n (-1)); [lia |].
  destruct (Z.eqb_spec n (-1)); [lia | reflexivity].
Qed.

(** The [n] bytes that [wad.seek(off)] and [wad.read(n)] deliver. *)
Definition lump_bytes (wad : reader) (off : Z) (n : nat) : list byte :=
  firstn n (skipn (Z.to_nat off) (r_data wad)).

Lemma calcsize_bytes (n : nat) : calcsize (repeat FB n) = n.
Proof. induction n as [| n IH]; simpl; [reflexivity | now rewrite IH]. Qed.

(** ['<nB'] gives the values of the bytes, one by one. *)
Lemma as_ints_bytes (n : nat) :
  forall bs, List.length bs = n ->
    as_ints (unpack_fields (repeat FB n) bs) = Ok (map byte_val bs).
Proof.
  induction n as [| n IH]; intros [| b bs] Hlen; try discriminate;
    [reflexivity |].
  cbn [repeat unpack_fields field_size firstn skipn unpack_field as_ints as_int
       bind map].
  rewrite IH by (simpl in Hlen; lia). cbn [bind].
  unfold le_unsigned. cbn [fold_right]. do 2 f_equal. lia.
Qed.

Lemma unpack_768B (raw : list byte) :
  List.length raw = 768%nat ->
  unpack fmt_768B raw = Ok (unpack_fields fmt_768B raw) /\
  as_ints (unpack_fields fmt_768B raw) = Ok (map byte_val raw).
Proof.
  intros Hlen. unfold unpack, fmt_768B.
  rewrite calcsize_bytes, Hlen, Nat.eqb_refl.
  split; [reflexivity | now apply as_ints_bytes].
Qed.

(** A palette lump is decoded to the 16x16 picture of all 256 indices,
    paired with the 768 bytes found at its offset. *)
Lemma decode_palette_lump o e file_name wad s wadentry off name :
  int_at wadentry 0 = Ok off -> 0 <= off ->
  item wadentry 3 = Ok type_at ->
  name_at wadentry 6 = Ok name ->
  name <> "CONCHARS" -> name <> "CONBACK" ->
  List.length (lump_bytes wad off 768) = 768%nat ->
  decode_entry o e file_name false wad s wadentry
  = Ok ({| r_data := r_data wad; r_pos := off + 768 |},
        with_palette s (map Div255 (map byte_val (lump_bytes wad off 768))),
        Indexed name (16, 16) all_indices).
Proof.
  intros Hoff Hpos Htype Hname Hchars Hback Hlen.
  unfold decode_entry. rewrite Hoff. cbn [bind]. unfold seek.
  destruct (Z.ltb_spec off 0); [lia |]. cbn [bind].
  rewrite Htype, Hname. cbn [bind].
  apply String.eqb_neq in Hchars, Hback. rewrite Hchars, Hback.
  change (pyval_eqb type_at type_D) with false.
  change (pyval_eqb type_at type_B) with false.
  change (pyval_eqb type_at type_at) with true. cbv iota.
  rewrite read_nonneg by lia. cbv zeta. cbn [bind r_data r_pos].
  change (Z.to_nat 768) with 768%nat.
  fold (lump_bytes wad off 768).
  destruct (unpack_768B _ Hlen) as [-> Hints]. cbn [bind].
  rewrite Hints. cbn [bind].
  unfold len. rewrite Hlen. reflexivity.
Qed.

(** The image of an indexed lump holds the colour buffer computed with the
    palette the lump was decoded with. *)
Lemma build_images_palette o e file_name s name size pixels nm s3 img emit :
  build_images o e file_name None s (Indexed name size pixels) nm
    = Ok (s3, img, emit) ->
  exists bufs,
    convert (option_luma o) nm (palette s) size pixels = Ok bufs /\
    img_source img = Generated (fst size) (snd size) (pix_rgba bufs).
Proof.
  unfold build_images. intros Hbuild.
  destruct (convert _ _ _ _ _) as [bufs |]; simpl in Hbuild; [| discriminate].
  exists bufs. split; [reflexivity |].
  destruct (truthy (pix_emit bufs)); injection Hbuild as _ <- _; reflexivity.
Qed.

(** C1, as the code has it.  The local variable [palette] is set to the
    default palette at the start of every loop iteration, so the palette an
    earlier lump left behind never reaches a later one: the result of the
    loop body does not depend on it.  A decoded lump is paired with the
    default palette unless it is itself a palette lump; a palette lump is
    paired with the 768 bytes found at its offset, each divided by 255, and
    its own picture of the 256 indices is the one image converted with
    them; the image of any other indexed lump holds the colour buffer
    computed with the default palette. *)
Theorem palette_lump_colours_itself_only :
  forall o e file_name cont_name wad s wadentry,
    (forall img24 p,
       process_entry o e file_name cont_name img24 (wad, with_palette s p)
                     wadentry
       = process_entry o e file_name cont_name img24 (wad, s) wadentry) /\
    (forall loose wad' s' l,
       decode_entry o e file_name loose wad s wadentry = Ok (wad', s', l) ->
       palette s' = pal_float \/
       (item wadentry 3 = Ok type_at /\
        exists name rgbs,
          l = Indexed name (16, 16) all_indices /\
          List.length rgbs = 768%nat /\
          palette s' = map Div255 rgbs)) /\
    (forall wad' s' name size pixels s2 s3 img emit,
       decode_entry o e file_name false wad s wadentry
         = Ok (wad', s', Indexed name size pixels) ->
       item wadentry 3 <> Ok type_at ->
       screen_entry o cont_name None s' (lower name) = Ok (Build s2) ->
       build_images o e file_name None s2 (Indexed name size pixels)
                    (lower name) = Ok (s3, img, emit) ->
       exists bufs,
         convert (option_luma o) (lower name) pal_float size pixels = Ok bufs /\
         img_source img = Generated (fst size) (snd size) (pix_rgba bufs)) /\
    (forall off name,
       int_at wadentry 0 = Ok off -> 0 <= off ->
       item wadentry 3 = Ok type_at ->
       name_at wadentry 6 = Ok name ->
       name <> "CONCHARS" -> name <> "CONBACK" ->
       List.length (lump_bytes wad off 768) = 768%nat ->
       let custom := map Div255 (map byte_val (lump_bytes wad off 768)) in
       exists wad' s',
         decode_entry o e file_name false wad s wadentry
           = Ok (wad', s', Indexed name (16, 16) all_indices) /\
         palette s' = custom /\
         forall s2 s3 img emit,
           screen_entry o cont_name None s' (lower name) = Ok (Build s2) ->
           build_images o e file_name None s2
                        (Indexed name (16, 16) all_indices) (lower name)
             = Ok (s3, img, emit) ->
           exists bufs,
             convert (option_luma o) (lower name) custom (16, 16) all_indices
               = Ok bufs /\
             img_source img = Generated 16 16 (pix_rgba bufs)).
Proof.
  intros o e file_name cont_name wad s wadentry.
  split; [| split; [| split]].
  - intros img24 p. reflexivity.
  - intros loose wad' s' l. apply decode_entry_palette.
  - intros wad' s' name size pixels s2 s3 img emit Hdec Htype Hscreen Hbuild.
    apply screen_entry_build in Hscreen. subst s2.
    apply decode_entry_palette in Hdec as [Hpal | [Hat _]]; [| contradiction].
    apply build_images_palette in Hbuild. now rewrite Hpal in Hbuild.
  - intros off name Hoff Hpos Htype Hname Hchars Hback Hlen custom.
    do 2 eexists.
    split; [apply decode_palette_lump; eassumption |].
    split; [reflexivity |].
    intros s2 s3 img emit Hscreen Hbuild.
    apply screen_entry_build in Hscreen. subst s2.
    apply build_images_palette in Hbuild. exact Hbuild.
Qed.

(** *** A palette lump followed by a texture

    The palette lump holds 256 times white; the texture after it is one
    pixel of index 0, which is black in the default palette. *)

Definition white_palette : list byte := repeat Byte.xff 768.

Definition palette_wad : list byte :=
  wad2 [(Byte.x40, "PALETTE", white_palette); tex "TEX" 1 1 [Byte.x00]].

Definition palette_import : result bdata :=
  execute (defaults "C:\q\" ["pal.wad"])
          (disk [("C:\q\pal.wad", on_disk palette_wad)]) empty_bdata.

Definition image_named (name : string) (b : bdata) : option image :=
  find (fun i => String.eqb (img_name i) name) (images b).

(** The texture that follows the palette lump is black, as the default
    palette has it, and not white, as the palette lump before it has it. *)
Lemma texture_after_palette_lump_counterexample :
  exists b img custom,
    palette_import = Ok b /\
    image_named "tex" b = Some img /\
    convert false "tex" (map Div255 (repeat 255 768)) (1, 1) [Byte.x00]
      = Ok custom /\
    pix_rgba custom = [Div255 255; Div255 255; Div255 255; PyBool true] /\
    img_source img <> Generated 1 1 (pix_rgba custom) /\
    img_source img = Generated 1 1 [Div255 0; Div255 0; Div255 0; PyBool true].
Proof.
  do 3 eexists.
  split; [vm_compute; reflexivity |].
  split; [vm_compute; reflexivity |].
  split; [vm_compute; reflexivity |].
  split; [reflexivity |].
  split; [discriminate | reflexivity].
Qed.

(** The picture of the palette lump itself is white all over, as the lump
    has it. *)
Example palette_swatch_has_the_lump_colours :
  exists b img,
    palette_import = Ok b /\
    image_named "palette" b = Some img /\
    img_source img
    = Generated 16 16
        (repeat_list [Div255 255; Div255 255; Div255 255; PyBool true] 256).
Proof.
  do 2 eexists.
  split; [vm_compute; reflexivity |].
  split; [vm_compute; reflexivity |].
  vm_compute. reflexivity.
Qed.

Definition tex_entry_after_palette : list pyval :=
  [VInt 780; VInt 41; VInt 41; type_D; VBytes [Byte.x00]; VInt 0;
   VBytes (name16 "TEX")].

Definition palette_entry : list pyval :=
  [VInt 12; VInt 768; VInt 768; type_at; VBytes [Byte.x00]; VInt 0;
   VBytes (name16 "PALETTE")].

Lemma palette_lump_colours_itself_only_witness :
  (exists wad' s' l,
     decode_entry (defaults "C:\q\" ["pal.wad"])
                  (disk [("C:\q\pal.wad", on_disk palette_wad)]) "pal.wad"
                  false (open_bytes palette_wad)
                  (with_palette (initial_state empty_bdata)
                                (map Div255 (repeat 255 768)))
                  tex_entry_after_palette = Ok (wad', s', l) /\
     palette s' = pal_float) /\
  (exists wad' s',
     decode_entry (defaults "C:\q\" ["pal.wad"])
                  (disk [("C:\q\pal.wad", on_disk palette_wad)]) "pal.wad"
                  false (open_bytes palette_wad) (initial_state empty_bdata)
                  palette_entry
     = Ok (wad', s', Indexed "PALETTE" (16, 16) all_indices) /\
     palette s' = map Div255 (repeat 255 768)).
Proof.
  split.
  - destruct (decode_entry (defaults "C:\q\" ["pal.wad"])
                (disk [("C:\q\pal.wad", on_disk palette_wad)]) "pal.wad"
                false (open_bytes palette_wad)
                (with_palette (initial_state empty_bdata)
                              (map Div255 (repeat 255 768)))
                tex_entry_after_palette)
      as [[[wad' s'] l] | ex] eqn:Hdec; [| vm_compute in Hdec; discriminate].
    exists wad', s', l. split; [reflexivity |].
    destruct (proj1 (proj2 (palette_lump_colours_itself_only
                              (defaults "C:\q\" ["pal.wad"])
                              (disk [("C:\q\pal.wad", on_disk palette_wad)])
                              "pal.wad" "pal.wad" (open_bytes palette_wad)
                              (with_palette (initial_state empty_bdata)
                                            (map Div255 (repeat 255 768)))
                              tex_entry_after_palette))
                    false wad' s' l Hdec) as [Hpal | [Hat _]].
    + exact Hpal.
    + vm_compute in Hat. discriminate.
  - destruct (proj2 (proj2 (proj2 (palette_lump_colours_itself_only
                                     (defaults "C:\q\" ["pal.wad"])
                                     (disk [("C:\q\pal.wad",
                                             on_disk palette_wad)])
                                     "pal.wad" "pal.wad"
                                     (open_bytes palette_wad)
                                     (initial_state empty_bdata)
                                     palette_entry)))
                12 "PALETTE" eq_refl ltac:(lia) eq_refl eq_refl
                ltac:(discriminate) ltac:(discriminate) eq_refl)
      as [wad' [s' [Hdec [Hpal _]]]].
    exists wad', s'. split; [exact Hdec |].
    rewrite Hpal. vm_compute. reflexivity.
Defined.

(** ** Short reads *)

Lemma foldM_app {A S} (f : S -> A -> result S) (l1 l2 : list A) (s : S) :
  foldM f (l1 ++ l2) s = (s1 <- foldM f l1 s ;; foldM f l2 s1).
Proof.
  revert s. induction l1 as [| x l1 IH]; intros s; simpl; [reflexivity |].
  destruct (f s x); simpl; [apply IH | reflexivity].
Qed.

Lemma unpack_short (fmt : list field) (bs : list byte) :
  List.length bs <> calcsize fmt -> unpack fmt bs = Raise StructError.
Proof.
  intros H. unfold unpack. apply Nat.eqb_neq in H. now rewrite H.
Qed.

(** A directory of [n] entries that starts at [pos] and does not fit in the
    file: the read of the first entry that is cut short raises. *)
Lemma read_direntries_short (data : list byte) (n : nat) :
  forall pos : Z,
    0 <= pos -> (0 < n)%nat -> len data < pos + 32 * Z.of_nat n ->
    read_direntries n {| r_data := data; r_pos := pos |} = Raise StructError.
Proof.
  induction n as [| n IH]; intros pos Hpos Hn Hlen; [lia |].
  cbn [read_direntries]. rewrite read_nonneg by (simpl; lia).
  cbn [r_data r_pos bind].
  change (Z.to_nat (Z.of_nat (calcsize fmt_direntry))) with 32%nat.
  set (got := firstn 32 (skipn (Z.to_nat pos) data)).
  destruct (Nat.eq_dec (List.length got) 32) as [Hfull | Hcut].
  - assert (Hroom : pos + 32 <= len data).
    { unfold got, len in *. rewrite length_firstn, length_skipn in Hfull. lia. }
    unfold unpack. change (calcsize fmt_direntry) with 32%nat.
    rewrite Hfull. cbn [Nat.eqb bind].
    unfold len at 1. rewrite Hfull.
    rewrite IH; [reflexivity | lia | lia | lia].
  - rewrite unpack_short; [reflexivity | exact Hcut].
Qed.

Lemma read_bsp_offsets_short (data : list byte) (diroffset : Z) (n : nat) :
  forall pos : Z,
    0 <= pos -> (0 < n)%nat -> len data < pos + 4 * Z.of_nat n ->
    read_bsp_offsets n diroffset {| r_data := data; r_pos := pos |}
    = Raise StructError.
Proof.
  induction n as [| n IH]; intros pos Hpos Hn Hlen; [lia |].
  cbn [read_bsp_offsets]. rewrite read_nonneg by lia.
  cbn [r_data r_pos bind]. change (Z.to_nat 4) with 4%nat.
  set (got := firstn 4 (skipn (Z.to_nat pos) data)).
  destruct (Nat.eq_dec (List.length got) 4) as [Hfull | Hcut].
  - assert (Hroom : pos + 4 <= len data).
    { unfold got, len in *. rewrite length_firstn, length_skipn in Hfull. lia. }
    unfold unpack. change (calcsize fmt_l) with 4%nat.
    rewrite Hfull. cbn [Nat.eqb bind].
    change (int_at (unpack_fields fmt_l got) 0)
      with (Ok (le_signed 32 (firstn 4 got))).
    cbn [bind]. unfold len at 1. rewrite Hfull.
    rewrite IH; [reflexivity | lia | lia | lia].
  - rewrite unpack_short; [reflexivity | exact Hcut].
Qed.

(** A file that ends inside its header, or inside the directory its header
    announces. *)
Definition truncated_wad2_header (bs : list byte) : Prop :=
  firstn 4 bs = sig_WAD2 /\ len bs < 12.

Definition truncated_bsp_header (bs : list byte) : Prop :=
  (firstn 4 bs = sig_BSP2 \/ firstn 4 bs = sig_29) /\ len bs < 124.

Definition truncated_wad2_directory (bs : list byte) : Prop :=
  exists numentries diroffset,
    firstn 4 bs = sig_WAD2 /\
    unpack fmt_2l (firstn 8 (skipn 4 bs)) = Ok [VInt numentries; VInt diroffset] /\
    0 < numentries /\ 0 <= diroffset /\
    len bs < diroffset + 32 * numentries.

Definition truncated_bsp_directory (bs : list byte) : Prop :=
  exists header diroffset,
    (firstn 4 bs = sig_BSP2 \/ firstn 4 bs = sig_29) /\
    unpack fmt_30l (firstn 120 (skipn 4 bs)) = Ok header /\
    int_at header 4 = Ok diroffset /\
    0 <= diroffset /\
    (len bs < diroffset + 4 \/
     exists numentries,
       unpack fmt_l (firstn 4 (skipn (Z.to_nat diroffset) bs))
         = Ok [VInt numentries] /\
       0 < numentries /\
       len bs < diroffset + 4 + 4 * numentries).

Definition truncated (bs : list byte) : Prop :=
  truncated_wad2_header bs \/ truncated_bsp_header bs \/
  truncated_wad2_directory bs \/ truncated_bsp_directory bs.

Lemma read_directory_truncated o e file_name f s :
  truncated (f_bytes f) ->
  read_directory o e file_name f (open_bytes (f_bytes f)) s = Raise StructError.
Proof.
  intros Htr. unfold read_directory, open_bytes.
  rewrite read_nonneg by lia. cbn [r_data r_pos bind].
  change (Z.to_nat 4) with 4%nat. change (Z.to_nat 0) with 0%nat.
  cbn [skipn].
  destruct Htr as [[Hsig Hlen] | [[Hsig Hlen] | [Hwad | Hbspdir]]];
    [| | destruct Hwad as [n [off [Hsig [Hhdr [Hn [Hoff Hlen]]]]]] |
     destruct Hbspdir as [header [off [Hsig [Hhdr [Hdir [Hoff Hcut]]]]]]].
  - rewrite Hsig. change (bytes_eqb sig_WAD2 sig_WAD2) with true. cbv iota.
    rewrite read_nonneg by lia. cbn [r_data r_pos bind].
    change (Z.to_nat (0 + len sig_WAD2)) with 4%nat.
    change (Z.to_nat (2 * 4)) with 8%nat.
    rewrite unpack_short; [reflexivity |].
    rewrite length_firstn, length_skipn. unfold len in Hlen.
    change (calcsize fmt_2l) with 8%nat. lia.
  - assert (Hbsp : bytes_eqb (firstn 4 (f_bytes f)) sig_WAD2 = false
                   /\ bytes_eqb (firstn 4 (f_bytes f)) sig_BSP2
                      || bytes_eqb (firstn 4 (f_bytes f)) sig_29 = true).
    { destruct Hsig as [-> | ->]; split; reflexivity. }
    destruct Hbsp as [-> ->]. cbv iota.
    rewrite read_nonneg by lia. cbn [r_data r_pos bind].
    assert (Hpos : Z.to_nat (0 + len (firstn 4 (f_bytes f))) = 4%nat).
    { destruct Hsig as [-> | ->]; reflexivity. }
    rewrite Hpos. change (Z.to_nat (30 * 4)) with 120%nat.
    rewrite unpack_short; [reflexivity |].
    rewrite length_firstn, length_skipn. unfold len in Hlen.
    change (calcsize fmt_30l) with 120%nat. lia.
  - rewrite Hsig. change (bytes_eqb sig_WAD2 sig_WAD2) with true. cbv iota.
    rewrite read_nonneg by lia. cbn [r_data r_pos bind].
    change (Z.to_nat (0 + len sig_WAD2)) with 4%nat.
    change (Z.to_nat (2 * 4)) with 8%nat.
    rewrite Hhdr. cbn [bind]. unfold int_at. cbn [item bind as_int].
    change (item [VInt n; VInt off] 0) with (Ok (VInt n)).
    change (item [VInt n; VInt off] 1) with (Ok (VInt off)).
    cbn [bind as_int]. unfold seek.
    destruct (Z.ltb_spec off 0); [lia |]. cbn [bind r_data].
    rewrite read_direntries_short; [reflexivity | lia | lia | lia].
  - assert (Hbsp : bytes_eqb (firstn 4 (f_bytes f)) sig_WAD2 = false
                   /\ bytes_eqb (firstn 4 (f_bytes f)) sig_BSP2
                      || bytes_eqb (firstn 4 (f_bytes f)) sig_29 = true).
    { destruct Hsig as [-> | ->]; split; reflexivity. }
    destruct Hbsp as [-> ->]. cbv iota.
    rewrite read_nonneg by lia. cbn [r_data r_pos bind].
    assert (Hpos : Z.to_nat (0 + len (firstn 4 (f_bytes f))) = 4%nat).
    { destruct Hsig as [-> | ->]; reflexivity. }
    rewrite Hpos. change (Z.to_nat (30 * 4)) with 120%nat.
    rewrite Hhdr. cbn [bind]. rewrite Hdir. cbn [bind]. unfold seek.
    destruct (Z.ltb_spec off 0); [lia |]. cbn [bind r_data].
    rewrite read_nonneg by lia. cbn [r_data r_pos bind].
    change (Z.to_nat 4) with 4%nat.
    destruct Hcut as [Hcut | [n [Hcount [Hn Hlen]]]].
    + rewrite unpack_short; [reflexivity |].
      rewrite length_firstn, length_skipn. unfold len in Hcut.
      change (calcsize fmt_l) with 4%nat. lia.
    + assert (Hfour : List.length
                        (firstn 4 (skipn (Z.to_nat off) (f_bytes f))) = 4%nat).
      { unfold unpack in Hcount. change (calcsize fmt_l) with 4%nat in Hcount.
        destruct (Nat.eqb_spec
                    (List.length (firstn 4 (skipn (Z.to_nat off) (f_bytes f))))
                    4); [assumption | discriminate]. }
      rewrite Hcount. cbn [bind].
      change (int_at [VInt n] 0) with (Ok n). cbn [bind].
      unfold len at 1. rewrite Hfour.
      rewrite read_bsp_offsets_short; [reflexivity | lia | lia | lia].
Qed.

(** C8, as the code has it.  Nothing in [execute] catches the struct.error
    of a short read.  When a file of the batch ends inside its WAD2 or BSP
    header, or inside the directory that header announces, the loop body
    raises for that file and so does [execute]: the import is aborted as a
    whole, and the files that come after it are never opened. *)
Theorem truncated_file_aborts_the_import :
  forall o e b pre name rest f s1,
    files o = pre ++ name :: rest ->
    foldM (process_file o e) pre (initial_state b) = Ok s1 ->
    assoc (directory o ++ name)%string (fs e) = Some f ->
    truncated (f_bytes f) ->
    process_file o e s1 name = Raise StructError /\
    import_files o e (initial_state b) = Raise StructError /\
    execute o e b = Raise StructError.
Proof.
  intros o e b pre name rest f s1 Hfiles Hpre Hf Htr.
  assert (Hfile : process_file o e s1 name = Raise StructError).
  { unfold process_file. rewrite Hf.
    now rewrite (read_directory_truncated o e name f s1 Htr). }
  assert (Himport : import_files o e (initial_state b) = Raise StructError).
  { unfold import_files. rewrite Hfiles, foldM_app, Hpre. cbn [bind foldM].
    now rewrite Hfile. }
  split; [exact Hfile | split; [exact Himport |]].
  unfold execute. now rewrite Himport.
Qed.

(** *** A batch of a good, a truncated and another good archive *)

Definition wall_wad : list byte := wad2 [tex "WALL1" 1 1 [Byte.x00]].
Definition floor_wad : list byte := wad2 [tex "FLOOR1" 1 1 [Byte.x01]].

(** "WAD2" and three bytes more: the header is cut short. *)
Definition cut_wad : list byte := sig_WAD2 ++ [Byte.x01; Byte.x00; Byte.x00].

Definition batch_disk : env :=
  disk [("C:\q\wall.wad", on_disk wall_wad);
        ("C:\q\cut.wad", on_disk cut_wad);
        ("C:\q\floor.wad", on_disk floor_wad)].

(** The batch does not continue with the file after the truncated one: the
    import raises, although that file alone imports well. *)
Lemma truncated_file_in_batch_counterexample :
  execute (defaults "C:\q\" ["cut.wad"; "floor.wad"]) batch_disk empty_bdata
    = Raise StructError /\
  exists b,
    execute (defaults "C:\q\" ["floor.wad"]) batch_disk empty_bdata = Ok b /\
    map mat_name (materials b) = ["floor1"].
Proof.
  split; [vm_compute; reflexivity |].
  eexists. split; vm_compute; reflexivity.
Qed.

Lemma truncated_file_aborts_the_import_witness :
  execute (defaults "C:\q\" ["wall.wad"; "cut.wad"; "floor.wad"])
          batch_disk empty_bdata
  = Raise StructError.
Proof.
  pose (o := defaults "C:\q\" ["wall.wad"; "cut.wad"; "floor.wad"]).
  destruct (foldM (process_file o batch_disk) ["wall.wad"]
                  (initial_state empty_bdata)) as [s1 |] eqn:Hpre;
    [| vm_compute in Hpre; discriminate].
  refine (proj2 (proj2 (truncated_file_aborts_the_import o batch_disk
                          empty_bdata ["wall.wad"] "cut.wad" ["floor.wad"]
                          (on_disk cut_wad) s1 eq_refl Hpre eq_refl _))).
  left. split; [reflexivity | unfold len; simpl; lia].
Defined.

(** Image identities are handed out in increasing order. *)
Definition fresh_ids (b : bdata) : Prop :=
  Forall (fun i => (img_id i < next_id b)%nat) (images b).

Lemma filter_keeps_older (id : nat) (imgs : list image) :
  Forall (fun i => (img_id i < id)%nat) imgs ->
  filter (fun i => negb (Nat.eqb (img_id i) id)) imgs = imgs.
Proof.
  induction 1 as [| i imgs Hi _ IH]; simpl; [reflexivity |].
  destruct (Nat.eqb_spec (img_id i) id); [lia |]. simpl. now rewrite IH.
Qed.

(** Loading an image and removing it again leaves the images as they were. *)
Lemma remove_added_image (nm : string) (src : image_source) (b : bdata) :
  fresh_ids b ->
  images (remove_image (fst (add_image nm src b)) (snd (add_image nm src b)))
  = images b.
Proof.
  intros Hfresh. unfold add_image, remove_image. cbn [fst snd images img_id].
  rewrite filter_app. cbn [filter img_id]. rewrite Nat.eqb_refl. cbn [negb].
  rewrite app_nil_r. now apply filter_keeps_older.
Qed.

(** The one per-file condition the code does skip: a file that is neither a
    WAD2 nor a BSP and that the image loader cannot read (depth 0).  It is
    reported, and the loop goes on with the next file. *)
Lemma unreadable_image_is_skipped o e s file_name f :
  fresh_ids (bpy s) ->
  assoc (directory o ++ file_name)%string (fs e) = Some f ->
  bytes_eqb (firstn 4 (f_bytes f)) sig_WAD2 = false ->
  bytes_eqb (firstn 4 (f_bytes f)) sig_BSP2 = false ->
  bytes_eqb (firstn 4 (f_bytes f)) sig_29 = false ->
  f_depth f = 0 ->
  exists s',
    process_file o e s file_name = Ok s' /\
    materials (bpy s') = materials (bpy s) /\
    images (bpy s') = images (bpy s) /\
    warnings (bpy s') = warnings (bpy s) ++ [("Skipped " ++ file_name)%string].
Proof.
  intros Hfresh Hf Hwad Hbsp H29 Hdepth.
  unfold process_file. rewrite Hf. unfold read_directory, open_bytes.
  rewrite read_nonneg by lia. cbn [r_data r_pos bind].
  change (Z.to_nat 4) with 4%nat. change (Z.to_nat 0) with 0%nat.
  cbn [skipn]. rewrite Hwad, Hbsp, H29. cbn [orb].
  unfold load_image.
  pose proof (remove_added_image file_name
                (Loaded (directory o ++ file_name)%string) (bpy s) Hfresh)
    as Himgs.
  destruct (add_image file_name _ (bpy s)) as [img24 b1] eqn:Hadd.
  rewrite Hdepth. cbn [Z.eqb bind]. eexists. split; [reflexivity |].
  cbn [fst snd] in Himgs.
  unfold add_image in Hadd. injection Hadd as <- <-.
  split; [reflexivity | split; [exact Himgs | reflexivity]].
Qed.

(** ** Animation sequences *)






(** The rule of lines 200-204 on a name that starts with a plus sign. *)
Lemma seq_name_rule (c : ascii) (rest : string) :
  let name := String "+" (String c rest) in
  is_frame_name name = Ok (negb (char_in c "0a")) /\
  seq_name_of name
  = Ok (String "+" (String (if char_in c "0123456789" then "0" else "a")%char
                           rest)).
Proof.
  split.
  - now rewrite is_frame_name_total.
  - unfold seq_name_of. rewrite char_at_1. cbn [bind].
    unfold str_slice_from, slice_from, chars, str. simpl.
    rewrite string_of_list_ascii_of_string.
    now destruct (char_in c "0123456789").
Qed.


(** *** Three frames of one sequence *)

Definition frame0 : byte * string * list byte := tex "+0frame" 1 1 [Byte.x00].
Definition frame1 : byte * string * list byte := tex "+1frame" 1 1 [Byte.x01].
Definition frame2 : byte * string * list byte := tex "+2frame" 1 1 [Byte.x02].

Definition frames_disk (lumps : list (byte * string * list byte)) : env :=
  disk [("C:\q\anim.wad", on_disk (wad2 lumps))].

Definition frames_options : options := defaults "C:\q\" ["anim.wad"].

(** The names of the frames stashed under [key]. *)
Definition stashed_names (key : string) (s : state) : option (list string) :=
  option_map (map img_name) (assoc key (anim_seqs s)).

Definition material_names (b : bdata) : list string :=
  map mat_name (materials b).

(** The names of the frame images chained to the material [name]. *)
Definition frame_chain (name : string) (b : bdata) : option (list string) :=
  match find_material name b with
  | Some m => option_map (map img_name) (mat_frames m)
  | None => None
  end.



(** In the dictionary [anim_seqs] the key "+0frame" holds the two frames
    that come after the first: the first one, "+0frame" itself, is the
    image of the material that carries the key. *)
Lemma frame_zero_is_the_material_image :
  is_frame_name "+0frame" = Ok false /\
  exists s m,
    import_files frames_options (frames_disk [frame0; frame1; frame2])
                 (initial_state empty_bdata) = Ok s /\
    stashed_names "+0frame" s = Some ["+1frame"; "+2frame"] /\
    find_material "+0frame" (bpy s) = Some m /\
    img_name (mat_image m) = "+0frame" /\
    material_names (bpy s) = ["+0frame"].
Proof.
  split; [reflexivity |]. do 2 eexists.
  split; [vm_compute; reflexivity |].
  split; [reflexivity |].
  split; [vm_compute; reflexivity |].
  split; reflexivity.
Qed.



(** ** The material registry *)

Lemma material_exists_In (name : string) (b : bdata) :
  material_exists name b = true <-> In name (material_names b).
Proof.
  unfold material_exists, material_names. rewrite existsb_exists, in_map_iff.
  split; intros [m [H1 H2]]; exists m.
  - apply String.eqb_eq in H2. tauto.
  - subst. rewrite String.eqb_refl. tauto.
Qed.

Definition tagged (tag : string) (m : material) : material :=
  {| mat_name := mat_name m; mat_image := mat_image m;
     mat_emission := mat_emission m;
     mat_tags := option_map (fun tags => tags ++ [tag]) (mat_tags m);
     mat_frames := mat_frames m; mat_emit_frames := mat_emit_frames m |}.

(** Tagging changes the tags of the first material of that name, and
    nothing else. *)
Lemma tag_first_spec (name tag : string) (ms ms' : list material) :
  tag_first name tag ms = Ok ms' ->
  map mat_name ms' = map mat_name ms /\
  (forall m, find (fun m => String.eqb (mat_name m) name) ms = Some m ->
             find (fun m => String.eqb (mat_name m) name) ms'
             = Some (tagged tag m)) /\
  (forall other, other <> name ->
     find (fun m => String.eqb (mat_name m) other) ms'
     = find (fun m => String.eqb (mat_name m) other) ms).
Proof.
  revert ms'. induction ms as [| m ms IH]; intros ms'; simpl; [discriminate |].
  destruct (String.eqb (mat_name m) name) eqn:Hm.
  - unfold add_tag. destruct (mat_tags m) as [tags |] eqn:Ht; simpl;
      [| discriminate].
    intros H. injection H as <-. simpl. rewrite Hm.
    split; [reflexivity | split].
    + intros m0 H0. injection H0 as <-. unfold tagged. now rewrite Ht.
    + intros other Hother. apply String.eqb_eq in Hm. rewrite Hm.
      assert (Hne : String.eqb name other = false)
        by (apply String.eqb_neq; congruence).
      now rewrite Hne.
  - destruct (tag_first name tag ms) as [ms1 |]; simpl; [| discriminate].
    intros H. injection H as <-. simpl. rewrite Hm.
    destruct (IH ms1 eq_refl) as [Hnames [Hfind Hother]].
    split; [now rewrite Hnames | split].
    + exact Hfind.
    + intros other Hne. rewrite (Hother other Hne). reflexivity.
Qed.

Lemma tag_first_found (name tag : string) (ms : list material) (m : material)
    (tags : list string) :
  find (fun m => String.eqb (mat_name m) name) ms = Some m ->
  mat_tags m = Some tags ->
  exists ms', tag_first name tag ms = Ok ms'.
Proof.
  induction ms as [| m0 ms IH]; simpl; [discriminate |].
  destruct (String.eqb (mat_name m0) name).
  - intros H Ht. injection H as ->. unfold add_tag. rewrite Ht. simpl. eauto.
  - intros H Ht. destruct (IH H Ht) as [ms' ->]. simpl. eauto.
Qed.

Lemma tag_first_untagged (name tag : string) (ms : list material) (m : material) :
  find (fun m => String.eqb (mat_name m) name) ms = Some m ->
  mat_tags m = None ->
  tag_first name tag ms = Raise AttributeError.
Proof.
  induction ms as [| m0 ms IH]; simpl; [discriminate |].
  destruct (String.eqb (mat_name m0) name).
  - intros H Ht. injection H as ->. unfold add_tag. now rewrite Ht.
  - intros H Ht. now rewrite (IH H Ht).
Qed.

(** Decoding a lump touches nothing of [bpy.data] but the warnings. *)
Lemma decode_entry_bpy o e file_name loose wad s wadentry wad' s' l :
  decode_entry o e file_name loose wad s wadentry = Ok (wad', s', l) ->
  materials (bpy s') = materials (bpy s) /\
  images (bpy s') = images (bpy s) /\
  objects (bpy s') = objects (bpy s) /\
  next_id (bpy s') = next_id (bpy s) /\
  anim_seqs s' = anim_seqs s.
Proof.
  unfold decode_entry. intros H.
  bind_ok H. bind_ok H. bind_ok H. bind_ok H.
  destruct loose.
  { unfold loose_name in H.
    destruct (negb (option_rel o)); [| destruct (relpath e _ _)];
      injection H as _ <- _; repeat split; reflexivity. }
  destruct (String.eqb _ "CONCHARS").
  { bind_ok H. split_pairs. injection H as _ <- _. repeat split; reflexivity. }
  destruct (String.eqb _ "CONBACK").
  { bind_ok H. split_pairs. injection H as _ <- _. repeat split; reflexivity. }
  destruct (pyval_eqb _ type_D).
  { repeat (bind_ok H; split_pairs). injection H as _ <- _.
    repeat split; reflexivity. }
  destruct (pyval_eqb _ type_B).
  { repeat (bind_ok H; split_pairs). injection H as _ <- _.
    repeat split; reflexivity. }
  destruct (pyval_eqb _ type_at).
  - repeat (bind_ok H; split_pairs). injection H as _ <- _.
    repeat split; reflexivity.
  - injection H as _ <- _. repeat split; reflexivity.
Qed.

(** What the checks of lines 195-217 can answer. *)
Lemma screen_entry_cases o cont_name img24 s name v :
  screen_entry o cont_name img24 s name = Ok v ->
  (v = Build s /\ material_exists name (bpy s) = false) \/
  (exists s', v = Skip s' /\
     material_names (bpy s') = material_names (bpy s) /\
     anim_seqs s' = anim_seqs s /\
     incl (images (bpy s')) (images (bpy s))).
Proof.
  unfold screen_entry. destruct (material_exists name (bpy s)) eqn:Hex.
  - unfold tag_material.
    destruct (tag_first name cont_name _) as [ms |] eqn:Htag; simpl;
      [| discriminate].
    intros H. injection H as <-. right. eexists. split; [reflexivity |].
    apply tag_first_spec in Htag as [Hnames _].
    unfold material_names. simpl. rewrite Hnames.
    destruct (option_cont o); repeat split; try reflexivity; apply incl_refl.
  - assert (Hrm : incl (images (remove_loaded img24 (bpy s))) (images (bpy s))).
    { destruct img24; simpl; [apply incl_filter | apply incl_refl]. }
    assert (Hnm : material_names (remove_loaded img24 (bpy s))
                  = material_names (bpy s)) by now destruct img24.
    destruct (is_frame_name name) as [frame |]; simpl; [| discriminate].
    destruct frame.
    + destruct (negb (option_seq o)); simpl.
      { intros H. injection H as <-. right. exists s.
        repeat split; try reflexivity. apply incl_refl. }
      destruct (seq_name_of name); simpl; [| discriminate].
      destruct (already_stashed _ _ _); simpl.
      { intros H. injection H as <-. right. eexists.
        repeat split; try reflexivity; assumption. }
      destruct (is_some img24 && _); intros H; injection H as <-.
      * right. eexists. repeat split; try reflexivity; assumption.
      * left. tauto.
    + simpl. destruct (is_some img24 && _); intros H; injection H as <-.
      * right. eexists. repeat split; try reflexivity; assumption.
      * left. tauto.
Qed.

Lemma build_images_materials o e file_name img24 s l name s' img emit :
  build_images o e file_name img24 s l name = Ok (s', img, emit) ->
  materials (bpy s') = materials (bpy s) /\ anim_seqs s' = anim_seqs s.
Proof.
  unfold build_images. destruct img24 as [img24 |].
  - destruct (isfile e _).
    + unfold load_image, add_image.
      destruct (depth_of e _ =? 0); intros H; injection H as <- _ _;
        split; reflexivity.
    + intros H. injection H as <- _ _. split; reflexivity.
  - destruct l as [n | n size pixels | n]; try discriminate.
    destruct (convert _ _ _ _ _) as [bufs |]; simpl; [| discriminate].
    destruct (truthy (pix_emit bufs)); intros H; injection H as <- _ _;
      split; reflexivity.
Qed.

Lemma build_images_indexed o e file_name s n size pixels name bufs :
  convert (option_luma o) name (palette s) size pixels = Ok bufs ->
  exists s' img emit,
    build_images o e file_name None s (Indexed n size pixels) name
    = Ok (s', img, emit).
Proof.
  intros Hconv. unfold build_images. rewrite Hconv. cbn [bind].
  destruct (add_image name _ (bpy s)) as [img b1].
  destruct (truthy (pix_emit bufs)); [destruct (add_image _ _ b1) |]; eauto.
Qed.

Lemma stash_frame_bpy o seq_name img emit s s' :
  stash_frame o seq_name img emit s = Ok s' -> bpy s' = bpy s.
Proof.
  unfold stash_frame. destruct (assoc seq_name (anim_seqs s)).
  - destruct (anim_append seq_name img _); simpl; [| discriminate].
    destruct emit; [destruct (anim_append _ _ _) |]; simpl;
      try discriminate; intros H; injection H as <-; reflexivity.
  - intros H. injection H as <-. reflexivity.
Qed.

Lemma new_material_names o e cont_name name img emit b :
  material_names (new_material o e cont_name name img emit b)
  = material_names b ++ [name].
Proof.
  unfold new_material, material_names.
  destruct (option_cont o); simpl; now rewrite map_app.
Qed.

(** One lump adds at most one material, and only under a name that is not
    in the registry yet. *)
Lemma process_entry_names o e file_name cont_name img24 wad s wadentry wad' s' :
  process_entry o e file_name cont_name img24 (wad, s) wadentry
    = Ok (wad', s') ->
  material_names (bpy s') = material_names (bpy s) \/
  (exists name, ~ In name (material_names (bpy s)) /\
     material_names (bpy s') = material_names (bpy s) ++ [name]).
Proof.
  unfold process_entry. intros H.
  bind_inv H as [[wad1 s1] l] Hdec.
  apply decode_entry_bpy in Hdec as [Hm _].
  assert (Hn : forall st : state,
             materials (bpy st) = materials (bpy s) ->
             material_names (bpy st) = material_names (bpy s))
    by (intros st Est; unfold material_names; now rewrite Est).
  assert (Hgo : forall nm : string,
    (v <- screen_entry o cont_name img24 s1 (lower nm) ;;
     match v with
     | Skip s2 => Ok (wad1, s2)
     | Build s2 =>
         ' (s3, img, emit) <- build_images o e file_name img24 s2 l (lower nm) ;;
         frame <- is_frame_name (lower nm) ;;
         (if frame
          then
           seq_name <- seq_name_of (lower nm) ;;
           s4 <- stash_frame o seq_name img emit s3 ;; Ok (wad1, s4)
          else
           Ok (wad1,
               with_bpy s3
                 (new_material o e cont_name (lower nm) img emit (bpy s3))))
     end) = Ok (wad', s') ->
    material_names (bpy s') = material_names (bpy s) \/
    (exists name, ~ In name (material_names (bpy s)) /\
       material_names (bpy s') = material_names (bpy s) ++ [name])).
  { clear H. intros nm H. bind_inv H as v Hscreen.
    apply screen_entry_cases in Hscreen as [[-> Hex] | [s2 [-> [Hnames _]]]].
    - bind_inv H as [[s3 img] emit] Hbuild.
      apply build_images_materials in Hbuild as [Hb _].
      bind_inv H as frame Hframe. destruct frame.
      + bind_inv H as seq_name Hseq. bind_inv H as s4 Hstash.
        injection H as _ <-. left.
        apply stash_frame_bpy in Hstash. rewrite Hstash. apply Hn. congruence.
      + injection H as _ <-. right. exists (lower nm). split.
        * rewrite <- (Hn s1 Hm). intros Hin.
          apply material_exists_In in Hin. congruence.
        * cbn [bpy with_bpy]. rewrite new_material_names. f_equal.
          apply Hn. congruence.
    - injection H as _ <-. left. rewrite Hnames. now apply Hn. }
  destruct l as [n | n size pixels | n].
  - exact (Hgo n H).
  - exact (Hgo n H).
  - injection H as _ <-. left. now apply Hn.
Qed.

Lemma foldM_invariant {A S} (P : S -> Prop) (f : S -> A -> result S) :
  (forall s x s', P s -> f s x = Ok s' -> P s') ->
  forall (l : list A) (s s' : S), P s -> foldM f l s = Ok s' -> P s'.
Proof.
  intros Hstep. induction l as [| x l IH]; intros s s' Hs; simpl.
  - intros H. now injection H as <-.
  - destruct (f s x) as [s1 |] eqn:Hf; simpl; [| discriminate].
    apply IH. now apply (Hstep s x).
Qed.

(** No two materials of the registry have the same name. *)
Definition unique_names (b : bdata) : Prop := NoDup (material_names b).

Lemma unique_names_step (names names' : list string) :
  NoDup names ->
  names' = names \/
  (exists name, ~ In name names /\ names' = names ++ [name]) ->
  NoDup names'.
Proof.
  intros Hnd [-> | [name [Hnew ->]]]; [exact Hnd |].
  apply NoDup_app; [exact Hnd | repeat constructor; auto | ].
  intros a Ha [<- | []]. contradiction.
Qed.

Lemma read_directory_materials o e file_name f wad s wad' s' kind :
  read_directory o e file_name f wad s = Ok (wad', s', kind) ->
  materials (bpy s') = materials (bpy s).
Proof.
  unfold read_directory. intros H. bind_inv H as [sig wad1] Hsig.
  destruct (bytes_eqb sig sig_WAD2).
  { repeat (bind_ok H; split_pairs). now injection H as _ <- _. }
  destruct (bytes_eqb sig sig_BSP2 || bytes_eqb sig sig_29).
  { repeat (bind_ok H; split_pairs). now injection H as _ <- _. }
  unfold load_image, add_image in H.
  destruct (f_depth f =? 0); now injection H as _ <- _.
Qed.

Lemma process_file_unique o e s file_name s' :
  unique_names (bpy s) ->
  process_file o e s file_name = Ok s' ->
  unique_names (bpy s').
Proof.
  intros Hs. unfold process_file.
  destruct (assoc _ (fs e)) as [f |]; [| discriminate].
  intros H. bind_inv H as [[wad1 s1] kind] Hdir.
  apply read_directory_materials in Hdir.
  assert (Hs1 : unique_names (bpy s1))
    by (unfold unique_names, material_names in *; now rewrite Hdir).
  assert (Hloop : forall img24 cont_name entries (s2 : state),
             unique_names (bpy s2) ->
             forall r, foldM (process_entry o e file_name cont_name img24)
                             entries (wad1, s2) = Ok r ->
                       unique_names (bpy (snd r))).
  { intros img24 cont_name entries s2 Hs2 r Hr.
    refine (foldM_invariant (fun ws => unique_names (bpy (snd ws))) _ _
                            entries (wad1, s2) r Hs2 Hr).
    intros [w a] x [w' a'] Ha Hx. simpl in *.
    apply process_entry_names in Hx.
    now apply (unique_names_step _ _ Ha). }
  assert (Hcont : forall cont_name (s2 : state),
             unique_names (bpy s2) ->
             unique_names
               (bpy (if option_cont o
                     then with_bpy s2 (add_container cont_name (bpy s2))
                     else s2))).
  { intros cont_name s2 Hs2. destruct (option_cont o); [| exact Hs2].
    unfold add_container. cbn [bpy with_bpy].
    destruct (object_exists cont_name (bpy s2)); exact Hs2. }
  destruct kind as [entries | img24 entries |].
  - cbn [is_some bind] in H.
    bind_inv H as [w2 s2] Hfold. injection H as <-.
    exact (Hloop _ _ _ _ (Hcont _ _ Hs1) _ Hfold).
  - cbn [is_some] in H. bind_inv H as cont_name Hcn.
    bind_inv H as [w2 s2] Hfold. injection H as <-.
    exact (Hloop _ _ _ _ (Hcont _ _ Hs1) _ Hfold).
  - now injection H as <-.
Qed.

Lemma import_files_unique o e s s' :
  unique_names (bpy s) ->
  import_files o e s = Ok s' ->
  unique_names (bpy s').
Proof.
  unfold import_files. intros Hs.
  apply (foldM_invariant (fun st => unique_names (bpy st))); [| exact Hs].
  intros s1 x s2. apply process_file_unique.
Qed.

Lemma chain_first_names o a seq_name frames (ms : list material) :
  map mat_name (chain_first o a seq_name frames ms) = map mat_name ms.
Proof.
  induction ms as [| m ms IH]; simpl; [reflexivity |].
  destruct (String.eqb (mat_name m) seq_name).
  - destruct (mat_frames m); reflexivity.
  - simpl. now rewrite IH.
Qed.

Lemma make_noodles_post_names o (a : list (string * list image)) (b : bdata) :
  material_names (make_noodles_post o a b) = material_names b.
Proof.
  unfold make_noodles_post. generalize a at 1. intros a0.
  revert b. induction a as [| kv a IH]; intros b; simpl; [reflexivity |].
  rewrite IH. unfold material_names. simpl. apply chain_first_names.
Qed.

Lemma execute_unique o e b b' :
  unique_names b -> execute o e b = Ok b' -> unique_names b'.
Proof.
  intros Hb. unfold execute. intros H. bind_inv H as s Himp.
  apply (import_files_unique o e (initial_state b) s Hb) in Himp.
  destruct (option_seq o); injection H as <-; [| exact Himp].
  unfold unique_names. now rewrite make_noodles_post_names.
Qed.

Lemma find_material_exists (name : string) (b : bdata) (m : material) :
  find_material name b = Some m -> material_exists name b = true.
Proof.
  unfold find_material, material_exists. intros H.
  apply find_some in H as [Hin Hname].
  apply existsb_exists. eauto.
Qed.

Lemma find_material_new (name : string) (ms : list material) (m : material) :
  existsb (fun m0 => String.eqb (mat_name m0) name) ms = false ->
  mat_name m = name ->
  find (fun m0 => String.eqb (mat_name m0) name) (ms ++ [m]) = Some m.
Proof.
  intros Hnone Hm. induction ms as [| m0 ms IH]; simpl in *.
  - now rewrite Hm, String.eqb_refl.
  - apply orb_false_elim in Hnone as [H0 Hms]. rewrite H0. now apply IH.
Qed.

(** Decoding a lump of an archive that is recognised leaves [bpy.data] as
    it is, warnings included. *)
Lemma decode_entry_indexed o e file_name wad s wadentry wad' s' name size pixels :
  decode_entry o e file_name false wad s wadentry
    = Ok (wad', s', Indexed name size pixels) ->
  bpy s' = bpy s /\ anim_seqs s' = anim_seqs s.
Proof.
  unfold decode_entry. intros H.
  bind_ok H. bind_ok H. bind_ok H. bind_ok H. cbv iota in H.
  destruct (String.eqb _ "CONCHARS").
  { bind_ok H. split_pairs. injection H as _ <- _. now split. }
  destruct (String.eqb _ "CONBACK").
  { bind_ok H. split_pairs. injection H as _ <- _. now split. }
  destruct (pyval_eqb _ type_D).
  { repeat (bind_ok H; split_pairs). injection H as _ <- _. now split. }
  destruct (pyval_eqb _ type_B).
  { repeat (bind_ok H; split_pairs). injection H as _ <- _. now split. }
  destruct (pyval_eqb _ type_at).
  - repeat (bind_ok H; split_pairs). injection H as _ <- _. now split.
  - discriminate.
Qed.

(** A frame name that is no material goes through the loop body without a
    change to the materials. *)
Lemma screen_entry_frame o cont_name img24 s name v :
  material_exists name (bpy s) = false ->
  is_frame_name name = Ok true ->
  screen_entry o cont_name img24 s name = Ok v ->
  v = Build s \/
  exists s', v = Skip s' /\ materials (bpy s') = materials (bpy s).
Proof.
  intros Hnew Hframe. unfold screen_entry. rewrite Hnew, Hframe. cbn [bind].
  destruct (negb (option_seq o)); cbn [bind].
  { intros H. injection H as <-. right. eauto. }
  destruct (seq_name_of name) as [key |]; cbn [bind]; [| discriminate].
  destruct (already_stashed name key s); cbn [bind].
  { intros H. injection H as <-. right. eexists. split; [reflexivity |].
    now destruct img24. }
  destruct (is_some img24 && endswith name (emit_suffix o));
    intros H; injection H as <-; [right | now left].
  eexists. split; [reflexivity |]. now destruct img24.
Qed.

(** C7, as the code has it.  The registry never holds two materials of one
    name, whatever the batch.  A recognised lump of an archive whose
    lowercased name is already a material that is marked as an asset (as
    every material is that an import with asset marking creates) is not
    built again - no image is created, nothing is stashed, no material is
    added, and the pixel bytes that were read are not converted: it only
    appends the file's container tag to the tags of the existing material
    and, when containers are on, the material to the container of the file.
    A lump whose name is new and is not a sequence frame adds the one
    material of that name, tagged with its file when asset marking is on.
    A lump whose name is a sequence frame and is no material leaves the
    materials and their tags as they are; when sequences are on and a frame
    of that name is stashed already, it changes nothing at all. *)
Theorem duplicate_name_is_tagged_not_rebuilt :
  forall o e,
    (forall b b', unique_names b -> execute o e b = Ok b' -> unique_names b') /\
    (forall file_name cont_name wad s wadentry wad' s1 l m tags,
       decode_entry o e file_name false wad s wadentry = Ok (wad', s1, l) ->
       (forall n, l <> Unrecognized n) ->
       find_material (lower (lump_name l)) (bpy s) = Some m ->
       mat_tags m = Some tags ->
       exists s2,
         process_entry o e file_name cont_name None (wad, s) wadentry
           = Ok (wad', s2) /\
         images (bpy s2) = images (bpy s) /\
         anim_seqs s2 = anim_seqs s /\
         material_names (bpy s2) = material_names (bpy s) /\
         find_material (lower (lump_name l)) (bpy s2)
           = Some (tagged cont_name m) /\
         mat_tags (tagged cont_name m) = Some (tags ++ [cont_name]) /\
         (forall other, other <> lower (lump_name l) ->
            find_material other (bpy s2) = find_material other (bpy s)) /\
         objects (bpy s2)
         = (if option_cont o
            then append_to_first cont_name (lower (lump_name l))
                                 (objects (bpy s))
            else objects (bpy s))) /\
    (forall file_name cont_name wad s wadentry wad' s1 name size pixels bufs,
       decode_entry o e file_name false wad s wadentry
         = Ok (wad', s1, Indexed name size pixels) ->
       material_exists (lower name) (bpy s) = false ->
       is_frame_name (lower name) = Ok false ->
       convert (option_luma o) (lower name) (palette s1) size pixels = Ok bufs ->
       exists s2 m,
         process_entry o e file_name cont_name None (wad, s) wadentry
           = Ok (wad', s2) /\
         material_names (bpy s2) = material_names (bpy s) ++ [lower name] /\
         find_material (lower name) (bpy s2) = Some m /\
         mat_tags m = (if option_assets o && version_gt (app_version e) (3, 0, 0)
                       then Some [cont_name] else None)) /\
    (forall file_name cont_name img24 wad s wadentry wad1 s1 l wad' s',
       decode_entry o e file_name (is_some img24) wad s wadentry
         = Ok (wad1, s1, l) ->
       material_exists (lower (lump_name l)) (bpy s) = false ->
       is_frame_name (lower (lump_name l)) = Ok true ->
       process_entry o e file_name cont_name img24 (wad, s) wadentry
         = Ok (wad', s') ->
       materials (bpy s') = materials (bpy s)) /\
    (forall file_name cont_name wad s wadentry wad' s1 name size pixels key,
       decode_entry o e file_name false wad s wadentry
         = Ok (wad', s1, Indexed name size pixels) ->
       material_exists (lower name) (bpy s) = false ->
       is_frame_name (lower name) = Ok true ->
       option_seq o = true ->
       seq_name_of (lower name) = Ok key ->
       already_stashed (lower name) key s = true ->
       process_entry o e file_name cont_name None (wad, s) wadentry
         = Ok (wad', s1) /\
       bpy s1 = bpy s /\ anim_seqs s1 = anim_seqs s).
Proof.
  intros o e. split; [| split; [| split; [| split]]].
  - intros b b'. apply execute_unique.
  - intros file_name cont_name wad s wadentry wad' s1 l m tags
           Hdec Hrec Hfind Htags.
    destruct (decode_entry_bpy _ _ _ _ _ _ _ _ _ _ Hdec)
      as [Hm [Hi [Hob [_ Ha]]]].
    assert (Hfind1 : find_material (lower (lump_name l)) (bpy s1) = Some m)
      by (unfold find_material in *; now rewrite Hm).
    destruct (tag_first_found _ cont_name _ _ _ Hfind1 Htags) as [ms' Htag].
    unfold find_material in Hfind1.
    destruct (tag_first_spec _ _ _ _ Htag) as [Hnames [Hnew Hother]].
    assert (Hres : exists s2,
               screen_entry o cont_name None s1 (lower (lump_name l))
                 = Ok (Skip s2) /\
               images (bpy s2) = images (bpy s1) /\
               anim_seqs s2 = anim_seqs s1 /\
               materials (bpy s2) = ms' /\
               objects (bpy s2)
               = (if option_cont o
                  then append_to_first cont_name (lower (lump_name l))
                                       (objects (bpy s1))
                  else objects (bpy s1))).
    { unfold screen_entry.
      rewrite (find_material_exists _ _ _ Hfind1). unfold tag_material.
      destruct (option_cont o); cbn [materials container_append set_objects];
        rewrite Htag; cbn [bind]; eexists; repeat split; reflexivity. }
    destruct Hres as [s2 [Hscreen [Hi2 [Ha2 [Hm2 Hob2]]]]].
    exists s2. split.
    { unfold process_entry. cbn [is_some]. rewrite Hdec. cbn [bind].
      destruct l as [n | n size pixels | n];
        try (exfalso; apply (Hrec n); reflexivity);
        rewrite Hscreen; reflexivity. }
    split; [congruence | split; [congruence |
      split; [| split; [| split; [| split]]]]].
    + unfold material_names. rewrite Hm2, Hnames. now rewrite Hm.
    + unfold find_material. rewrite Hm2. now apply Hnew.
    + unfold tagged. cbn [mat_tags]. now rewrite Htags.
    + intros other Hne. unfold find_material.
      rewrite Hm2, (Hother other Hne). now rewrite Hm.
    + rewrite Hob2. now rewrite Hob.
  - intros file_name cont_name wad s wadentry wad' s1 name size pixels bufs
           Hdec Hnew Hframe Hconv.
    destruct (decode_entry_bpy _ _ _ _ _ _ _ _ _ _ Hdec) as [Hm _].
    assert (Hnew1 : material_exists (lower name) (bpy s1) = false)
      by (unfold material_exists in *; now rewrite Hm).
    unfold process_entry. cbn [is_some]. rewrite Hdec. cbn [bind lump_name].
    unfold screen_entry. rewrite Hnew1, Hframe. cbn [bind is_some andb].
    destruct (build_images_indexed o e file_name s1 name size pixels
                (lower name) bufs Hconv) as [s3 [img [emit Hbuild]]].
    rewrite Hbuild. cbn [bind].
    apply build_images_materials in Hbuild as [Hm3 _].
    unfold material_exists in Hnew1. rewrite <- Hm3 in Hnew1.
    eexists. eexists. split; [reflexivity |].
    cbn [bpy with_bpy]. rewrite new_material_names.
    split; [unfold material_names; now rewrite Hm3, Hm |].
    unfold find_material, new_material.
    split.
    + destruct (option_cont o);
        cbn [materials container_append set_objects set_materials];
        apply find_material_new; [exact Hnew1 | reflexivity
                                 | exact Hnew1 | reflexivity].
    + reflexivity.
  - intros file_name cont_name img24 wad s wadentry wad1 s1 l wad' s'
           Hdec Hnew Hframe Hproc.
    destruct (decode_entry_bpy _ _ _ _ _ _ _ _ _ _ Hdec) as [Hm _].
    assert (Hnew1 : material_exists (lower (lump_name l)) (bpy s1) = false)
      by (unfold material_exists in *; now rewrite Hm).
    unfold process_entry in Hproc. rewrite Hdec in Hproc. cbn [bind] in Hproc.
    assert (Hrest :
              (v <- screen_entry o cont_name img24 s1 (lower (lump_name l)) ;;
               match v with
               | Skip s2 => Ok (wad1, s2)
               | Build s2 =>
                   '(s3, img, emit) <-
                     build_images o e file_name img24 s2 l
                                  (lower (lump_name l)) ;;
                   frame <- is_frame_name (lower (lump_name l)) ;;
                   if frame then
                     seq_name <- seq_name_of (lower (lump_name l)) ;;
                     s4 <- stash_frame o seq_name img emit s3 ;;
                     Ok (wad1, s4)
                   else
                     Ok (wad1,
                         with_bpy s3
                           (new_material o e cont_name (lower (lump_name l))
                                         img emit (bpy s3)))
               end) = Ok (wad', s') ->
              materials (bpy s') = materials (bpy s)).
    { intros H. bind_inv H as v Hv.
      destruct (screen_entry_frame _ _ _ _ _ _ Hnew1 Hframe Hv)
        as [-> | [s2 [-> Hm2]]].
      - bind_inv H as [[s3 img] emit] Hbuild. rewrite Hframe in H.
        cbn [bind] in H. bind_inv H as key Hkey. bind_inv H as s4 Hstash.
        injection H as _ <-.
        apply stash_frame_bpy in Hstash. rewrite Hstash.
        apply build_images_materials in Hbuild as [-> _]. exact Hm.
      - injection H as _ <-. congruence. }
    destruct l as [n | n size pixels | n].
    + exact (Hrest Hproc).
    + exact (Hrest Hproc).
    + injection Hproc as _ <-. exact Hm.
  - intros file_name cont_name wad s wadentry wad' s1 name size pixels key
           Hdec Hnew Hframe Hseq Hkey Hstashed.
    destruct (decode_entry_indexed _ _ _ _ _ _ _ _ _ _ _ Hdec) as [Hb Ha].
    split; [| split; assumption].
    unfold process_entry. cbn [is_some]. rewrite Hdec. cbn [bind lump_name].
    unfold screen_entry. rewrite Hb, Hnew, Hframe. cbn [bind].
    rewrite Hseq, Hkey. cbn [negb bind].
    assert (Hst : already_stashed (lower name) key s1 = true)
      by (unfold already_stashed in *; now rewrite Ha).
    rewrite Hst. cbn [bind remove_loaded]. rewrite <- Hb.
    now destruct s1.
Qed.

(** *** The same name in two archives *)

Definition two_walls_disk : env :=
  disk [("C:\q\a.wad", on_disk wall_wad); ("C:\q\b.wad", on_disk wall_wad)].

Definition two_walls : options := defaults "C:\q\" ["a.wad"; "b.wad"].

Definition tags_of (name : string) (b : bdata) : option (list string) :=
  match find_material name b with
  | Some m => mat_tags m
  | None => None
  end.

(** "WALL1" in both files: one material "wall1", one image, both tags. *)
Example wall1_in_two_files :
  exists b,
    execute two_walls two_walls_disk empty_bdata = Ok b /\
    material_names b = ["wall1"] /\
    map img_name (images b) = ["wall1"] /\
    tags_of "wall1" b = Some ["a.wad"; "b.wad"].
Proof.
  eexists. split; [vm_compute; reflexivity |].
  split; [vm_compute; reflexivity |].
  split; vm_compute; reflexivity.
Qed.

Definition frame_wad : list byte := wad2 [tex "+1WALL" 1 1 [Byte.x00]].

Definition two_frames_disk : env :=
  disk [("C:\q\a.wad", on_disk frame_wad); ("C:\q\b.wad", on_disk frame_wad)].

(** "+1WALL" in both files: the name is a sequence frame, so no material is
    keyed "+1wall", and the second file leaves no tag anywhere - its lump is
    dropped because a frame of that name is stashed already. *)
Lemma same_frame_in_two_files_counterexample :
  exists b,
    execute two_walls two_frames_disk empty_bdata = Ok b /\
    find_material "+1wall" b = None /\
    materials b = [] /\
    map img_name (images b) = ["+1wall"] /\
    objects b = [{| ob_name := "a.wad"; ob_materials := [] |};
                 {| ob_name := "b.wad"; ob_materials := [] |}].
Proof.
  eexists. split; [vm_compute; reflexivity |].
  split; [vm_compute; reflexivity |].
  split; [vm_compute; reflexivity |].
  split; vm_compute; reflexivity.
Qed.

Definition wall_entry : list pyval :=
  [VInt 12; VInt 41; VInt 41; type_D; VBytes [Byte.x00]; VInt 0;
   VBytes (name16 "WALL1")].

(** The state when the first of the two files is done. *)
Definition after_first_wall : state :=
  match import_files (defaults "C:\q\" ["a.wad"]) two_walls_disk
                     (initial_state empty_bdata) with
  | Ok s => s
  | Raise _ => initial_state empty_bdata
  end.

Lemma duplicate_name_is_tagged_not_rebuilt_witness :
  exists wad' s2,
    process_entry two_walls two_walls_disk "b.wad" "b.wad" None
                  (open_bytes wall_wad, after_first_wall) wall_entry
      = Ok (wad', s2) /\
    images (bpy s2) = images (bpy after_first_wall) /\
    material_names (bpy s2) = ["wall1"] /\
    tags_of "wall1" (bpy s2) = Some ["a.wad"; "b.wad"].
Proof.
  destruct (decode_entry two_walls two_walls_disk "b.wad" false
              (open_bytes wall_wad) after_first_wall wall_entry)
    as [[[wad' s1] l] | ex] eqn:Hdec; [| vm_compute in Hdec; discriminate].
  assert (Hl : l = Indexed "WALL1" (1, 1) [Byte.x00]).
  { vm_compute in Hdec. now injection Hdec as _ _ <-. }
  destruct (find_material "wall1" (bpy after_first_wall)) as [m |] eqn:Hm;
    [| vm_compute in Hm; discriminate].
  assert (Htags : mat_tags m = Some ["a.wad"]).
  { vm_compute in Hm. now injection Hm as <-. }
  destruct (proj1 (proj2 (duplicate_name_is_tagged_not_rebuilt
                            two_walls two_walls_disk))
              "b.wad" "b.wad" (open_bytes wall_wad) after_first_wall
              wall_entry wad' s1 l m ["a.wad"] Hdec)
    as [s2 [Hproc [Himgs [_ [Hnames [Hfind [Htagged _]]]]]]].
  - intros n Hn. rewrite Hl in Hn. discriminate.
  - rewrite Hl. exact Hm.
  - exact Htags.
  - exists wad', s2. split; [exact Hproc |].
    split; [exact Himgs |]. split; [rewrite Hnames; reflexivity |].
    unfold tags_of. rewrite Hl in Hfind. cbn [lump_name] in Hfind.
    change (lower "WALL1") with "wall1" in Hfind. rewrite Hfind.
    exact Htagged.
Defined.

(** ** Loose images named like a glow image *)

(** The pseudo-entry of a loose image (line 127). *)
Definition loose_entry : list pyval :=
  [VInt 0; VInt 0; VInt 0; VInt 0; VInt 0; VInt 0; VBytes []].

Lemma decode_entry_loose o e file_name wad s :
  decode_entry o e file_name true wad s loose_entry
  = Ok ({| r_data := r_data wad; r_pos := 0 |},
        with_bpy (with_palette s pal_float)
                 (snd (loose_name o e file_name (bpy s))),
        LooseImage (fst (loose_name o e file_name (bpy s)))).
Proof.
  unfold decode_entry. cbn.
  now destruct (loose_name o e file_name (bpy s)).
Qed.

Lemma is_frame_name_has_key (name : string) :
  is_frame_name name = Ok true -> exists key, seq_name_of name = Ok key.
Proof.
  unfold is_frame_name, seq_name_of.
  destruct (char_at name 0) as [c0 |]; simpl; [| discriminate].
  destruct (Ascii.eqb c0 "+"); [| discriminate].
  destruct (char_at name 1) as [c1 |]; simpl; [eauto | discriminate].
Qed.

(** A loose image whose name ends with the glow suffix is never built. *)
Lemma screen_entry_glow o cont_name img24 s name v :
  endswith name (emit_suffix o) = true ->
  screen_entry o cont_name (Some img24) s name = Ok v ->
  exists s', v = Skip s'.
Proof.
  intros Hglow H. apply screen_entry_cases in H as Hcases.
  destruct Hcases as [[-> Hnew] | [s' [-> _]]]; [| eauto].
  exfalso. revert H. unfold screen_entry. rewrite Hnew.
  destruct (is_frame_name name) as [frame |]; simpl; [| discriminate].
  cbn [is_some andb]. rewrite Hglow.
  destruct frame; simpl; [| discriminate].
  destruct (negb (option_seq o)); simpl; [discriminate |].
  destruct (seq_name_of name); simpl; [| discriminate].
  destruct (already_stashed _ _ _); discriminate.
Qed.

(** It is discarded when its name is not registered and the frame check
    lets it through to line 215 (or finds it stashed). *)
Lemma screen_entry_glow_discards o cont_name img24 s name :
  endswith name (emit_suffix o) = true ->
  material_exists name (bpy s) = false ->
  is_frame_name name = Ok false \/
  (is_frame_name name = Ok true /\ option_seq o = true) ->
  screen_entry o cont_name (Some img24) s name
  = Ok (Skip (with_bpy s (remove_image img24 (bpy s)))).
Proof.
  intros Hglow Hnew Hframe. unfold screen_entry. rewrite Hnew.
  destruct Hframe as [-> | [Hframe Hseq]].
  - cbn [bind is_some andb]. now rewrite Hglow.
  - rewrite Hframe, Hseq. cbn [bind negb].
    destruct (is_frame_name_has_key name Hframe) as [key ->]. cbn [bind].
    destruct (already_stashed name key s); cbn [bind is_some andb];
      [| rewrite Hglow]; reflexivity.
Qed.

(** C9, as the code has it.  A loose image whose derived name ends with the
    glow suffix never becomes a texture: whatever the loop body returns, the
    registry has the same material names, the same stashed sequences and no
    new image.  When no material of that name is registered (and, for a
    frame name, sequences are enabled), the loaded image is removed and
    nothing else changes.  When a material of that name is registered, the
    duplicate check of line 195 comes first: if the material is marked as an
    asset, the file is handled as a duplicate of it - the loaded image
    stays, the container tag is recorded on the material and, when
    containers are on, the material is linked to the container - and if it
    is not, line 198 raises AttributeError.  A frame name that is no
    material, with sequences off, is skipped at line 202 and the loaded
    image stays. *)
Theorem glow_named_image_is_no_texture :
  forall o e file_name cont_name img24 wad s,
    let name := lower (fst (loose_name o e file_name (bpy s))) in
    endswith name (emit_suffix o) = true ->
    (forall wad' s',
       process_entry o e file_name cont_name (Some img24) (wad, s) loose_entry
         = Ok (wad', s') ->
       material_names (bpy s') = material_names (bpy s) /\
       anim_seqs s' = anim_seqs s /\
       incl (images (bpy s')) (images (bpy s))) /\
    (material_exists name (bpy s) = false ->
     is_frame_name name = Ok false \/
     (is_frame_name name = Ok true /\ option_seq o = true) ->
     exists wad' s',
       process_entry o e file_name cont_name (Some img24) (wad, s) loose_entry
         = Ok (wad', s') /\
       images (bpy s') = images (remove_image img24 (bpy s)) /\
       materials (bpy s') = materials (bpy s) /\
       objects (bpy s') = objects (bpy s) /\
       anim_seqs s' = anim_seqs s) /\
    (forall m tags,
       find_material name (bpy s) = Some m ->
       mat_tags m = Some tags ->
       exists wad' s',
         process_entry o e file_name cont_name (Some img24) (wad, s) loose_entry
           = Ok (wad', s') /\
         material_names (bpy s') = material_names (bpy s) /\
         find_material name (bpy s') = Some (tagged cont_name m) /\
         mat_tags (tagged cont_name m) = Some (tags ++ [cont_name]) /\
         images (bpy s') = images (bpy s) /\
         objects (bpy s')
         = (if option_cont o
            then append_to_first cont_name name (objects (bpy s))
            else objects (bpy s))) /\
    (forall m,
       find_material name (bpy s) = Some m ->
       mat_tags m = None ->
       process_entry o e file_name cont_name (Some img24) (wad, s) loose_entry
       = Raise AttributeError) /\
    (material_exists name (bpy s) = false ->
     is_frame_name name = Ok true ->
     option_seq o = false ->
     exists wad' s',
       process_entry o e file_name cont_name (Some img24) (wad, s) loose_entry
         = Ok (wad', s') /\
       images (bpy s') = images (bpy s) /\
       materials (bpy s') = materials (bpy s) /\
       objects (bpy s') = objects (bpy s) /\
       anim_seqs s' = anim_seqs s).
Proof.
  intros o e file_name cont_name img24 wad s name Hglow.
  pose proof (decode_entry_loose o e file_name wad s) as Hdec.
  destruct (decode_entry_bpy _ _ _ _ _ _ _ _ _ _ Hdec)
    as [Hm [Hi [Hob [_ Ha]]]].
  set (s1 := with_bpy (with_palette s pal_float)
                      (snd (loose_name o e file_name (bpy s)))) in *.
  assert (Hproc : process_entry o e file_name cont_name (Some img24) (wad, s)
                                loose_entry
                  = (v <- screen_entry o cont_name (Some img24) s1 name ;;
                     match v with
                     | Skip s2 => Ok ({| r_data := r_data wad; r_pos := 0 |}, s2)
                     | Build s2 =>
                         process_entry o e file_name cont_name (Some img24)
                                       (wad, s) loose_entry
                     end)).
  { unfold process_entry at 1. cbn [is_some]. rewrite Hdec.
    cbn [bind lump_name]. fold name.
    destruct (screen_entry o cont_name (Some img24) s1 name) as [v |] eqn:Hv;
      [| reflexivity].
    destruct (screen_entry_glow _ _ _ _ _ _ Hglow Hv) as [s2 ->].
    reflexivity. }
  split; [| split; [| split; [| split]]].
  - intros wad' s' H. rewrite Hproc in H. bind_inv H as v Hv.
    destruct (screen_entry_glow _ _ _ _ _ _ Hglow Hv) as [s2 ->].
    injection H as _ <-.
    apply screen_entry_cases in Hv as [[Hb _] | [s3 [Hs3 [Hn [Han Hin]]]]];
      [discriminate |].
    injection Hs3 as <-.
    split; [| split].
    + rewrite Hn. unfold material_names. now rewrite Hm.
    + congruence.
    + now rewrite <- Hi.
  - intros Hnew Hframe.
    assert (Hnew1 : material_exists name (bpy s1) = false)
      by (unfold material_exists in *; now rewrite Hm).
    rewrite Hproc, (screen_entry_glow_discards _ _ _ _ _ Hglow Hnew1 Hframe).
    cbn [bind]. eexists. eexists. split; [reflexivity |].
    cbn [bpy with_bpy remove_image images materials objects anim_seqs].
    rewrite Hi. repeat split; assumption.
  - intros m tags Hfind Htags.
    assert (Hfind1 : find_material name (bpy s1) = Some m)
      by (unfold find_material in *; now rewrite Hm).
    destruct (tag_first_found _ cont_name _ _ _ Hfind1 Htags) as [ms' Htag].
    destruct (tag_first_spec _ _ _ _ Htag) as [Hnames [Htagged _]].
    rewrite Hproc. unfold screen_entry.
    rewrite (find_material_exists _ _ _ Hfind1). unfold tag_material.
    destruct (option_cont o); cbn [materials container_append set_objects];
      rewrite Htag; cbn [bind]; eexists; eexists;
      (split; [reflexivity |]);
      unfold material_names, find_material;
      cbn [bpy with_bpy set_materials set_objects container_append
           materials images objects];
      (split; [now rewrite Hnames, Hm |]);
      (split; [now apply Htagged |]);
      (split; [unfold tagged; cbn [mat_tags]; now rewrite Htags |]);
      (split; [exact Hi | now rewrite Hob]).
  - intros m Hfind Htags.
    assert (Hfind1 : find_material name (bpy s1) = Some m)
      by (unfold find_material in *; now rewrite Hm).
    rewrite Hproc. unfold screen_entry.
    rewrite (find_material_exists _ _ _ Hfind1). unfold tag_material.
    unfold find_material in Hfind1.
    destruct (option_cont o); cbn [materials container_append set_objects];
      now rewrite (tag_first_untagged _ cont_name _ _ Hfind1 Htags).
  - intros Hnew Hframe Hseq.
    assert (Hnew1 : material_exists name (bpy s1) = false)
      by (unfold material_exists in *; now rewrite Hm).
    rewrite Hproc. unfold screen_entry. rewrite Hnew1, Hframe, Hseq.
    cbn [bind negb]. eexists. eexists. split; [reflexivity |].
    repeat split; assumption.
Qed.

(** *** A folder with a picture, its glow image and an archive *)

Definition glow_wad : list byte := wad2 [tex "X_LUMA" 1 1 [Byte.x00]].

Definition folder_disk : env :=
  disk [("C:\q\tex\a.wad", on_disk glow_wad);
        ("C:\q\tex\x_luma.png", picture 24);
        ("C:\q\tex\x.png", picture 24)].

Definition folder (fls : list string) : options := defaults "C:\q\tex\" fls.

Definition glow_loaded : image :=
  {| img_id := 0; img_name := "x_luma.png";
     img_source := Loaded "C:\q\tex\x_luma.png" |}.

(** When the archive has registered a material "x_luma", the loose file
    "x_luma.png" is taken for a duplicate of it: the image loaded from the
    file stays in [bpy.data.images], and the folder is recorded on the
    material as a second container. *)
Lemma glow_file_after_same_named_lump_counterexample :
  exists b,
    execute (folder ["a.wad"; "x_luma.png"]) folder_disk empty_bdata = Ok b /\
    In {| img_id := 1; img_name := "x_luma.png";
          img_source := Loaded "C:\q\tex\x_luma.png" |} (images b) /\
    tags_of "x_luma" b = Some ["a.wad"; "tex"] /\
    objects b = [{| ob_name := "a.wad"; ob_materials := ["x_luma"] |};
                 {| ob_name := "tex"; ob_materials := ["x_luma"] |}].
Proof.
  eexists. split; [vm_compute; reflexivity |].
  split; [right; left; reflexivity |].
  split; reflexivity.
Qed.

(** The state in which the loop body finds the file "x_luma.png" when it is
    the only file of the import. *)
Definition glow_state : state :=
  initial_state
    {| materials := []; images := [glow_loaded];
       objects := [{| ob_name := "tex"; ob_materials := [] |}];
       next_id := 1; warnings := [] |}.

Lemma glow_named_image_is_no_texture_witness :
  exists wad' s',
    process_entry (folder ["x_luma.png"]) folder_disk "x_luma.png" "tex"
                  (Some glow_loaded)
                  (open_bytes (f_bytes (picture 24)), glow_state) loose_entry
      = Ok (wad', s') /\
    images (bpy s') = [] /\
    materials (bpy s') = [].
Proof.
  destruct (proj1 (proj2 (glow_named_image_is_no_texture
                            (folder ["x_luma.png"]) folder_disk "x_luma.png"
                            "tex" glow_loaded
                            (open_bytes (f_bytes (picture 24))) glow_state
                            eq_refl))
              eq_refl (or_introl eq_refl))
    as [wad' [s' [Hproc [Himgs [Hmats _]]]]].
  exists wad', s'. split; [exact Hproc |].
  split; [rewrite Himgs | rewrite Hmats]; reflexivity.
Defined.

(** Through [execute]: alone, the glow file leaves no image and no
    material; beside its base picture, it is the emission image of the
    material "x" and nothing of its own. *)
Example glow_file_alone :
  exists b,
    execute (folder ["x_luma.png"]) folder_disk empty_bdata = Ok b /\
    materials b = [] /\ images b = [].
Proof.
  eexists. split; [vm_compute; reflexivity |]. split; reflexivity.
Qed.

Example glow_file_beside_its_base :
  exists b m glow,
    execute (folder ["x.png"; "x_luma.png"]) folder_disk empty_bdata = Ok b /\
    materials b = [m] /\
    mat_name m = "x" /\
    mat_emission m = Some glow /\
    img_source glow = Loaded "C:\q\tex\x_luma.png" /\
    map img_name (images b) = ["x"; "x_luma"].
Proof.
  do 3 eexists. split; [vm_compute; reflexivity |].
  split; [reflexivity |]. split; [reflexivity |].
  split; [reflexivity |]. split; reflexivity.
Qed.

(** * Further properties of the importer *)

(** ** The classifier: success, value range, options *)

Lemma foldM_raises {A S} (f : S -> A -> result S) (E : exn) :
  (forall s x e, f s x = Raise e -> e = E) ->
  forall (l : list A) (s : S) (e : exn), foldM f l s = Raise e -> e = E.
Proof.
  intros Hf. induction l as [| x l IH]; intros s e; simpl; [discriminate |].
  destruct (f s x) as [s1 |] eqn:Hx; simpl.
  - apply IH.
  - intros H. injection H as <-. now apply (Hf s x).
Qed.

(** When a fold returns, every element met a state in which its step
    returned. *)
Lemma foldM_ok_steps {A S} (f : S -> A -> result S) (l : list A) :
  forall s s', foldM f l s = Ok s' ->
  forall x, In x l -> exists s1 s2, f s1 x = Ok s2.
Proof.
  induction l as [| y l IH]; intros s s' H x Hx; [contradiction |].
  simpl in H. destruct (f s y) as [s1 |] eqn:Hy; simpl in H; [| discriminate].
  destruct Hx as [<- | Hx]; [eauto | eapply IH; eauto].
Qed.

Lemma item_raises {A} (l : list A) (i : Z) (e : exn) :
  item l i = Raise e -> e = IndexError.
Proof.
  unfold item. destruct (i <? 0); [congruence |].
  destruct (nth_error l (Z.to_nat i)); congruence.
Qed.

Lemma item_in_bounds {A} (l : list A) (i : Z) (x : A) :
  item l i = Ok x -> 0 <= i < len l.
Proof.
  unfold item. destruct (Z.ltb_spec i 0); [discriminate |].
  destruct (nth_error l (Z.to_nat i)) eqn:E; [| discriminate].
  intros _. assert (Hlt : (Z.to_nat i < List.length l)%nat)
    by (apply nth_error_Some; congruence).
  unfold len. lia.
Qed.

Lemma convert_pixel_raises luma name palette size pixels row bufs clm e :
  convert_pixel luma name palette size pixels row bufs clm = Raise e ->
  e = IndexError.
Proof.
  unfold convert_pixel.
  destruct (item pixels _) as [px |] eqn:Hpx; simpl;
    [| intros H; injection H as <-; eapply item_raises; eauto].
  unfold pixel_alpha. destruct (negb (byte_val px =? 255)); simpl.
  - destruct (_ || _); discriminate.
  - unfold char_at. destruct (item (chars name) 0) eqn:Hc; simpl.
    + destruct (_ || _); discriminate.
    + intros H. injection H as <-. eapply item_raises; eauto.
Qed.

Lemma convert_raises luma name palette size pixels e :
  convert luma name palette size pixels = Raise e -> e = IndexError.
Proof.
  unfold convert. apply foldM_raises. intros bufs row e0.
  unfold convert_row. apply foldM_raises. intros bufs1 clm e1.
  apply convert_pixel_raises.
Qed.

Lemma in_range_iff (n i : Z) : In i (range n) <-> 0 <= i < n.
Proof.
  split; [apply in_range |]. intros Hi. unfold range.
  apply in_map_iff. exists (Z.to_nat i). split; [lia |].
  apply in_seq. lia.
Qed.

(** When the conversion returns, every index the loops computed was inside
    the pixel bytes. *)
Lemma convert_reads_in_bounds luma name palette w h pixels bufs r c :
  convert luma name palette (w, h) pixels = Ok bufs ->
  0 <= r < h -> 0 <= c < w -> r * w + c < len pixels.
Proof.
  intros Hconv Hr Hc. unfold convert in Hconv. simpl snd in Hconv.
  destruct (foldM_ok_steps _ _ _ _ Hconv r) as [b1 [b2 Hrow]].
  { apply -> in_rev. now apply in_range_iff. }
  unfold convert_row in Hrow. simpl fst in Hrow.
  destruct (foldM_ok_steps _ _ _ _ Hrow c) as [b3 [b4 Hpix]].
  { now apply in_range_iff. }
  unfold convert_pixel in Hpix. simpl fst in Hpix.
  destruct (item pixels (r * w + c)) as [px |] eqn:Hpx; [| discriminate].
  apply item_in_bounds in Hpx. lia.
Qed.

(** X1.  For a texture with a name, the conversion returns exactly when the
    lump holds at least [width * height] index bytes; with fewer, the first
    index past the end raises IndexError and no image is made. *)
Theorem convert_needs_all_indices :
  forall luma name palette w h pixels,
    0 <= w -> 0 <= h -> name <> "" ->
    ((exists bufs, convert luma name palette (w, h) pixels = Ok bufs) <->
     w * h <= len pixels) /\
    (len pixels < w * h ->
     convert luma name palette (w, h) pixels = Raise IndexError).
Proof.
  intros luma name palette w h pixels Hw Hh Hname.
  assert (Hshort : len pixels < w * h ->
                   forall bufs, convert luma name palette (w, h) pixels
                                <> Ok bufs).
  { intros Hlen bufs Hconv.
    assert (Hpos : 0 <= len pixels) by (unfold len; lia).
    assert (Hw1 : 0 < w) by nia. assert (Hh1 : 0 < h) by nia.
    pose proof (convert_reads_in_bounds _ _ _ _ _ _ _ (h - 1) (w - 1) Hconv)
      as Hin.
    assert (Hr : 0 <= h - 1 < h) by lia.
    assert (Hc : 0 <= w - 1 < w) by lia.
    specialize (Hin Hr Hc). nia. }
  split.
  - split.
    + intros [bufs Hconv]. destruct (Z.le_gt_cases (w * h) (len pixels));
        [assumption |]. exfalso. now apply (Hshort H bufs).
    + intros Hlen. now apply convert_total.
  - intros Hlen.
    destruct (convert luma name palette (w, h) pixels) as [bufs | e] eqn:Hconv.
    + exfalso. now apply (Hshort Hlen bufs).
    + now rewrite (convert_raises _ _ _ _ _ _ Hconv).
Qed.

Lemma convert_needs_all_indices_witness :
  convert false "metal1" pal_float (2, 2) [Byte.x00; Byte.xe6; Byte.xff]
  = Raise IndexError.
Proof.
  apply (proj2 (convert_needs_all_indices false "metal1" pal_float 2 2
                  [Byte.x00; Byte.xe6; Byte.xff]
                  ltac:(lia) ltac:(lia) ltac:(discriminate))).
  unfold len. simpl. lia.
Defined.

(** A channel that stands for a number between 0 and 1. *)
Definition unit_chan (c : chan) : Prop := 0 <= chan_x255 c <= 255.

Definition unit_bufs (bufs : pixbufs) : Prop :=
  Forall unit_chan (pix_rgba bufs) /\ Forall unit_chan (pix_emit bufs).

Lemma unit_black : Forall unit_chan black.
Proof.
  unfold black. repeat (constructor; [unfold unit_chan; simpl; lia |]).
  constructor.
Qed.

Lemma unit_repeat_black (n : nat) : Forall unit_chan (repeat_list black n).
Proof.
  induction n as [| n IH]; cbn [repeat_list]; [constructor |].
  apply Forall_app. split; [apply unit_black | exact IH].
Qed.

Lemma in_firstn_in {A} (n : nat) (l : list A) (x : A) :
  In x (firstn n l) -> In x l.
Proof.
  intros H. rewrite <- (firstn_skipn n l). apply in_or_app. now left.
Qed.

Lemma in_skipn_in {A} (n : nat) (l : list A) (x : A) :
  In x (skipn n l) -> In x l.
Proof.
  intros H. rewrite <- (firstn_skipn n l). apply in_or_app. now right.
Qed.

Lemma unit_slice (palette : list chan) (i j : Z) :
  Forall unit_chan palette -> Forall unit_chan (slice palette i j).
Proof.
  intros Hp. unfold slice. apply Forall_forall. intros x Hx.
  apply in_firstn_in, in_skipn_in in Hx.
  rewrite Forall_forall in Hp. now apply Hp.
Qed.

Lemma unit_bool (b : bool) : Forall unit_chan [PyBool b].
Proof.
  constructor; [| constructor]. unfold unit_chan. destruct b; simpl; lia.
Qed.

Lemma convert_pixel_unit luma name palette size pixels row bufs clm bufs' :
  Forall unit_chan palette ->
  unit_bufs bufs ->
  convert_pixel luma name palette size pixels row bufs clm = Ok bufs' ->
  unit_bufs bufs'.
Proof.
  intros Hpal [Hrgba Hemit]. unfold convert_pixel.
  destruct (item pixels _) as [px |]; simpl; [| discriminate].
  destruct (pixel_alpha name (byte_val px)) as [alpha |]; simpl;
    [| discriminate].
  pose proof (unit_slice palette (byte_val px * 3) (byte_val px * 3 + 3) Hpal)
    as Hcolor.
  pose proof (unit_bool alpha) as Halpha. pose proof unit_black as Hblack.
  destruct (_ || _); intros H; injection H as <-; split; simpl.
  - repeat (apply Forall_app; split); assumption.
  - destruct (truthy (pix_emit bufs)); [apply Forall_app; split |];
      assumption.
  - destruct luma; repeat (apply Forall_app; split); assumption.
  - repeat (apply Forall_app; split); try assumption.
    destruct (negb (truthy (pix_emit bufs)));
      [apply unit_repeat_black | assumption].
Qed.

Lemma convert_unit luma name palette size pixels bufs :
  Forall unit_chan palette ->
  convert luma name palette size pixels = Ok bufs ->
  unit_bufs bufs.
Proof.
  intros Hpal. unfold convert.
  apply (foldM_invariant unit_bufs); [| split; constructor].
  intros b1 row b2 Hb1. unfold convert_row.
  apply (foldM_invariant unit_bufs); [| exact Hb1].
  intros b3 clm b4. now apply convert_pixel_unit.
Qed.

Lemma le_unsigned_bound (bs : list byte) :
  0 <= le_unsigned bs < 256 ^ len bs.
Proof.
  unfold len. induction bs as [| b bs IH]; unfold le_unsigned.
  - simpl. lia.
  - pose proof (byte_val_range b) as Hb.
    cbn [List.length fold_right]. rewrite Nat2Z.inj_succ, Z.pow_succ_r by lia.
    fold (le_unsigned bs). nia.
Qed.

Lemma unpack_bytes_unit (n : nat) (bs : list byte) (rgbs : list Z) :
  as_ints (unpack_fields (repeat FB n) bs) = Ok rgbs ->
  Forall unit_chan (map Div255 rgbs).
Proof.
  revert bs rgbs. induction n as [| n IH]; intros bs rgbs;
    cbn [repeat unpack_fields unpack_field as_ints as_int bind field_size].
  - intros H. injection H as <-. constructor.
  - destruct (as_ints (unpack_fields (repeat FB n) (skipn 1 bs)))
      as [zs |] eqn:Hzs; cbn [bind]; [| discriminate].
    intros H. injection H as <-. cbn [map].
    constructor; [| now apply (IH _ _ Hzs)].
    unfold unit_chan. cbn [chan_x255].
    destruct bs as [| a bs']; unfold le_unsigned; cbn [firstn fold_right];
      [lia | pose proof (byte_val_range a); lia].
Qed.

Lemma unpack_ok_fields (fmt : list field) (bs : list byte) (vs : list pyval) :
  unpack fmt bs = Ok vs -> vs = unpack_fields fmt bs.
Proof.
  unfold unpack. destruct (Nat.eqb _ _); [| discriminate].
  intros H. now injection H as <-.
Qed.

Lemma unit_pal_float : Forall unit_chan pal_float.
Proof.
  unfold pal_float. apply Forall_forall. intros c Hc.
  apply in_map_iff in Hc as [z [<- Hz]]. unfold unit_chan. simpl.
  assert (Hall : forallb (fun z => (0 <=? z) && (z <=? 255)) quake1palette
                 = true) by (vm_compute; reflexivity).
  rewrite forallb_forall in Hall. apply Hall in Hz.
  apply andb_prop in Hz as [H0 H1]. lia.
Qed.

(** X2.  Whatever palette a lump is decoded with - the default one or the
    768 bytes of a palette lump - every channel of the colour buffer and of
    the emission buffer stands for a number between 0 and 1. *)
Theorem generated_channels_in_unit_interval :
  forall o e file_name loose wad s wadentry wad' s' name size pixels luma nm
         bufs,
    decode_entry o e file_name loose wad s wadentry
      = Ok (wad', s', Indexed name size pixels) ->
    convert luma nm (palette s') size pixels = Ok bufs ->
    Forall unit_chan (palette s') /\
    Forall unit_chan (pix_rgba bufs) /\
    Forall unit_chan (pix_emit bufs).
Proof.
  intros o e file_name loose wad s wadentry wad' s' name size pixels luma nm
         bufs Hdec Hconv.
  assert (Hpal : Forall unit_chan (palette s')).
  { revert Hdec. unfold decode_entry. intros H.
    bind_ok H. bind_ok H. bind_ok H. bind_ok H.
    destruct loose.
    { destruct (loose_name o e file_name _). discriminate. }
    destruct (String.eqb _ "CONCHARS").
    { bind_ok H. split_pairs. injection H as _ <- _ _ _. apply unit_pal_float. }
    destruct (String.eqb _ "CONBACK").
    { bind_ok H. split_pairs. injection H as _ <- _ _ _. apply unit_pal_float. }
    destruct (pyval_eqb _ type_D).
    { repeat (bind_ok H; split_pairs). injection H as _ <- _ _ _.
      apply unit_pal_float. }
    destruct (pyval_eqb _ type_B).
    { repeat (bind_ok H; split_pairs). injection H as _ <- _ _ _.
      apply unit_pal_float. }
    destruct (pyval_eqb _ type_at); [| discriminate].
    bind_inv H as [raw wad1] Hread. bind_inv H as newpal Hunpack.
    bind_inv H as rgbs Hints. injection H as _ <- _ _ _.
    cbn [palette with_palette].
    rewrite (unpack_ok_fields _ _ _ Hunpack) in Hints.
    exact (unpack_bytes_unit 768 raw rgbs Hints). }
  destruct (convert_unit _ _ _ _ _ _ Hpal Hconv) as [Hr He].
  now repeat split.
Qed.

Lemma generated_channels_in_unit_interval_witness :
  exists bufs,
    convert false "tex" pal_float (1, 1) [Byte.x00] = Ok bufs /\
    Forall unit_chan (pix_rgba bufs).
Proof.
  destruct (decode_entry (defaults "C:\q\" ["pal.wad"])
              (disk [("C:\q\pal.wad", on_disk palette_wad)]) "pal.wad"
              false (open_bytes palette_wad) (initial_state empty_bdata)
              tex_entry_after_palette)
    as [[[wad' s'] l] | ex] eqn:Hdec; [| vm_compute in Hdec; discriminate].
  assert (Hl : l = Indexed "TEX" (1, 1) [Byte.x00]).
  { vm_compute in Hdec. now injection Hdec as _ _ <-. }
  assert (Hp : palette s' = pal_float).
  { vm_compute in Hdec. now injection Hdec as _ <- _. }
  subst l.
  destruct (convert false "tex" (palette s') (1, 1) [Byte.x00])
    as [bufs |] eqn:Hconv; [| rewrite Hp in Hconv; vm_compute in Hconv;
                              discriminate].
  destruct (generated_channels_in_unit_interval _ _ _ _ _ _ _ _ _ _ _ _ _ _ _
              Hdec Hconv) as [_ [Hrgba _]].
  exists bufs. rewrite <- Hp. split; [exact Hconv | exact Hrgba].
Defined.

(** X3.  The option "Cut out luma" changes the colour buffer only: with
    the option on and with it off, the conversion of the same lump yields
    the same emission buffer, and the two colour buffers have the same
    length and agree at every position whose pixel does not glow. *)
Theorem cut_out_luma_leaves_emission_alone :
  forall name palette w h pixels cut keep,
    List.length palette = 768%nat ->
    0 <= w ->
    convert true name palette (w, h) pixels = Ok cut ->
    convert false name palette (w, h) pixels = Ok keep ->
    pix_emit cut = pix_emit keep /\
    List.length (pix_rgba cut) = List.length (pix_rgba keep) /\
    (forall r c, 0 <= r < h -> 0 <= c < w ->
       glows name (px_at pixels (r * w + c)) = false ->
       quad_at (pix_rgba cut) ((h - 1 - r) * w + c)
       = quad_at (pix_rgba keep) ((h - 1 - r) * w + c)).
Proof.
  intros name palette w h pixels cut keep Hpal Hw Hcut Hkeep.
  destruct (convert_buffers _ _ _ _ _ _ _ Hw Hcut) as [Hrc Hec].
  destruct (convert_buffers _ _ _ _ _ _ _ Hw Hkeep) as [Hrk Hek].
  split; [| split].
  - destruct Hec as [[Hc Hnone] | [_ [Hc Hsome]]],
             Hek as [[Hk Hnone'] | [_ [Hk Hsome']]]; try congruence.
    + exfalso. apply existsb_exists in Hsome' as [v [Hv Hg]].
      rewrite forallb_forall in Hnone. apply Hnone in Hv.
      rewrite Hg in Hv. discriminate.
    + exfalso. apply existsb_exists in Hsome as [v [Hv Hg]].
      rewrite forallb_forall in Hnone'. apply Hnone' in Hv.
      rewrite Hg in Hv. discriminate.
  - rewrite Hrc, Hrk.
    rewrite !(flat_map_length_const _ 4); [reflexivity | |];
      intros x Hx; apply rgba_quad_length; eauto using visited_bytes.
  - intros r c Hr Hc Hg.
    destruct (convert_quads _ _ _ _ _ _ _ r c Hpal Hcut Hr Hc) as [Hq1 _].
    destruct (convert_quads _ _ _ _ _ _ _ r c Hpal Hkeep Hr Hc) as [Hq2 _].
    rewrite Hq1, Hq2. unfold rgba_quad. now rewrite Hg.
Qed.

Lemma cut_out_luma_leaves_emission_alone_witness :
  pix_emit (sample_bufs true "metal1") = pix_emit (sample_bufs false "metal1").
Proof.
  apply (cut_out_luma_leaves_emission_alone "metal1" pal_float 2 2
           sample_pixels (sample_bufs true "metal1")
           (sample_bufs false "metal1")).
  - reflexivity.
  - lia.
  - vm_compute. reflexivity.
  - vm_compute. reflexivity.
Defined.

(** X4.  A texture whose name starts with "sky" or with "*" (a liquid)
    never gets an emission buffer, whatever indices it holds, and its colour
    buffer is the plain palette lookup of every pixel. *)
Theorem sky_and_liquid_never_glow :
  forall luma name palette w h pixels bufs,
    startswith name "sky" = true \/ startswith name "*" = true ->
    0 <= w ->
    convert luma name palette (w, h) pixels = Ok bufs ->
    pix_emit bufs = [] /\
    pix_rgba bufs
    = flat_map (fun v => palette_color palette v
                           ++ [PyBool (negb (is_transparent_index name v))])
               (visited w h pixels).
Proof.
  intros luma name palette w h pixels bufs Hname Hw Hconv.
  assert (Hnever : forall v, glows name v = false).
  { intros v. unfold glows, is_fullbright.
    destruct Hname as [-> | ->]; simpl;
      rewrite ?orb_true_r; now rewrite andb_false_r. }
  destruct (convert_buffers _ _ _ _ _ _ _ Hw Hconv) as [Hrgba Hemit].
  split.
  - destruct Hemit as [[He _] | [_ [_ Hex]]]; [exact He |].
    apply existsb_exists in Hex as [v [_ Hg]]. rewrite Hnever in Hg.
    discriminate.
  - rewrite Hrgba. apply flat_map_ext. intros v.
    unfold rgba_quad. now rewrite Hnever.
Qed.

Lemma sky_and_liquid_never_glow_witness :
  pix_emit (sample_bufs false "*lava1") = [].
Proof.
  apply (sky_and_liquid_never_glow false "*lava1" pal_float 2 2 sample_pixels
           (sample_bufs false "*lava1")).
  - right. reflexivity.
  - lia.
  - vm_compute. reflexivity.
Defined.

(** ** Decoding: sizes, names and the lumps that are refused *)

Lemma read_at_most (wad : reader) (n : Z) (got : list byte) (wad' : reader) :
  0 <= n -> read wad n = Ok (got, wad') -> len got <= n.
Proof.
  intros Hn. destruct (Z.leb_spec (2 ^ 63) n) as [Hbig | Hfit].
  - unfold read. apply Z.leb_le in Hbig. rewrite Hbig, orb_true_r.
    discriminate.
  - rewrite read_nonneg by lia. cbv zeta.
    intros H. injection H as <- _. unfold len. rewrite length_firstn. lia.
Qed.

Lemma string_of_list_ascii_length (l : list ascii) :
  String.length (string_of_list_ascii l) = List.length l.
Proof. induction l as [| a l IH]; simpl; [reflexivity | now rewrite IH]. Qed.

Lemma until_nul_length (bs : list byte) :
  (List.length (until_nul bs) <= List.length bs)%nat.
Proof.
  induction bs as [| b bs IH]; simpl; [lia |].
  destruct (is_nul b); simpl; lia.
Qed.

(** A decoded name is no longer than the field it was read from. *)
Lemma c_name_length (bs : list byte) (name : string) :
  c_name bs = Ok name -> (String.length name <= List.length bs)%nat.
Proof.
  unfold c_name, decode_ascii. destruct (forallb _ _); [| discriminate].
  intros H. injection H as <-. unfold string_of_list_byte.
  rewrite string_of_list_ascii_length, length_map.
  apply until_nul_length.
Qed.

Lemma le_unsigned_32 (bs : list byte) :
  (List.length bs <= 4)%nat -> 0 <= le_unsigned bs < 2 ^ 32.
Proof.
  intros Hl. pose proof (le_unsigned_bound bs) as Hb.
  assert (Hp : 256 ^ len bs <= 256 ^ 4)
    by (apply Z.pow_le_mono_r; unfold len; lia).
  change (256 ^ 4) with (2 ^ 32) in Hp. lia.
Qed.

(** X5.  A miptexture lump ('D', and not one of the two console pictures)
    decodes to a name of at most 16 characters taken from its own header, a
    width and a height that are unsigned 32-bit numbers, at most
    [width * height] index bytes, and the default palette. *)
Theorem miptex_lump_shape :
  forall o e file_name wad s wadentry dirname wad' s' l,
    item wadentry 3 = Ok type_D ->
    name_at wadentry 6 = Ok dirname ->
    dirname <> "CONCHARS" -> dirname <> "CONBACK" ->
    decode_entry o e file_name false wad s wadentry = Ok (wad', s', l) ->
    exists name w h pixels,
      l = Indexed name (w, h) pixels /\
      (String.length name <= 16)%nat /\
      0 <= w < 2 ^ 32 /\ 0 <= h < 2 ^ 32 /\
      len pixels <= w * h /\
      palette s' = pal_float.
Proof.
  intros o e file_name wad s wadentry dirname wad' s' l
         Htype Hname Hchars Hback.
  unfold decode_entry. intros H.
  bind_inv H as off Hoff. bind_inv H as wad1 Hseek.
  rewrite Htype, Hname in H. cbn [bind] in H.
  apply String.eqb_neq in Hchars, Hback. rewrite Hchars, Hback in H.
  change (pyval_eqb type_D type_D) with true in H. cbv iota in H.
  bind_inv H as [raw wad2] Hread. bind_inv H as miptex Hunpack.
  apply unpack_ok_fields in Hunpack. subst miptex.
  change (name_at (unpack_fields fmt_miptex raw) 0)
    with (c_name (firstn 16 raw)) in H.
  change (int_at (unpack_fields fmt_miptex raw) 1)
    with (Ok (le_unsigned (firstn 4 (skipn 16 raw)))) in H.
  change (int_at (unpack_fields fmt_miptex raw) 2)
    with (Ok (le_unsigned (firstn 4 (skipn 4 (skipn 16 raw))))) in H.
  change (int_at (unpack_fields fmt_miptex raw) 3)
    with (Ok (le_unsigned (firstn 4 (skipn 4 (skipn 4 (skipn 16 raw))))))
    in H.
  bind_inv H as name Hc. cbn [bind] in H. bind_inv H as wad3 Hseek3.
  bind_inv H as [pixels wad4] Hpix. injection H as _ <- <-.
  pose proof (le_unsigned_32 (firstn 4 (skipn 16 raw))) as Hw.
  pose proof (le_unsigned_32 (firstn 4 (skipn 4 (skipn 16 raw)))) as Hh.
  rewrite length_firstn in Hw, Hh.
  specialize (Hw ltac:(lia)). specialize (Hh ltac:(lia)).
  eexists _, _, _, _. split; [reflexivity |].
  split; [| split; [exact Hw | split; [exact Hh | split; [| reflexivity]]]].
  - apply c_name_length in Hc. rewrite length_firstn in Hc. lia.
  - apply read_at_most in Hpix; [exact Hpix | nia].
Qed.

Lemma miptex_lump_shape_witness :
  exists wad' s' name w h pixels,
    decode_entry two_walls two_walls_disk "a.wad" false (open_bytes wall_wad)
                 (initial_state empty_bdata) wall_entry
      = Ok (wad', s', Indexed name (w, h) pixels) /\
    0 <= w < 2 ^ 32 /\ 0 <= h < 2 ^ 32 /\ len pixels <= w * h.
Proof.
  destruct (decode_entry two_walls two_walls_disk "a.wad" false
              (open_bytes wall_wad) (initial_state empty_bdata) wall_entry)
    as [[[wad' s'] l] | ex] eqn:Hdec; [| vm_compute in Hdec; discriminate].
  destruct (miptex_lump_shape two_walls two_walls_disk "a.wad"
              (open_bytes wall_wad) (initial_state empty_bdata) wall_entry
              "WALL1" wad' s' l eq_refl eq_refl
              ltac:(discriminate) ltac:(discriminate) Hdec)
    as [name [w [h [pixels [-> [_ [Hw [Hh [Hlen _]]]]]]]]].
  exists wad', s', name, w, h, pixels. now repeat split.
Defined.

(** X6.  A lump of an archive whose type byte is none of 'D', 'B' and '@',
    and which is not one of the two console pictures, is reported as
    unrecognised and skipped: the loop body returns, and apart from the
    warning nothing of [bpy.data] and nothing stashed has changed. *)
Theorem unrecognised_lump_is_only_reported :
  forall o e file_name cont_name wad s wadentry off type name,
    int_at wadentry 0 = Ok off -> 0 <= off ->
    item wadentry 3 = Ok type ->
    name_at wadentry 6 = Ok name ->
    name <> "CONCHARS" -> name <> "CONBACK" ->
    type <> type_D -> type <> type_B -> type <> type_at ->
    exists wad' s',
      process_entry o e file_name cont_name None (wad, s) wadentry
        = Ok (wad', s') /\
      materials (bpy s') = materials (bpy s) /\
      images (bpy s') = images (bpy s) /\
      objects (bpy s') = objects (bpy s) /\
      anim_seqs s' = anim_seqs s /\
      warnings (bpy s')
      = warnings (bpy s) ++ [("Unrecognized lump " ++ name)%string].
Proof.
  intros o e file_name cont_name wad s wadentry off type name
         Hoff Hpos Htype Hname Hchars Hback HD HB Hat.
  assert (Hne : forall t, type <> t -> pyval_eqb type t = false).
  { intros t Ht. destruct (pyval_eqb type t) eqn:E; [| reflexivity].
    apply pyval_eqb_eq in E. contradiction. }
  unfold process_entry, decode_entry. cbn [is_some].
  rewrite Hoff. cbn [bind]. unfold seek.
  destruct (Z.ltb_spec off 0); [lia |]. cbn [bind].
  rewrite Htype, Hname. cbn [bind].
  apply String.eqb_neq in Hchars, Hback. rewrite Hchars, Hback.
  rewrite (Hne _ HD), (Hne _ HB), (Hne _ Hat). cbn [bind].
  eexists. eexists. split; [reflexivity |]. now repeat split.
Qed.

Definition odd_wad : list byte :=
  wad2 [(Byte.x45, "QPIC", [Byte.x00]); tex "WALL1" 1 1 [Byte.x00]].

Definition odd_entry : list pyval :=
  [VInt 12; VInt 1; VInt 1; VBytes [Byte.x45]; VBytes [Byte.x00]; VInt 0;
   VBytes (name16 "QPIC")].

Lemma unrecognised_lump_is_only_reported_witness :
  exists wad' s',
    process_entry (defaults "C:\q\" ["odd.wad"])
                  (disk [("C:\q\odd.wad", on_disk odd_wad)])
                  "odd.wad" "odd.wad" None
                  (open_bytes odd_wad, initial_state empty_bdata) odd_entry
      = Ok (wad', s') /\
    materials (bpy s') = [] /\
    warnings (bpy s') = ["Unrecognized lump QPIC"].
Proof.
  destruct (unrecognised_lump_is_only_reported
              (defaults "C:\q\" ["odd.wad"])
              (disk [("C:\q\odd.wad", on_disk odd_wad)])
              "odd.wad" "odd.wad" (open_bytes odd_wad)
              (initial_state empty_bdata) odd_entry
              12 (VBytes [Byte.x45]) "QPIC" eq_refl ltac:(lia) eq_refl eq_refl
              ltac:(discriminate) ltac:(discriminate) ltac:(discriminate)
              ltac:(discriminate) ltac:(discriminate))
    as [wad' [s' [Hproc [Hm [_ [_ [_ Hw]]]]]]].
  exists wad', s'. split; [exact Hproc |]. split; [exact Hm | exact Hw].
Defined.

(** The archive with the odd lump imports all the same: the lump after it
    becomes a material. *)
Example import_goes_on_after_unrecognised_lump :
  exists b,
    execute (defaults "C:\q\" ["odd.wad"])
            (disk [("C:\q\odd.wad", on_disk odd_wad)]) empty_bdata = Ok b /\
    material_names b = ["wall1"] /\
    warnings b = ["Unrecognized lump QPIC"].
Proof.
  eexists. split; [vm_compute; reflexivity |]. split; reflexivity.
Qed.

(** X7.  A recognised lump whose name decodes to the empty string - a
    directory entry or a miptexture header that starts with a NUL - makes
    the loop body raise IndexError at [name[0]], unless a material with the
    empty name is registered. *)
Theorem empty_name_raises_index_error :
  forall o e file_name cont_name img24 wad s wadentry wad' s' l,
    decode_entry o e file_name (is_some img24) wad s wadentry
      = Ok (wad', s', l) ->
    (forall n, l <> Unrecognized n) ->
    lump_name l = "" ->
    material_exists "" (bpy s') = false ->
    process_entry o e file_name cont_name img24 (wad, s) wadentry
      = Raise IndexError.
Proof.
  intros o e file_name cont_name img24 wad s wadentry wad' s' l
         Hdec Hrec Hname Hmat.
  unfold process_entry. rewrite Hdec. cbn [bind].
  destruct l as [n | n sz px | n]; try (exfalso; apply (Hrec n); reflexivity);
    simpl lump_name in *; subst n; change (lower "") with "";
    unfold screen_entry; rewrite Hmat; reflexivity.
Qed.

Definition nameless_wad : list byte := wad2 [tex "" 1 1 [Byte.x00]].

Definition nameless_entry : list pyval :=
  [VInt 12; VInt 41; VInt 41; type_D; VBytes [Byte.x00]; VInt 0;
   VBytes (name16 "")].

Lemma empty_name_raises_index_error_witness :
  process_entry (defaults "C:\q\" ["n.wad"])
                (disk [("C:\q\n.wad", on_disk nameless_wad)])
                "n.wad" "n.wad" None
                (open_bytes nameless_wad, initial_state empty_bdata)
                nameless_entry
  = Raise IndexError.
Proof.
  pose (o := defaults "C:\q\" ["n.wad"]).
  pose (e := disk [("C:\q\n.wad", on_disk nameless_wad)]).
  destruct (decode_entry o e "n.wad" (is_some (@None image))
              (open_bytes nameless_wad) (initial_state empty_bdata)
              nameless_entry)
    as [[[wad' s'] l] | ex] eqn:Hdec; [| vm_compute in Hdec; discriminate].
  refine (empty_name_raises_index_error o e "n.wad" "n.wad" None
            (open_bytes nameless_wad) (initial_state empty_bdata)
            nameless_entry wad' s' l Hdec _ _ _).
  - intros n Hl. rewrite Hl in Hdec. vm_compute in Hdec. discriminate.
  - vm_compute in Hdec. injection Hdec as _ _ <-. reflexivity.
  - vm_compute in Hdec. injection Hdec as _ <- _. reflexivity.
Defined.

(** X8.  A directory name with a byte above 127 before its first NUL cannot
    be decoded as ASCII: the loop body raises UnicodeDecodeError for that
    entry, in an archive as for a loose image, before anything is read from
    the lump. *)
Theorem non_ascii_name_raises :
  forall o e file_name cont_name img24 wad s wadentry off type field,
    int_at wadentry 0 = Ok off -> 0 <= off ->
    item wadentry 3 = Ok type ->
    item wadentry 6 = Ok (VBytes field) ->
    existsb (fun b => 128 <=? byte_val b) (until_nul field) = true ->
    process_entry o e file_name cont_name img24 (wad, s) wadentry
      = Raise UnicodeDecodeError.
Proof.
  intros o e file_name cont_name img24 wad s wadentry off type field
         Hoff Hpos Htype Hfield Hhigh.
  unfold process_entry, decode_entry.
  rewrite Hoff. cbn [bind]. unfold seek.
  destruct (Z.ltb_spec off 0); [lia |]. cbn [bind].
  rewrite Htype. cbn [bind]. unfold name_at. rewrite Hfield.
  cbn [bind as_bytes]. unfold c_name, decode_ascii.
  assert (Hall : forallb (fun b => byte_val b <? 128) (until_nul field)
                 = false).
  { apply existsb_exists in Hhigh as [b [Hb Hv]].
    destruct (forallb _ _) eqn:E; [| reflexivity].
    rewrite forallb_forall in E. apply E in Hb.
    apply Z.leb_le in Hv. apply Z.ltb_lt in Hb. lia. }
  rewrite Hall. reflexivity.
Qed.

Definition accent_entry : list pyval :=
  [VInt 12; VInt 41; VInt 41; type_D; VBytes [Byte.x00]; VInt 0;
   VBytes ([Byte.x63; Byte.x61; Byte.x66; Byte.xe9] ++ repeat Byte.x00 12)].

Lemma non_ascii_name_raises_witness :
  process_entry two_walls two_walls_disk "a.wad" "a.wad" None
                (open_bytes wall_wad, initial_state empty_bdata) accent_entry
  = Raise UnicodeDecodeError.
Proof.
  apply (non_ascii_name_raises two_walls two_walls_disk "a.wad" "a.wad" None
           (open_bytes wall_wad) (initial_state empty_bdata) accent_entry
           12 type_D
           ([Byte.x63; Byte.x61; Byte.x66; Byte.xe9] ++ repeat Byte.x00 12)
           eq_refl ltac:(lia) eq_refl eq_refl eq_refl).
Defined.

(** ** How much one import can add *)

Lemma read_direntries_count (n : nat) :
  forall wad entries wad',
    read_direntries n wad = Ok (entries, wad') -> List.length entries = n.
Proof.
  induction n as [| n IH]; intros wad entries wad'; cbn [read_direntries].
  - intros H. now injection H as <- _.
  - intros H. bind_inv H as [raw wad1] Hread. bind_inv H as entry Hentry.
    bind_inv H as [rest wad2] Hrest. injection H as <- _.
    simpl. f_equal. eapply IH; eauto.
Qed.

(** The names a run of the lump loop adds: at most one per entry. *)
Lemma process_entries_names o e file_name cont_name img24 entries :
  forall wad s wad' s',
    foldM (process_entry o e file_name cont_name img24) entries (wad, s)
      = Ok (wad', s') ->
    exists added,
      material_names (bpy s') = material_names (bpy s) ++ added /\
      (List.length added <= List.length entries)%nat.
Proof.
  induction entries as [| entry entries IH]; intros wad s wad' s' H.
  - injection H as _ <-. exists []. now rewrite app_nil_r.
  - cbn [foldM] in H. bind_inv H as [wad1 s1] Hstep.
    apply process_entry_names in Hstep.
    destruct (IH _ _ _ _ H) as [added [Hnames Hlen]].
    destruct Hstep as [Hsame | [name [_ Hnew]]].
    + exists added. rewrite Hnames, Hsame. simpl. split; [reflexivity | lia].
    + exists (name :: added). rewrite Hnames, Hnew, <- app_assoc.
      simpl. split; [reflexivity | lia].
Qed.

Lemma read_directory_wad2 o e file_name f s wad1 s1 kind n off :
  firstn 4 (f_bytes f) = sig_WAD2 ->
  unpack fmt_2l (firstn 8 (skipn 4 (f_bytes f))) = Ok [VInt n; VInt off] ->
  read_directory o e file_name f (open_bytes (f_bytes f)) s
    = Ok (wad1, s1, kind) ->
  exists entries,
    kind = Archive entries /\ List.length entries = Z.to_nat n /\ s1 = s.
Proof.
  intros Hsig Hhdr. unfold read_directory, open_bytes.
  rewrite read_nonneg by lia. cbn [r_data r_pos bind].
  change (Z.to_nat 4) with 4%nat. change (Z.to_nat 0) with 0%nat.
  cbn [skipn]. rewrite Hsig.
  change (bytes_eqb sig_WAD2 sig_WAD2) with true. cbv iota.
  rewrite read_nonneg by lia. cbn [r_data r_pos bind].
  change (Z.to_nat (0 + len sig_WAD2)) with 4%nat.
  change (Z.to_nat (2 * 4)) with 8%nat.
  rewrite Hhdr. cbn [bind].
  change (int_at [VInt n; VInt off] 0) with (Ok n).
  change (int_at [VInt n; VInt off] 1) with (Ok off). cbn [bind].
  intros H. bind_inv H as wad2 Hseek. bind_inv H as [entries wad3] Hdir.
  injection H as _ <- <-. exists entries.
  split; [reflexivity | split; [| reflexivity]].
  eapply read_direntries_count; eauto.
Qed.

(** X9.  Importing one WAD2 file only appends to the material registry, and
    appends at most as many materials as the header's entry count announces
    (none when the count is zero or negative). *)
Theorem wad2_adds_at_most_its_entry_count :
  forall o e s file_name f numentries diroffset s',
    assoc (directory o ++ file_name)%string (fs e) = Some f ->
    firstn 4 (f_bytes f) = sig_WAD2 ->
    unpack fmt_2l (firstn 8 (skipn 4 (f_bytes f)))
      = Ok [VInt numentries; VInt diroffset] ->
    process_file o e s file_name = Ok s' ->
    exists added,
      material_names (bpy s') = material_names (bpy s) ++ added /\
      len added <= Z.max 0 numentries.
Proof.
  intros o e s file_name f n off s' Hf Hsig Hhdr.
  unfold process_file. rewrite Hf. intros H.
  bind_inv H as [[wad1 s1] kind] Hdir.
  destruct (read_directory_wad2 _ _ _ _ _ _ _ _ _ _ Hsig Hhdr Hdir)
    as [entries [-> [Hcount ->]]].
  cbn [is_some bind] in H. bind_inv H as [wad2 s2] Hloop. injection H as <-.
  apply process_entries_names in Hloop as [added [Hnames Hlen]].
  exists added. split.
  - rewrite Hnames. f_equal.
    destruct (option_cont o); [| reflexivity].
    unfold add_container. cbn [bpy with_bpy].
    now destruct (object_exists file_name (bpy s)).
  - unfold len. lia.
Qed.

Lemma wad2_adds_at_most_its_entry_count_witness :
  exists s' added,
    process_file two_walls two_walls_disk (initial_state empty_bdata) "a.wad"
      = Ok s' /\
    material_names (bpy s') = [] ++ added /\
    len added <= 1.
Proof.
  destruct (process_file two_walls two_walls_disk (initial_state empty_bdata)
                         "a.wad") as [s' |] eqn:Hfile;
    [| vm_compute in Hfile; discriminate].
  destruct (wad2_adds_at_most_its_entry_count two_walls two_walls_disk
              (initial_state empty_bdata) "a.wad" (on_disk wall_wad) 1 53 s'
              eq_refl eq_refl eq_refl Hfile) as [added [Hnames Hlen]].
  exists s', added. split; [reflexivity |]. split; [exact Hnames | exact Hlen].
Defined.

Lemma process_file_names o e s file_name s' :
  process_file o e s file_name = Ok s' ->
  exists added, material_names (bpy s') = material_names (bpy s) ++ added.
Proof.
  unfold process_file. destruct (assoc _ (fs e)) as [f |]; [| discriminate].
  intros H. bind_inv H as [[wad1 s1] kind] Hdir.
  apply read_directory_materials in Hdir.
  assert (Hcont : forall cont_name,
             material_names
               (bpy (if option_cont o
                     then with_bpy s1 (add_container cont_name (bpy s1))
                     else s1))
             = material_names (bpy s)).
  { intros cont_name. unfold material_names.
    destruct (option_cont o); cbn [bpy with_bpy]; [| now rewrite Hdir].
    unfold add_container.
    destruct (object_exists cont_name (bpy s1)); cbn [materials set_objects];
      now rewrite Hdir. }
  destruct kind as [entries | img24 entries |].
  - cbn [is_some bind] in H. bind_inv H as [wad2 s2] Hloop. injection H as <-.
    apply process_entries_names in Hloop as [added [Hnames _]].
    exists added. now rewrite Hnames, Hcont.
  - cbn [is_some] in H. bind_inv H as cont_name Hcn.
    bind_inv H as [wad2 s2] Hloop. injection H as <-.
    apply process_entries_names in Hloop as [added [Hnames _]].
    exists added. now rewrite Hnames, Hcont.
  - injection H as <-. exists []. rewrite app_nil_r.
    unfold material_names. now rewrite Hdir.
Qed.

(** X10.  An import never removes or renames a material: the names that
    were registered before [execute] are, in the same order, the first
    names registered after it, and with them the registry stays free of
    duplicate names. *)
Theorem execute_only_appends_materials :
  forall o e b b',
    execute o e b = Ok b' ->
    exists added,
      material_names b' = material_names b ++ added /\
      (unique_names b -> NoDup added /\
                         forall name, In name added ->
                                      ~ In name (material_names b)).
Proof.
  intros o e b b' H.
  assert (Hgrow : exists added,
             material_names b' = material_names b ++ added).
  { unfold execute in H. bind_inv H as s Himp.
    assert (Hs : exists added,
               material_names (bpy s) = material_names b ++ added).
    { unfold import_files in Himp.
      refine (foldM_invariant
                (fun st => exists added,
                     material_names (bpy st) = material_names b ++ added)
                (process_file o e) _ (files o) (initial_state b) s _ Himp).
      - intros s1 x s2 [added1 H1] Hx.
        apply process_file_names in Hx as [added2 H2].
        exists (added1 ++ added2). now rewrite H2, H1, app_assoc.
      - exists []. now rewrite app_nil_r. }
    destruct Hs as [added Hadded]. exists added.
    destruct (option_seq o); injection H as <-; [| exact Hadded].
    now rewrite make_noodles_post_names. }
  destruct Hgrow as [added Hadded]. exists added.
  split; [exact Hadded |]. intros Hb.
  pose proof (execute_unique o e b b' Hb H) as Hb'.
  unfold unique_names in Hb'. rewrite Hadded in Hb'.
  split; [now apply NoDup_app_remove_l in Hb' |].
  intros name Hin Hold.
  revert Hb'. clear -Hin Hold. intros Hnd.
  induction (material_names b) as [| x l IH]; [contradiction |].
  simpl in Hnd. inversion Hnd as [| ? ? Hx Hl]; subst.
  destruct Hold as [-> | Hold]; [| now apply IH].
  apply Hx. apply in_or_app. now right.
Qed.

Lemma execute_only_appends_materials_witness :
  exists b' added,
    execute (defaults "C:\q\" ["b.wad"]) two_walls_disk
            (bpy after_first_wall) = Ok b' /\
    material_names b' = material_names (bpy after_first_wall) ++ added.
Proof.
  destruct (execute (defaults "C:\q\" ["b.wad"]) two_walls_disk
                    (bpy after_first_wall)) as [b' |] eqn:Hexec;
    [| vm_compute in Hexec; discriminate].
  destruct (execute_only_appends_materials _ _ _ _ Hexec) as [added [Ha _]].
  exists b', added. split; [reflexivity | exact Ha].
Defined.

(** ** Sequences: the key, the switch, the chaining *)

Lemma frame_name_shape (name : string) :
  is_frame_name name = Ok true ->
  exists c rest, name = String "+" (String c rest) /\ char_in c "0a" = false.
Proof.
  destruct name as [| a [| c rest]].
  - discriminate.
  - unfold is_frame_name. rewrite char_at_0. unfold bind.
    destruct (Ascii.eqb a "+"); discriminate.
  - rewrite is_frame_name_total. intros H. injection H as H.
    apply andb_prop in H as [Ha Hc]. apply Ascii.eqb_eq in Ha. subst a.
    exists c, rest. split; [reflexivity |]. now apply negb_true_iff.
Qed.

(** X11.  The key of a sequence frame starts with "+0" or "+a", is as long
    as the frame's name, is not itself a frame name - so the texture that
    carries the key is a standalone material - and is its own key: the
    normalisation of lines 203-204 is idempotent. *)
Theorem sequence_key_is_a_base_name :
  forall name key,
    is_frame_name name = Ok true ->
    seq_name_of name = Ok key ->
    (startswith key "+0" = true \/ startswith key "+a" = true) /\
    String.length key = String.length name /\
    is_frame_name key = Ok false /\
    seq_name_of key = Ok key /\
    str_slice_from key 2 = str_slice_from name 2.
Proof.
  intros name key Hframe Hkey.
  destruct (frame_name_shape name Hframe) as [c [rest [-> Hc]]].
  destruct (seq_name_rule c rest) as [_ Hrule].
  rewrite Hrule in Hkey. injection Hkey as <-.
  assert (Hrest : forall d, str_slice_from (String "+" (String d rest)) 2 = rest).
  { intros d. unfold str_slice_from, slice_from, chars, str. simpl.
    apply string_of_list_ascii_of_string. }
  destruct (char_in c "0123456789").
  - split; [left; simpl; now destruct rest |].
    split; [reflexivity |]. split; [apply is_frame_name_total |].
    split; [| now rewrite !Hrest].
    now destruct (seq_name_rule "0" rest) as [_ ->].
  - split; [right; simpl; now destruct rest |].
    split; [reflexivity |]. split; [apply is_frame_name_total |].
    split; [| now rewrite !Hrest].
    now destruct (seq_name_rule "a" rest) as [_ ->].
Qed.

Lemma sequence_key_is_a_base_name_witness :
  is_frame_name "+0wtr_b" = Ok false /\ seq_name_of "+0wtr_b" = Ok "+0wtr_b".
Proof.
  destruct (sequence_key_is_a_base_name "+7wtr_b" "+0wtr_b" eq_refl eq_refl)
    as [_ [_ [Hbase [Hidem _]]]].
  split; [exact Hbase | exact Hidem].
Defined.

Lemma screen_entry_build_no_seq o cont_name img24 s name s2 :
  option_seq o = false ->
  screen_entry o cont_name img24 s name = Ok (Build s2) ->
  is_frame_name name = Ok false.
Proof.
  intros Hseq. unfold screen_entry. rewrite Hseq.
  destruct (material_exists name (bpy s)).
  - destruct (tag_material _ _ _); simpl; discriminate.
  - destruct (is_frame_name name) as [[|] |]; simpl; try discriminate.
    reflexivity.
Qed.

Lemma read_directory_anim_seqs o e file_name f wad s wad' s' kind :
  read_directory o e file_name f wad s = Ok (wad', s', kind) ->
  anim_seqs s' = anim_seqs s.
Proof.
  unfold read_directory. intros H. bind_inv H as [sig wad1] Hsig.
  destruct (bytes_eqb sig sig_WAD2).
  { repeat (bind_ok H; split_pairs). now injection H as _ <- _. }
  destruct (bytes_eqb sig sig_BSP2 || bytes_eqb sig sig_29).
  { repeat (bind_ok H; split_pairs). now injection H as _ <- _. }
  unfold load_image, add_image in H.
  destruct (f_depth f =? 0); now injection H as _ <- _.
Qed.

Lemma process_entry_no_seq o e file_name cont_name img24 wad s wadentry wad' s' :
  option_seq o = false ->
  process_entry o e file_name cont_name img24 (wad, s) wadentry
    = Ok (wad', s') ->
  anim_seqs s' = anim_seqs s.
Proof.
  intros Hseq. unfold process_entry. intros H.
  bind_inv H as [[wad1 s1] l] Hdec.
  apply decode_entry_bpy in Hdec as [_ [_ [_ [_ Ha]]]].
  assert (Hgo : forall nm : string,
    (v <- screen_entry o cont_name img24 s1 (lower nm) ;;
     match v with
     | Skip s2 => Ok (wad1, s2)
     | Build s2 =>
         ' (s3, img, emit) <- build_images o e file_name img24 s2 l (lower nm) ;;
         frame <- is_frame_name (lower nm) ;;
         (if frame
          then
           seq_name <- seq_name_of (lower nm) ;;
           s4 <- stash_frame o seq_name img emit s3 ;; Ok (wad1, s4)
          else
           Ok (wad1,
               with_bpy s3
                 (new_material o e cont_name (lower nm) img emit (bpy s3))))
     end) = Ok (wad', s') ->
    anim_seqs s' = anim_seqs s).
  { clear H. intros nm H. bind_inv H as v Hscreen.
    destruct v as [s2 | s2].
    - injection H as _ <-.
      apply screen_entry_cases in Hscreen as [[Hb _] | [s3 [Hs [_ [Han _]]]]];
        [discriminate |].
      injection Hs as <-. congruence.
    - pose proof (screen_entry_build_no_seq _ _ _ _ _ _ Hseq Hscreen) as Hfr.
      apply screen_entry_build in Hscreen. subst s2.
      bind_inv H as [[s3 img] emit] Hbuild.
      apply build_images_materials in Hbuild as [_ Hb].
      rewrite Hfr in H. cbn [bind] in H. injection H as _ <-.
      cbn [anim_seqs with_bpy]. congruence. }
  destruct l as [n | n size pixels | n].
  - exact (Hgo n H).
  - exact (Hgo n H).
  - injection H as _ <-. exact Ha.
Qed.

(** X12.  With "Add sequence nodes" switched off, nothing is ever stashed:
    an import leaves [anim_seqs] as it was, [make_noodles_post] is not run,
    and a lump with a frame name that is no registered material is dropped
    right after it has been read - no image, no material. *)
Theorem sequences_off_drops_frames :
  forall o e,
    option_seq o = false ->
    (forall s s', import_files o e s = Ok s' -> anim_seqs s' = anim_seqs s) /\
    (forall b s, import_files o e (initial_state b) = Ok s ->
                 execute o e b = Ok (bpy s)) /\
    (forall file_name cont_name img24 wad s wadentry wad' s1 l,
       decode_entry o e file_name (is_some img24) wad s wadentry
         = Ok (wad', s1, l) ->
       (forall n, l <> Unrecognized n) ->
       material_exists (lower (lump_name l)) (bpy s1) = false ->
       is_frame_name (lower (lump_name l)) = Ok true ->
       process_entry o e file_name cont_name img24 (wad, s) wadentry
         = Ok (wad', s1)).
Proof.
  intros o e Hseq. split; [| split].
  - intros s s'. unfold import_files.
    apply (foldM_invariant (fun st => anim_seqs st = anim_seqs s));
      [| reflexivity].
    intros s1 file_name s2 Hs1. unfold process_file.
    destruct (assoc _ (fs e)) as [f |]; [| discriminate].
    intros H. bind_inv H as [[wad1 s3] kind] Hdir.
    apply read_directory_anim_seqs in Hdir.
    assert (Hloop : forall img24 cont_name entries (s4 : state),
               anim_seqs s4 = anim_seqs s ->
               forall r, foldM (process_entry o e file_name cont_name img24)
                               entries (wad1, s4) = Ok r ->
                         anim_seqs (snd r) = anim_seqs s).
    { intros img24 cont_name entries s4 Hs4 r Hr.
      refine (foldM_invariant (fun ws => anim_seqs (snd ws) = anim_seqs s) _ _
                              entries (wad1, s4) r Hs4 Hr).
      intros [w a] x [w' a'] Ha Hx. simpl in *.
      apply (process_entry_no_seq _ _ _ _ _ _ _ _ _ _ Hseq) in Hx.
      congruence. }
    assert (Hcont : forall cont_name,
               anim_seqs (if option_cont o
                          then with_bpy s3 (add_container cont_name (bpy s3))
                          else s3) = anim_seqs s).
    { intros cont_name. destruct (option_cont o); cbn [anim_seqs with_bpy];
        congruence. }
    destruct kind as [entries | img24 entries |].
    + cbn [is_some bind] in H. bind_inv H as [w2 s5] Hfold.
      injection H as <-. exact (Hloop _ _ _ _ (Hcont _) _ Hfold).
    + cbn [is_some] in H. bind_inv H as cont_name Hcn.
      bind_inv H as [w2 s5] Hfold. injection H as <-.
      exact (Hloop _ _ _ _ (Hcont _) _ Hfold).
    + injection H as <-. congruence.
  - intros b s Himp. unfold execute. rewrite Himp. cbn [bind].
    now rewrite Hseq.
  - intros file_name cont_name img24 wad s wadentry wad' s1 l
           Hdec Hrec Hnew Hframe.
    unfold process_entry. rewrite Hdec. cbn [bind].
    destruct l as [n | n sz px | n];
      try (exfalso; apply (Hrec n); reflexivity);
      unfold screen_entry; rewrite Hnew, Hframe, Hseq; reflexivity.
Qed.

Lemma sequences_off_drops_frames_witness :
  exists s,
    import_files
      {| files := ["anim.wad"]; directory := "C:\q\";
         option_assets := true; option_cont := true; option_rel := false;
         option_luma := false; option_turb := true; option_scroll := true;
         option_seq := false; option_lerp := false;
         prefs_basepath := ""; prefs_emit_suffix := "_luma" |}
      (frames_disk [frame0; frame1; frame2]) (initial_state empty_bdata)
      = Ok s /\
    anim_seqs s = [].
Proof.
  set (o := {| files := ["anim.wad"]; directory := "C:\q\";
               option_assets := true; option_cont := true;
               option_rel := false; option_luma := false;
               option_turb := true; option_scroll := true;
               option_seq := false; option_lerp := false;
               prefs_basepath := ""; prefs_emit_suffix := "_luma" |}).
  destruct (import_files o (frames_disk [frame0; frame1; frame2])
                         (initial_state empty_bdata)) as [s |] eqn:Himp;
    [| vm_compute in Himp; discriminate].
  exists s. split; [reflexivity |].
  exact (proj1 (sequences_off_drops_frames o
                  (frames_disk [frame0; frame1; frame2]) eq_refl)
               (initial_state empty_bdata) s Himp).
Defined.

Section Chaining.
Variable o : options.
Variable a : list (string * list image).

Definition find_named (name : string) (ms : list material) : option material :=
  find (fun m => String.eqb (mat_name m) name) ms.

(** The material called [key], if there is one, has its frames chained. *)
Definition settled (key : string) (ms : list material) : Prop :=
  forall m, find_named key ms = Some m -> mat_frames m <> None.

Lemma chain_first_settled_id key frames ms :
  settled key ms -> chain_first o a key frames ms = ms.
Proof.
  unfold settled, find_named. induction ms as [| m ms IH]; simpl;
    [reflexivity |].
  destruct (String.eqb (mat_name m) key).
  - intros H. specialize (H m eq_refl). now destruct (mat_frames m).
  - intros H. now rewrite IH.
Qed.

Lemma chain_first_find_other key frames ms name :
  key <> name ->
  find_named name (chain_first o a key frames ms) = find_named name ms.
Proof.
  intros Hne. unfold find_named. induction ms as [| m ms IH]; simpl;
    [reflexivity |].
  destruct (String.eqb (mat_name m) key) eqn:Hk.
  - apply String.eqb_eq in Hk.
    assert (Hn : String.eqb (mat_name m) name = false)
      by (apply String.eqb_neq; congruence).
    destruct (mat_frames m); simpl; now rewrite Hn.
  - simpl. destruct (String.eqb (mat_name m) name); [reflexivity | exact IH].
Qed.

Lemma chain_first_settles key frames ms :
  settled key (chain_first o a key frames ms).
Proof.
  unfold settled, find_named. induction ms as [| m ms IH]; simpl;
    [discriminate |].
  destruct (String.eqb (mat_name m) key) eqn:Hk.
  - destruct (mat_frames m) eqn:Hf; simpl; rewrite Hk;
      intros m0 H0; injection H0 as <-; [congruence | discriminate].
  - simpl. rewrite Hk. exact IH.
Qed.

Lemma chain_first_keeps_settled key frames ms key' :
  settled key' ms -> settled key' (chain_first o a key frames ms).
Proof.
  intros Hs. destruct (String.eqb_spec key key') as [<- | Hne].
  - apply chain_first_settles.
  - unfold settled. now rewrite chain_first_find_other.
Qed.

Definition chain_all (l : list (string * list image)) (ms : list material)
  : list material :=
  fold_left (fun ms kv => chain_first o a (fst kv) (snd kv) ms) l ms.

Lemma chain_all_keeps_settled l : forall ms key,
  settled key ms -> settled key (chain_all l ms).
Proof.
  induction l as [| kv l IH]; intros ms key Hs; simpl; [exact Hs |].
  apply IH. now apply chain_first_keeps_settled.
Qed.

Lemma chain_all_settles l : forall ms kv,
  In kv l -> settled (fst kv) (chain_all l ms).
Proof.
  induction l as [| kv0 l IH]; intros ms kv Hin; [contradiction |].
  simpl. destruct Hin as [-> | Hin]; [| now apply IH].
  apply chain_all_keeps_settled, chain_first_settles.
Qed.

Lemma chain_all_settled_id l : forall ms,
  (forall kv, In kv l -> settled (fst kv) ms) -> chain_all l ms = ms.
Proof.
  induction l as [| kv l IH]; intros ms Hs; simpl; [reflexivity |].
  rewrite chain_first_settled_id by (apply Hs; now left).
  apply IH. intros kv' Hin. apply Hs. now right.
Qed.

Lemma chain_all_find l : forall ms name,
  (settled name ms \/ forall kv, In kv l -> fst kv <> name) ->
  find_named name (chain_all l ms) = find_named name ms.
Proof.
  induction l as [| kv l IH]; intros ms name H; simpl; [reflexivity |].
  destruct (String.eqb_spec (fst kv) name) as [Heq | Hne].
  - destruct H as [Hs | Hno]; [| exfalso; apply (Hno kv); [now left | exact Heq]].
    rewrite <- Heq in Hs. rewrite chain_first_settled_id by exact Hs.
    apply IH. left. now rewrite <- Heq.
  - rewrite IH.
    + now apply chain_first_find_other.
    + destruct H as [Hs | Hno].
      * left. now apply chain_first_keeps_settled.
      * right. intros kv' Hin. apply Hno. now right.
Qed.

Lemma make_noodles_post_chain_all (l : list (string * list image)) :
  forall b,
    fold_left
      (fun b kv =>
         set_materials (chain_first o a (fst kv) (snd kv) (materials b)) b)
      l b
    = match l with
      | [] => b
      | _ :: _ => set_materials (chain_all l (materials b)) b
      end.
Proof.
  induction l as [| kv l IH]; intros b; [reflexivity |].
  cbn [fold_left]. rewrite IH. destruct l; reflexivity.
Qed.
End Chaining.

Lemma assoc_none_keys {V} (name : string) (l : list (string * V)) :
  assoc name l = None -> forall kv, In kv l -> fst kv <> name.
Proof.
  induction l as [| [k0 v0] l IH]; intros Hname kv Hin; [contradiction |].
  simpl in Hname. destruct (String.eqb_spec name k0) as [-> | Hne];
    [discriminate |].
  destruct Hin as [<- | Hin]; [simpl; congruence | now apply IH].
Qed.

(** X13.  [make_noodles_post] chains each sequence once: running it again on
    its own result changes nothing.  It touches no image, no container and
    no material name; a material whose frames a previous import has chained
    stays as it is, and so does every material that is not called like a
    key of [anim_seqs] - so frames stashed under a key that no material
    carries are left unused. *)
Theorem chaining_happens_once :
  forall o a b,
    let b' := make_noodles_post o a b in
    make_noodles_post o a b' = b' /\
    images b' = images b /\ objects b' = objects b /\
    material_names b' = material_names b /\
    (forall name m,
       find_material name b = Some m -> mat_frames m <> None ->
       find_material name b' = Some m) /\
    (forall name,
       assoc name a = None ->
       find_material name b' = find_material name b).
Proof.
  intros o a b b'. unfold b', make_noodles_post.
  rewrite !make_noodles_post_chain_all.
  destruct a as [| kv a']; [repeat split; auto |].
  set (a := kv :: a'). cbn [materials set_materials images objects].
  split; [| split; [reflexivity | split; [reflexivity | split; [| split]]]].
  - unfold set_materials. cbn [materials images objects next_id warnings].
    f_equal. apply chain_all_settled_id. intros kv' Hin.
    now apply chain_all_settles.
  - fold (make_noodles_post o a b).
    assert (H := make_noodles_post_names o a b).
    unfold make_noodles_post in H.
    rewrite make_noodles_post_chain_all in H. exact H.
  - intros name m Hfind Hframes. unfold find_material in *.
    cbn [materials set_materials].
    fold (find_named name (chain_all o a a (materials b))).
    rewrite chain_all_find; [exact Hfind |].
    left. intros m0 H0. unfold find_named in H0. congruence.
  - intros name Hname. unfold find_material.
    cbn [materials set_materials].
    fold (find_named name (chain_all o a a (materials b))).
    rewrite chain_all_find; [reflexivity |].
    right. now apply assoc_none_keys.
Qed.

(** The second of two imports of the frames archive leaves the chain of
    "+0frame" as the first import made it. *)
Example frames_are_not_chained_twice :
  exists b1 b2,
    execute frames_options (frames_disk [frame0; frame1; frame2]) empty_bdata
      = Ok b1 /\
    execute frames_options (frames_disk [frame0; frame1; frame2]) b1 = Ok b2 /\
    frame_chain "+0frame" b2 = frame_chain "+0frame" b1 /\
    frame_chain "+0frame" b2 = Some ["+1frame"; "+2frame"].
Proof.
  do 2 eexists. split; [vm_compute; reflexivity |].
  split; [vm_compute; reflexivity |]. split; reflexivity.
Qed.

Lemma chaining_happens_once_witness :
  find_material "wall1"
    (make_noodles_post two_walls [("+0frame", [])] (bpy after_first_wall))
  = find_material "wall1" (bpy after_first_wall).
Proof.
  apply (proj2 (proj2 (proj2 (proj2 (proj2
           (chaining_happens_once two_walls [("+0frame", [])]
                                  (bpy after_first_wall))))))).
  reflexivity.
Defined.

(** ** Loose images: the name and the container *)

Lemma chars_app (s1 s2 : string) :
  chars (s1 ++ s2)%string = chars s1 ++ chars s2.
Proof.
  unfold chars. induction s1 as [| c s1 IH]; simpl; [reflexivity |].
  now rewrite IH.
Qed.

Lemma str_chars (s : string) : str (chars s) = s.
Proof. apply string_of_list_ascii_of_string. Qed.

Lemma chars_str (l : list ascii) : chars (str l) = l.
Proof. apply list_ascii_of_string_of_list_ascii. Qed.

Lemma rfind_from_absent (c : ascii) (l : list ascii) :
  ~ In c l -> forall i found, rfind_from c l i found = found.
Proof.
  induction l as [| x l IH]; intros Hc i found; simpl; [reflexivity |].
  assert (Hx : Ascii.eqb x c = false)
    by (apply Ascii.eqb_neq; intros ->; apply Hc; now left).
  rewrite Hx. apply IH. intros H. apply Hc. now right.
Qed.

Lemma rfind_from_last (c : ascii) (l1 l2 : list ascii) :
  ~ In c l2 ->
  forall i found, rfind_from c (l1 ++ c :: l2) i found = i + len l1.
Proof.
  intros Hc. induction l1 as [| x l1 IH]; intros i found.
  - simpl. rewrite Ascii.eqb_refl, rfind_from_absent by assumption.
    unfold len. simpl. lia.
  - simpl app. cbn [rfind_from]. rewrite IH. unfold len. simpl List.length.
    lia.
Qed.

(** X14.  With relative naming off, the name of a loose image is its file
    name up to the last dot, every '#' turned into '*'.  A file name
    without a dot is not kept whole: [rfind] answers -1 and the slice drops
    its last character. *)
Theorem loose_image_name :
  forall o e b,
    option_rel o = false ->
    (forall stem ext,
       ~ In "."%char (chars ext) ->
       loose_name o e (stem ++ "." ++ ext)%string b
       = (replace_char "#" "*" stem, b)) /\
    (forall file_name,
       ~ In "."%char (chars file_name) ->
       loose_name o e file_name b
       = (replace_char "#" "*" (str (removelast (chars file_name))), b)).
Proof.
  intros o e b Hrel. unfold loose_name. rewrite Hrel. cbn [negb].
  split.
  - intros stem ext Hext. f_equal. f_equal.
    unfold rfind, str_slice_to, slice_to.
    rewrite !chars_app. change (chars ".") with ["."%char].
    cbn [app]. rewrite rfind_from_last by assumption.
    assert (Hl : 0 <= len (chars stem)) by (unfold len; lia).
    destruct (Z.ltb_spec (0 + len (chars stem)) 0); [lia |].
    replace (Z.to_nat (0 + len (chars stem))) with (List.length (chars stem))
      by (unfold len; lia).
    rewrite firstn_app, Nat.sub_diag, firstn_all. cbn [firstn].
    rewrite app_nil_r. apply str_chars.
  - intros file_name Hdot. f_equal. f_equal.
    unfold rfind, str_slice_to, slice_to.
    rewrite rfind_from_absent by assumption. cbn [Z.ltb Z.compare].
    f_equal. rewrite removelast_firstn_len. f_equal. unfold len. lia.
Qed.

Lemma loose_image_name_witness :
  loose_name (folder []) folder_disk "#slime.tga" empty_bdata
  = ("*slime", empty_bdata) /\
  loose_name (folder []) folder_disk "README" empty_bdata
  = ("READM", empty_bdata).
Proof.
  destruct (loose_image_name (folder []) folder_disk empty_bdata eq_refl)
    as [Hdot Hnone].
  split.
  - apply (Hdot "#slime" "tga"). intros [H | [H | [H | []]]]; discriminate.
  - apply (Hnone "README").
    intros [H | [H | [H | [H | [H | [H | []]]]]]]; discriminate.
Defined.

Lemma split_chars_absent (sep : ascii) (l : list ascii) :
  ~ In sep l -> forall cur, split_chars sep l cur = [str (rev cur ++ l)].
Proof.
  induction l as [| c l IH]; intros Hsep cur; simpl.
  - now rewrite app_nil_r.
  - assert (Hc : Ascii.eqb c sep = false)
      by (apply Ascii.eqb_neq; intros ->; apply Hsep; now left).
    rewrite Hc, IH by (intros H; apply Hsep; now right).
    simpl. now rewrite <- app_assoc.
Qed.

Lemma split_chars_app (sep : ascii) (l1 l2 : list ascii) :
  forall cur,
    split_chars sep (l1 ++ sep :: l2) cur
    = split_chars sep l1 cur ++ split_chars sep l2 [].
Proof.
  induction l1 as [| c l1 IH]; intros cur; simpl.
  - now rewrite Ascii.eqb_refl.
  - destruct (Ascii.eqb c sep); [simpl; now rewrite IH | apply IH].
Qed.

Lemma item_neg_2 {A} (l : list A) (x y : A) : item_neg (l ++ [x; y]) 2 = Ok x.
Proof.
  unfold item_neg, item, len. rewrite length_app. simpl List.length.
  destruct (Z.ltb_spec (Z.of_nat (List.length l + 2)) 2); [lia |].
  destruct (Z.ltb_spec (Z.of_nat (List.length l + 2) - 2) 0); [lia |].
  replace (Z.to_nat (Z.of_nat (List.length l + 2) - 2)) with (List.length l)
    by lia.
  now rewrite nth_error_app2, Nat.sub_diag by lia.
Qed.

(** X15.  The container of a loose image is the last folder of a directory
    written with backslashes and ending in one.  A directory without any
    backslash - a POSIX path - has no such component: the import of a
    readable loose image then raises IndexError at line 131, before any
    texture is made. *)
Theorem loose_image_container :
  forall o e,
    (forall parent fold_name,
       ~ In "\"%char (chars fold_name) ->
       directory o = (parent ++ "\" ++ fold_name ++ "\")%string ->
       item_neg (split (directory o) "\") 2 = Ok fold_name) /\
    (forall s file_name f,
       ~ In "\"%char (chars (directory o)) ->
       assoc (directory o ++ file_name)%string (fs e) = Some f ->
       bytes_eqb (firstn 4 (f_bytes f)) sig_WAD2 = false ->
       bytes_eqb (firstn 4 (f_bytes f)) sig_BSP2 = false ->
       bytes_eqb (firstn 4 (f_bytes f)) sig_29 = false ->
       f_depth f <> 0 ->
       process_file o e s file_name = Raise IndexError).
Proof.
  intros o e. split.
  - intros parent fold_name Hsep ->. unfold split.
    rewrite !chars_app. change (chars "\") with ["\"%char].
    cbn [app]. rewrite split_chars_app, split_chars_app.
    rewrite (split_chars_absent _ _ Hsep). cbn [split_chars rev app].
    rewrite str_chars. apply item_neg_2.
  - intros s file_name f Hsep Hf Hwad Hbsp H29 Hdepth.
    unfold process_file. rewrite Hf. unfold read_directory, open_bytes.
    rewrite read_nonneg by lia. cbn [r_data r_pos bind].
    change (Z.to_nat 4) with 4%nat. change (Z.to_nat 0) with 0%nat.
    cbn [skipn]. rewrite Hwad, Hbsp, H29. cbn [orb].
    destruct (load_image file_name _ (bpy s)) as [img24 b1].
    apply Z.eqb_neq in Hdepth. rewrite Hdepth. cbn [bind is_some].
    unfold split. rewrite (split_chars_absent _ _ Hsep). reflexivity.
Qed.

Lemma loose_image_container_witness :
  item_neg (split (directory (folder [])) "\") 2 = Ok "tex" /\
  process_file (defaults "/home/q/tex/" ["x.png"])
               (disk [("/home/q/tex/x.png", picture 24)])
               (initial_state empty_bdata) "x.png"
  = Raise IndexError.
Proof.
  destruct (loose_image_container (folder []) folder_disk) as [Hfold _].
  destruct (loose_image_container (defaults "/home/q/tex/" ["x.png"])
              (disk [("/home/q/tex/x.png", picture 24)])) as [_ Hposix].
  split.
  - apply (Hfold "C:\q" "tex"); [| reflexivity].
    intros [H | [H | [H | []]]]; discriminate.
  - apply (Hposix (initial_state empty_bdata) "x.png" (picture 24));
      try reflexivity; try discriminate.
    intros H. cbn in H.
    repeat (destruct H as [H | H]; [discriminate |]). exact H.
Defined.

(** ** The texture directory of a BSP *)

(** The entry line 117 makes up for a texture at [offset]. *)
Definition bsp_entry (offset : Z) : list pyval :=
  [VInt offset; VInt 0; VInt 0; type_D; VInt 0; VInt 0; VBytes []].

Lemma read_bsp_offsets_shape (n : nat) (diroffset : Z) :
  forall wad entries wad',
    read_bsp_offsets n diroffset wad = Ok (entries, wad') ->
    List.length entries = n /\
    Forall (fun en => exists offset, en = bsp_entry offset) entries.
Proof.
  induction n as [| n IH]; intros wad entries wad' H;
    cbn [read_bsp_offsets] in H.
  - injection H as <- <-. split; [reflexivity | constructor].
  - bind_inv H as [raw wad1] E1. bind_inv H as t E2. bind_inv H as rel E3.
    bind_inv H as [rest wad2] E4. injection H as <- <-.
    destruct (IH _ _ _ E4) as [Hlen Hall].
    split; [simpl; now rewrite Hlen |].
    constructor; [now exists (rel + diroffset) | exact Hall].
Qed.

Lemma decode_bsp_entry o e file_name wad s offset wad' s' l :
  decode_entry o e file_name false wad s (bsp_entry offset) = Ok (wad', s', l) ->
  (exists name size pixels, l = Indexed name size pixels) /\
  bpy s' = bpy s /\ palette s' = pal_float /\
  warnings (bpy s') = warnings (bpy s).
Proof.
  unfold decode_entry. intros H.
  change (int_at (bsp_entry offset) 0) with (Ok offset) in H.
  change (item (bsp_entry offset) 3) with (Ok type_D) in H.
  change (name_at (bsp_entry offset) 6) with (Ok "") in H.
  cbn [bind] in H. bind_inv H as wad1 E1. cbn [bind] in H.
  change (String.eqb "" "CONCHARS") with false in H.
  change (String.eqb "" "CONBACK") with false in H.
  change (pyval_eqb type_D type_D) with true in H. cbv iota in H.
  bind_inv H as [raw wad2] E2. bind_inv H as miptex E3.
  bind_inv H as name E4. bind_inv H as w E5. bind_inv H as h E6.
  bind_inv H as mip0 E7. bind_inv H as wad3 E8.
  bind_inv H as [pixels wad4] E9. injection H as <- <- <-.
  split; [now exists name, (w, h), pixels |]. now repeat split.
Qed.

(** X16.  The directory synthesised for a BSP holds as many entries as the
    file announces, and each of them, whatever the file holds at its offset,
    is read as a miptexture: it is never reported as unrecognised, and it is
    converted with the default palette. *)
Theorem bsp_entries_are_miptextures :
  forall n diroffset wad entries wad',
    read_bsp_offsets n diroffset wad = Ok (entries, wad') ->
    List.length entries = n /\
    forall o e file_name w s wadentry w' s' l,
      In wadentry entries ->
      decode_entry o e file_name false w s wadentry = Ok (w', s', l) ->
      (exists name size pixels, l = Indexed name size pixels) /\
      bpy s' = bpy s /\ palette s' = pal_float.
Proof.
  intros n diroffset wad entries wad' H.
  destruct (read_bsp_offsets_shape _ _ _ _ _ H) as [Hlen Hall].
  split; [exact Hlen |].
  intros o e file_name w s wadentry w' s' l Hin Hdec.
  rewrite Forall_forall in Hall. destruct (Hall _ Hin) as [offset ->].
  destruct (decode_bsp_entry _ _ _ _ _ _ _ _ _ Hdec) as [Hl [Hb [Hp _]]].
  now repeat split.
Qed.

(** A texture directory of two offsets, 12 and 53, at position 0, and the
    miptextures they point at. *)
Definition bsp_lumps : list byte :=
  le32 12 ++ le32 53 ++ [Byte.x00; Byte.x00; Byte.x00; Byte.x00]
    ++ miptex "WALL1" 1 1 [Byte.x00] ++ miptex "FLOOR1" 1 1 [Byte.x01].

Lemma bsp_entries_are_miptextures_witness :
  exists entries wad' w' s',
    read_bsp_offsets 2 0 (open_bytes bsp_lumps) = Ok (entries, wad') /\
    List.length entries = 2%nat /\
    decode_entry two_walls two_walls_disk "a.wad" false wad'
                 (initial_state empty_bdata) (bsp_entry 53)
    = Ok (w', s', Indexed "FLOOR1" (1, 1) [Byte.x01]) /\
    bpy s' = empty_bdata /\ palette s' = pal_float.
Proof.
  destruct (read_bsp_offsets 2 0 (open_bytes bsp_lumps))
    as [[entries wad'] |] eqn:Hread; [| vm_compute in Hread; discriminate].
  destruct (decode_entry two_walls two_walls_disk "a.wad" false wad'
              (initial_state empty_bdata) (bsp_entry 53))
    as [[[w' s'] l] |] eqn:Hdec.
  2: { vm_compute in Hread. injection Hread as <- <-.
       vm_compute in Hdec. discriminate. }
  destruct (bsp_entries_are_miptextures _ _ _ _ _ Hread) as [Hlen Hall].
  assert (Hin : In (bsp_entry 53) entries).
  { vm_compute in Hread. injection Hread as <- _. right. left. reflexivity. }
  destruct (Hall _ _ _ _ _ _ _ _ _ Hin Hdec) as [_ [Hb Hp]].
  exists entries, wad', w', s'.
  split; [reflexivity |]. split; [exact Hlen |].
  split; [| split; [exact Hb | exact Hp]].
  rewrite Hdec. f_equal. f_equal.
  vm_compute in Hread. injection Hread as <- <-.
  vm_compute in Hdec. injection Hdec as _ _ <-. reflexivity.
Defined.

(** ** A name met again when nothing is marked as an asset *)

Definition plain (o : options) : options :=
  {| files := files o; directory := directory o;
     option_assets := false; option_cont := option_cont o;
     option_rel := option_rel o; option_luma := option_luma o;
     option_turb := option_turb o; option_scroll := option_scroll o;
     option_seq := option_seq o; option_lerp := option_lerp o;
     prefs_basepath := prefs_basepath o;
     prefs_emit_suffix := prefs_emit_suffix o |}.

Lemma find_app_absent {A} (p : A -> bool) (l : list A) (x : A) :
  existsb p l = false -> p x = true -> find p (l ++ [x]) = Some x.
Proof.
  induction l as [| y l IH]; simpl; intros Hl Hx; [now rewrite Hx |].
  apply orb_false_iff in Hl as [Hy Hl]. rewrite Hy. now apply IH.
Qed.

Lemma existsb_find_some {A} (p : A -> bool) (l : list A) (x : A) :
  find p l = Some x -> existsb p l = true.
Proof.
  induction l as [| y l IH]; simpl; [discriminate |].
  destruct (p y); [reflexivity | exact IH].
Qed.

Lemma container_append_materials (cont_name mat : string) (b : bdata) :
  materials (container_append cont_name mat b) = materials b.
Proof. reflexivity. Qed.

(** X17.  The material of a texture is marked as an asset only when
    [option_assets] is on and Blender is newer than 3.0.0 (line 356).
    Otherwise its [asset_data] stays None, and the next lump or loose image
    of the same name does not pass for a duplicate: line 198 raises
    AttributeError. *)
Theorem repeated_name_without_asset_mark_raises :
  forall o e cont1 cont2 name img emit img24 b s,
    option_assets o && version_gt (app_version e) (3, 0, 0) = false ->
    material_exists name b = false ->
    bpy s = new_material o e cont1 name img emit b ->
    screen_entry o cont2 img24 s name = Raise AttributeError.
Proof.
  intros o e cont1 cont2 name img emit img24 b s Hmark Hnew Hs.
  set (mat := {| mat_name := name; mat_image := img; mat_emission := emit;
                 mat_tags := None; mat_frames := None;
                 mat_emit_frames := [] |}).
  assert (Hms : materials (bpy s) = materials b ++ [mat]).
  { rewrite Hs. unfold new_material. rewrite Hmark.
    destruct (option_cont o); reflexivity. }
  assert (Hfind : find (fun m => String.eqb (mat_name m) name)
                       (materials (bpy s)) = Some mat).
  { rewrite Hms. apply find_app_absent; [exact Hnew |].
    apply String.eqb_refl. }
  unfold screen_entry, material_exists.
  rewrite (existsb_find_some _ _ _ Hfind).
  unfold tag_material.
  destruct (option_cont o);
    [rewrite container_append_materials |];
    now rewrite (tag_first_untagged _ _ _ _ Hfind eq_refl).
Qed.

Definition some_image : image :=
  {| img_id := 0; img_name := "wall1"; img_source := Loaded "" |}.

Lemma repeated_name_without_asset_mark_raises_witness :
  screen_entry (plain two_walls) "b.wad" None
    (initial_state (new_material (plain two_walls) two_walls_disk "a.wad"
                                 "wall1" some_image None empty_bdata))
    "wall1"
  = Raise AttributeError.
Proof.
  apply (repeated_name_without_asset_mark_raises
           (plain two_walls) two_walls_disk "a.wad" "b.wad" "wall1"
           some_image None None empty_bdata); reflexivity.
Defined.

(** The same, from the files: the second archive stops the import. *)
Example second_wall_without_assets :
  execute (plain two_walls) two_walls_disk empty_bdata = Raise AttributeError.
Proof. vm_compute. reflexivity. Qed.

(** So for a loose glow image that comes after a lump of its name. *)
Example glow_file_after_lump_without_assets :
  execute (plain (folder ["a.wad"; "x_luma.png"])) folder_disk empty_bdata
  = Raise AttributeError.
Proof. vm_compute. reflexivity. Qed.

(** * Applying an asset to the selected faces (ApplyAssetEditMode) *)

(** Lines 790-802 of [ApplyAssetEditMode.execute], from the point where the
    material of the asset is at hand ([mat], looked at through its name).
    The objects are meshes in edit mode, which [poll] asks of the active
    one.  An object is known by the mesh it carries: two objects that share
    their mesh data are the same key of [data], so that what the loop does
    for the first is seen by the second. *)
Module ApplyAssetEditMode.

Record face : Type := { select : bool; material_index : Z }.

(** [obj.data]: the material slots (None for an empty slot) and the faces. *)
Record mesh : Type := { slots : list (option string); faces : list face }.

Definition holds (name : string) (slot : option string) : bool :=
  match slot with
  | Some n => String.eqb n name
  | None => false
  end.

Fixpoint find_from (name : string) (sl : list (option string)) (i : Z) : Z :=
  match sl with
  | [] => -1
  | slot :: rest => if holds name slot then i else find_from name rest (i + 1)
  end.

(** [obj.data.materials.find(name)] *)
Definition slot_find (name : string) (sl : list (option string)) : Z :=
  find_from name sl 0.

Definition assign (idx : Z) (f : face) : face :=
  if select f then {| select := true; material_index := idx |} else f.

(** The body of [for obj in objs], on the mesh of [obj]. *)
Definition apply_to_mesh (mat : string) (m : mesh) : mesh :=
  let mat_idx := slot_find mat (slots m) in
  let '(sl, mat_idx) :=
    if mat_idx =? -1
    then let sl := slots m ++ [Some mat] in (sl, len sl - 1)
    else (slots m, mat_idx) in
  {| slots := sl; faces := map (assign mat_idx) (faces m) |}.

Definition objs_of (selected : list nat) (active : nat) : list nat :=
  match selected with
  | [] => [active]
  | _ => selected
  end.

Definition step (mat : string) (data : nat -> mesh) (obj : nat) : nat -> mesh :=
  fun k => if Nat.eqb k obj then apply_to_mesh mat (data obj) else data k.

Definition execute (mat : string) (selected : list nat) (active : nat)
    (data : nat -> mesh) : nat -> mesh :=
  fold_left (step mat) (objs_of selected active) data.

End ApplyAssetEditMode.

Module Apply := ApplyAssetEditMode.

Lemma find_from_range (name : string) (sl : list (option string)) :
  forall i, 0 <= i ->
    Apply.find_from name sl i = -1 \/
    (i <= Apply.find_from name sl i < i + len sl).
Proof.
  induction sl as [| slot sl IH]; intros i Hi; simpl; [now left |].
  unfold len in *. simpl List.length.
  destruct (Apply.holds name slot); [right; lia |].
  destruct (IH (i + 1) ltac:(lia)) as [-> | H]; [now left | right; lia].
Qed.

Lemma find_from_holds (name : string) (sl : list (option string)) :
  forall i, 0 <= i -> Apply.find_from name sl i <> -1 ->
    exists slot,
      nth_error sl (Z.to_nat (Apply.find_from name sl i - i)) = Some slot /\
      Apply.holds name slot = true.
Proof.
  induction sl as [| slot sl IH]; intros i Hi; simpl; [congruence |].
  destruct (Apply.holds name slot) eqn:Hslot.
  - intros _. rewrite Z.sub_diag. exists slot. now split.
  - intros Hf. destruct (IH (i + 1) ltac:(lia) Hf) as [sl0 [Hn Hh]].
    exists sl0. split; [| exact Hh].
    destruct (find_from_range name sl (i + 1) ltac:(lia)) as [E | R];
      [congruence |].
    replace (Z.to_nat (Apply.find_from name sl (i + 1) - i))
      with (S (Z.to_nat (Apply.find_from name sl (i + 1) - (i + 1)))) by lia.
    exact Hn.
Qed.

Lemma find_from_app_absent (name : string) (sl : list (option string)) :
  forall i, 0 <= i -> Apply.find_from name sl i = -1 ->
    Apply.find_from name (sl ++ [Some name]) i = i + len sl.
Proof.
  induction sl as [| slot sl IH]; intros i Hi; simpl.
  - intros _. rewrite String.eqb_refl. unfold len. simpl. lia.
  - destruct (Apply.holds name slot); [lia |].
    intros H. rewrite (IH (i + 1) ltac:(lia) H).
    unfold len. simpl List.length. lia.
Qed.

Lemma assign_twice (idx : Z) (f : Apply.face) :
  Apply.assign idx (Apply.assign idx f) = Apply.assign idx f.
Proof.
  unfold Apply.assign. destruct (Apply.select f) eqn:Hf; simpl; [reflexivity |].
  now rewrite Hf.
Qed.

(** What one pass of the loop body leaves: the slot [idx] the faces are
    sent to is the first that holds the material. *)
Lemma apply_to_mesh_slot (mat : string) (m : Apply.mesh) :
  exists idx,
    0 <= idx < len (Apply.slots (Apply.apply_to_mesh mat m)) /\
    Apply.slot_find mat (Apply.slots (Apply.apply_to_mesh mat m)) = idx /\
    nth_error (Apply.slots (Apply.apply_to_mesh mat m)) (Z.to_nat idx)
    = Some (Some mat) /\
    Apply.faces (Apply.apply_to_mesh mat m)
    = map (Apply.assign idx) (Apply.faces m) /\
    (Apply.slots (Apply.apply_to_mesh mat m) = Apply.slots m \/
     Apply.slot_find mat (Apply.slots m) = -1 /\
     Apply.slots (Apply.apply_to_mesh mat m) = Apply.slots m ++ [Some mat]).
Proof.
  unfold Apply.apply_to_mesh, Apply.slot_find.
  destruct (Z.eqb_spec (Apply.find_from mat (Apply.slots m) 0) (-1)) as [E | E].
  - cbn [Apply.slots Apply.faces].
    exists (len (Apply.slots m)).
    assert (Hlen : len (Apply.slots m ++ [Some mat]) - 1 = len (Apply.slots m))
      by (unfold len; rewrite length_app; simpl; lia).
    rewrite Hlen.
    split; [unfold len; rewrite length_app; simpl; lia |].
    split; [rewrite find_from_app_absent by (assumption || lia); lia |].
    split.
    + unfold len. rewrite Nat2Z.id, nth_error_app2, Nat.sub_diag by lia.
      reflexivity.
    + split; [reflexivity | right; now split].
  - cbn [Apply.slots Apply.faces].
    exists (Apply.find_from mat (Apply.slots m) 0).
    destruct (find_from_range mat (Apply.slots m) 0 ltac:(lia)) as [E' | R];
      [congruence |].
    split; [lia |]. split; [reflexivity |].
    split; [| split; [reflexivity | now left]].
    destruct (find_from_holds mat (Apply.slots m) 0 ltac:(lia) E)
      as [slot [Hn Hh]].
    rewrite Z.sub_0_r in Hn. rewrite Hn. f_equal.
    destruct slot as [n |]; simpl in Hh; [| discriminate].
    apply String.eqb_eq in Hh. now subst.
Qed.

Lemma apply_to_mesh_twice (mat : string) (m : Apply.mesh) :
  Apply.apply_to_mesh mat (Apply.apply_to_mesh mat m)
  = Apply.apply_to_mesh mat m.
Proof.
  destruct (apply_to_mesh_slot mat m) as [idx [Hidx [Hfind [_ [Hfaces _]]]]].
  unfold Apply.apply_to_mesh at 1. rewrite Hfind.
  destruct (Z.eqb_spec idx (-1)) as [E | _]; [lia |].
  rewrite Hfaces, map_map.
  rewrite (map_ext _ _ (assign_twice idx)). rewrite <- Hfaces.
  now destruct (Apply.apply_to_mesh mat m).
Qed.

Lemma existsb_eqb_in (k : nat) (l : list nat) :
  existsb (Nat.eqb k) l = true <-> In k l.
Proof.
  rewrite existsb_exists. split.
  - intros [x [Hin Hx]]. apply Nat.eqb_eq in Hx. now subst.
  - intros Hin. exists k. split; [exact Hin | apply Nat.eqb_refl].
Qed.

(** However often a mesh comes up among the objects, it ends as after one
    pass of the loop body. *)
Lemma fold_step_at (mat : string) (objs : list nat) :
  forall data k,
    fold_left (Apply.step mat) objs data k
    = if existsb (Nat.eqb k) objs then Apply.apply_to_mesh mat (data k)
      else data k.
Proof.
  induction objs as [| obj objs IH]; intros data k; simpl; [reflexivity |].
  rewrite IH. unfold Apply.step.
  destruct (Nat.eqb_spec k obj) as [-> | Hk]; simpl.
  - rewrite apply_to_mesh_twice. now destruct (existsb (Nat.eqb obj) objs).
  - reflexivity.
Qed.

Lemma execute_at (mat : string) (selected : list nat) (active : nat)
    (data : nat -> Apply.mesh) (k : nat) :
  Apply.execute mat selected active data k
  = if existsb (Nat.eqb k) (Apply.objs_of selected active)
    then Apply.apply_to_mesh mat (data k) else data k.
Proof. apply fold_step_at. Qed.

(** X18.  After the operator has run, on the mesh of every object it went
    through there is a slot that holds the material, the first such slot is
    the one every selected face points at, and the faces that were not
    selected are as they were; the slots are those of before, with the
    material appended when, and only when, no slot held it. *)
Theorem selected_faces_get_the_material :
  forall mat selected active data k,
    In k (Apply.objs_of selected active) ->
    exists idx,
      item (Apply.slots (Apply.execute mat selected active data k)) idx
      = Ok (Some mat) /\
      Apply.slot_find mat
        (Apply.slots (Apply.execute mat selected active data k)) = idx /\
      Forall2 (fun f f' =>
                 Apply.select f' = Apply.select f /\
                 Apply.material_index f'
                 = if Apply.select f then idx else Apply.material_index f)
              (Apply.faces (data k))
              (Apply.faces (Apply.execute mat selected active data k)) /\
      (Apply.slots (Apply.execute mat selected active data k)
       = Apply.slots (data k) \/
       Apply.slot_find mat (Apply.slots (data k)) = -1 /\
       Apply.slots (Apply.execute mat selected active data k)
       = Apply.slots (data k) ++ [Some mat]).
Proof.
  intros mat selected active data k Hin.
  rewrite execute_at. apply existsb_eqb_in in Hin. rewrite Hin.
  destruct (apply_to_mesh_slot mat (data k))
    as [idx [Hidx [Hfind [Hnth [Hfaces Hslots]]]]].
  exists idx. split; [| split; [exact Hfind | split; [| exact Hslots]]].
  - unfold item. destruct (Z.ltb_spec idx 0); [lia |]. now rewrite Hnth.
  - rewrite Hfaces. clear. induction (Apply.faces (data k)) as [| f fs IH];
      simpl; constructor; [| exact IH].
    unfold Apply.assign. now destruct (Apply.select f) eqn:Hf.
Qed.

(** A cube with an empty slot, a slot of "rock" and two faces, the first of
    them selected; every other mesh is empty. *)
Definition cube : Apply.mesh :=
  {| Apply.slots := [None; Some "rock"];
     Apply.faces := [ {| Apply.select := true; Apply.material_index := 1 |};
                      {| Apply.select := false; Apply.material_index := 1 |} ] |}.

Definition scene (k : nat) : Apply.mesh :=
  match k with
  | O => cube
  | _ => {| Apply.slots := []; Apply.faces := [] |}
  end.

Lemma selected_faces_get_the_material_witness :
  exists idx,
    item (Apply.slots (Apply.execute "wall1" [] 0 scene 0%nat)) idx
    = Ok (Some "wall1") /\
    Apply.slot_find "wall1"
      (Apply.slots (Apply.execute "wall1" [] 0 scene 0%nat)) = idx /\
    Forall2 (fun f f' =>
               Apply.select f' = Apply.select f /\
               Apply.material_index f'
               = if Apply.select f then idx else Apply.material_index f)
            (Apply.faces (scene 0%nat))
            (Apply.faces (Apply.execute "wall1" [] 0 scene 0%nat)) /\
    (Apply.slots (Apply.execute "wall1" [] 0 scene 0%nat)
     = Apply.slots (scene 0%nat) \/
     Apply.slot_find "wall1" (Apply.slots (scene 0%nat)) = -1 /\
     Apply.slots (Apply.execute "wall1" [] 0 scene 0%nat)
     = Apply.slots (scene 0%nat) ++ [Some "wall1"]).
Proof.
  apply (selected_faces_get_the_material "wall1" [] 0%nat scene 0%nat).
  left. reflexivity.
Defined.

Example cube_gets_a_third_slot :
  Apply.execute "wall1" [0%nat; 0%nat] 7 scene 0%nat
  = {| Apply.slots := [None; Some "rock"; Some "wall1"];
       Apply.faces := [ {| Apply.select := true; Apply.material_index := 2 |};
                        {| Apply.select := false; Apply.material_index := 1 |} ] |}.
Proof. reflexivity. Qed.

(** X19.  The meshes of the objects the operator did not go through are
    untouched; a mesh it went through, however many of the objects share
    it, is as after one pass of the loop body, so that it gets one slot at
    most; and running the operator again changes nothing. *)
Theorem applying_again_changes_nothing :
  forall mat selected active data k,
    (~ In k (Apply.objs_of selected active) ->
     Apply.execute mat selected active data k = data k) /\
    (In k (Apply.objs_of selected active) ->
     Apply.execute mat selected active data k
     = Apply.apply_to_mesh mat (data k) /\
     (List.length (Apply.slots (Apply.execute mat selected active data k))
      <= S (List.length (Apply.slots (data k))))%nat) /\
    Apply.execute mat selected active
      (Apply.execute mat selected active data) k
    = Apply.execute mat selected active data k.
Proof.
  intros mat selected active data k.
  rewrite !execute_at.
  destruct (existsb (Nat.eqb k) (Apply.objs_of selected active)) eqn:Hk.
  - split; [| split].
    + intros Hnot. apply existsb_eqb_in in Hk. contradiction.
    + intros _. split; [reflexivity |].
      destruct (apply_to_mesh_slot mat (data k))
        as [idx [_ [_ [_ [_ [-> | [_ ->]]]]]]];
        [| rewrite length_app; simpl]; lia.
    + apply apply_to_mesh_twice.
  - split; [reflexivity | split; [| reflexivity]].
    intros Hin. apply existsb_eqb_in in Hin. congruence.
Qed.

Lemma applying_again_changes_nothing_witness :
  Apply.execute "wall1" [0%nat; 0%nat] 7 scene 3%nat = scene 3%nat /\
  Apply.execute "wall1" [0%nat; 0%nat] 7 scene 0%nat
  = Apply.apply_to_mesh "wall1" cube /\
  (List.length (Apply.slots (Apply.execute "wall1" [0%nat; 0%nat] 7 scene 0%nat))
   <= 3)%nat.
Proof.
  destruct (applying_again_changes_nothing "wall1" [0%nat; 0%nat] 7%nat
              scene 3%nat) as [Hout _].
  destruct (applying_again_changes_nothing "wall1" [0%nat; 0%nat] 7%nat
              scene 0%nat) as [_ [Hin _]].
  split.
  - apply Hout. intros [H | [H | []]]; discriminate.
  - apply Hin. left. reflexivity.
Defined.
